(** * FlagHandler: a shallow embedding of [src/unnamed/part_009] (the
    flag conflict registry of plugin-flaghandler) and its specification.

    The registry is written in JavaScript with plain objects used as maps
    ([this._database], its per-command plugin tables and the flags objects
    handed in by plugins).  Several properties of the code depend on how
    JavaScript objects behave as maps: the key order of [Object.keys], the
    prototype chain of [{}] (the ["__proto__"] accessor and the inherited
    members of [Object.prototype]), the aliasing of the caller's flags
    object and the strict-mode behaviour of assignments (class bodies are
    strict code).  The first module therefore models a small fragment of the
    JavaScript object store; the second module translates [FlagHandler]
    method by method on top of it. *)

From Stdlib Require Import String Ascii ZArith.
From stdpp Require Import base gmap strings list pretty.

(* ------------------------------------------------------------------ *)
(** * A fragment of the JavaScript object store *)
(* ------------------------------------------------------------------ *)

Module JS.

Abbreviation loc := positive.
(** Identity of a callable object (a plugin's [verify] function or a
    built-in function). *)
Definition fid := positive.

Inductive val :=
| VUndef
| VNull
| VBool (b : bool)
| VNum (z : Z)
| VStr (s : string)
| VObj (l : loc).

(** An own property: a data property with its [writable] and [enumerable]
    attributes, or the ["__proto__"] accessor of [Object.prototype]. *)
Inductive prop :=
| PData (v : val) (writable enumerable : bool)
| PProtoAccessor.

(** An ordinary object.  [o_props] lists the own properties in creation
    order; [o_call] is [Some f] for functions; [o_immut_proto] marks the
    immutable-prototype exotic object [Object.prototype]. *)
Record obj := mkObj {
  o_props : list (string * prop);
  o_proto : option loc;
  o_call : option fid;
  o_ext : bool;
  o_immut_proto : bool
}.

Abbreviation heap := (gmap positive obj).

(** The world: the object store and the calls made so far to callable
    objects (function, argument). *)
Record world := mkWorld {
  w_heap : heap;
  w_trace : list (fid * val)
}.

(** Completions: [throw new Error(msg)], a [TypeError] raised by the
    engine, or a value thrown by a called function. *)
Inductive exn :=
| EError (msg : string)
| ETypeError
| EThrow (v : val).

(** A JavaScript computation: exceptions do not roll the store back. *)
Definition M (A : Type) := world -> (exn + A) * world.

Definition ret {A} (a : A) : M A := fun w => (inr a, w).
Definition bind {A B} (m : M A) (k : A -> M B) : M B :=
  fun w => match m w with
           | (inl e, w') => (inl e, w')
           | (inr a, w') => k a w'
           end.
Definition throw {A} (e : exn) : M A := fun w => (inl e, w).
Definition get_heap : M heap := fun w => (inr (w_heap w), w).

Notation "'let*' x ':=' m 'in' k" := (bind m (fun x => k))
  (at level 200, x name, m at level 100, k at level 200).

(** [Object.prototype] lives at a fixed location. *)
Definition objproto : loc := 1%positive.

Definition put_obj (l : loc) (o : obj) : M unit :=
  fun w => (inr tt, mkWorld (<[l := o]> (w_heap w)) (w_trace w)).

Definition alloc (o : obj) : M loc :=
  fun w => let l := fresh (dom (w_heap w)) in
           (inr l, mkWorld (<[l := o]> (w_heap w)) (w_trace w)).

(** An object literal [{ k1: v1, ... }] with the default prototype. *)
Definition literal (kvs : list (string * val)) : obj :=
  mkObj (map (fun kv => (kv.1, PData kv.2 true true)) kvs)
        (Some objproto) None true false.

Definition alloc_literal (kvs : list (string * val)) : M val :=
  let* l := alloc (literal kvs) in ret (VObj l).

Fixpoint alookup (k : string) (ps : list (string * prop)) : option prop :=
  match ps with
  | [] => None
  | (k', p) :: ps' => if String.eqb k k' then Some p else alookup k ps'
  end.

Fixpoint aupdate (k : string) (v : val) (ps : list (string * prop))
    : list (string * prop) :=
  match ps with
  | [] => []
  | (k', p) :: ps' =>
      if String.eqb k k' then
        match p with
        | PData _ wr en => (k', PData v wr en) :: ps'
        | PProtoAccessor => (k', p) :: ps'
        end
      else (k', p) :: aupdate k v ps'
  end.

(** Prototype chains are finite and acyclic; a walk visits each object of
    the store at most once, so the store's size bounds it. *)
Definition fuel (h : heap) : nat := S (map_size h).

(** The first object on the chain from [l] with an own property [k]. *)
Fixpoint find_prop (h : heap) (n : nat) (l : loc) (k : string)
    : option (loc * prop) :=
  match n with
  | O => None
  | S n' =>
      match h !! l with
      | None => None
      | Some o =>
          match alookup k (o_props o) with
          | Some p => Some (l, p)
          | None =>
              match o_proto o with
              | Some l' => find_prop h n' l' k
              | None => None
              end
          end
      end
  end.

Definition typeof (h : heap) (v : val) : string :=
  match v with
  | VUndef => "undefined"
  | VNull => "object"
  | VBool _ => "boolean"
  | VNum _ => "number"
  | VStr _ => "string"
  | VObj l =>
      match h !! l with
      | Some o => match o_call o with Some _ => "function" | None => "object" end
      | None => "object"
      end
  end.

Definition truthy (v : val) : bool :=
  match v with
  | VUndef | VNull => false
  | VBool b => b
  | VNum z => negb (Z.eqb z 0)
  | VStr s => negb (String.eqb s "")
  | VObj _ => true
  end.

(** ** Array indices and the key order of [Object.keys] *)

Fixpoint digits_val (acc : N) (s : string) : option N :=
  match s with
  | EmptyString => Some acc
  | String c s' =>
      let n := Ascii.nat_of_ascii c in
      if (48 <=? n)%nat && (n <=? 57)%nat
      then digits_val (acc * 10 + N.of_nat (n - 48))%N s'
      else None
  end.

(** [Some i] when [s] is an array index: the canonical decimal spelling of
    an integer [i < 2^32 - 1]. *)
Definition array_index (s : string) : option N :=
  match s with
  | EmptyString => None
  | String c s' =>
      if String.eqb s "0" then Some 0%N
      else if Ascii.eqb c "0"%char then None
      else match digits_val 0 s with
           | Some i => if (i <? 4294967295)%N then Some i else None
           | None => None
           end
  end.

Definition is_index (s : string) : bool :=
  match array_index s with Some _ => true | None => false end.

Definition index_of (s : string) : N :=
  match array_index s with Some i => i | None => 0%N end.

Fixpoint insert_index (k : string) (ks : list string) : list string :=
  match ks with
  | [] => [k]
  | k' :: ks' =>
      if (index_of k <=? index_of k')%N then k :: ks
      else k' :: insert_index k ks'
  end.

Definition sort_indices (ks : list string) : list string :=
  fold_right insert_index [] ks.

(** OrdinaryOwnPropertyKeys restricted to enumerable string keys: array
    indices in ascending numeric order, then the other keys in creation
    order. *)
Definition own_keys (o : obj) : list string :=
  let ks := map fst (List.filter (fun kp => match kp.2 with
                                       | PData _ _ true => true
                                       | _ => false end) (o_props o)) in
  sort_indices (List.filter is_index ks) ++ List.filter (fun k => negb (is_index k)) ks.

Fixpoint string_indices (n : nat) (i : nat) : list string :=
  match n with
  | O => []
  | S n' => pretty (N.of_nat i) :: string_indices n' (S i)
  end.

(** [Object.keys(v)] *)
Definition js_keys (v : val) : M (list string) :=
  let* h := get_heap in
  match v with
  | VUndef | VNull => throw ETypeError
  | VObj l => match h !! l with
              | Some o => ret (own_keys o)
              | None => ret []
              end
  | VStr s => ret (string_indices (String.length s) 0)
  | _ => ret []
  end.

(** ** Property read [v[k]] *)

Definition proto_val (h : heap) (recv : val) : val :=
  match recv with
  | VObj l => match h !! l with
              | Some o => match o_proto o with Some p => VObj p | None => VNull end
              | None => VUndef
              end
  | _ => VUndef
  end.

Definition get_from (h : heap) (l : loc) (k : string) (recv : val) : val :=
  match find_prop h (fuel h) l k with
  | Some (_, PData v _ _) => v
  | Some (_, PProtoAccessor) => proto_val h recv
  | None => VUndef
  end.

(** Reading from a primitive goes through its wrapper's prototype; the
    property names this code reads ([char], [flags], [verify], plugin
    names) are not members of [String.prototype], [Number.prototype] or
    [Boolean.prototype], so the lookup continues in [Object.prototype]. *)
Definition js_get (v : val) (k : string) : M val :=
  let* h := get_heap in
  match v with
  | VUndef | VNull => throw ETypeError
  | VObj l => ret (get_from h l k v)
  | VStr s =>
      match array_index k with
      | Some i => match String.get (N.to_nat i) s with
                  | Some c => ret (VStr (String c EmptyString))
                  | None => ret (get_from h objproto k v)
                  end
      | None => if String.eqb k "length" then ret (VNum (Z.of_nat (String.length s)))
                else ret (get_from h objproto k v)
      end
  | _ => ret (get_from h objproto k v)
  end.

(** [k in v] *)
Definition js_in (k : string) (v : val) : M bool :=
  let* h := get_heap in
  match v with
  | VObj l => ret (match find_prop h (fuel h) l k with Some _ => true | None => false end)
  | _ => throw ETypeError
  end.

(** ** Property write [o[k] = v] in strict mode *)

Definition opt_loc_eqb (a b : option loc) : bool :=
  match a, b with
  | Some x, Some y => Pos.eqb x y
  | None, None => true
  | _, _ => false
  end.

(** Does the chain from [p] reach [l]? *)
Fixpoint reaches (h : heap) (n : nat) (p : option loc) (l : loc) : bool :=
  match n, p with
  | S n', Some q =>
      if Pos.eqb q l then true
      else match h !! q with
           | Some o => reaches h n' (o_proto o) l
           | None => false
           end
  | _, _ => false
  end.

(** OrdinarySetPrototypeOf, failing with a [TypeError] as the
    ["__proto__"] setter does. *)
Definition set_proto (l : loc) (np : option loc) : M unit :=
  let* h := get_heap in
  match h !! l with
  | None => throw ETypeError
  | Some o =>
      if opt_loc_eqb (o_proto o) np then ret tt
      else if o_immut_proto o || negb (o_ext o) then throw ETypeError
      else if reaches h (fuel h) np l then throw ETypeError
      else put_obj l (mkObj (o_props o) np (o_call o) (o_ext o) (o_immut_proto o))
  end.

(** OrdinarySet on an object; a [false] result throws in strict code. *)
Definition js_set (l : loc) (k : string) (v : val) : M unit :=
  let* h := get_heap in
  match h !! l with
  | None => throw ETypeError
  | Some o =>
      let create :=
        if o_ext o
        then put_obj l (mkObj (o_props o ++ [(k, PData v true true)]) (o_proto o)
                              (o_call o) (o_ext o) (o_immut_proto o))
        else throw ETypeError in
      match find_prop h (fuel h) l k with
      | Some (l', PData _ wr _) =>
          if negb wr then throw ETypeError
          else if Pos.eqb l' l
          then put_obj l (mkObj (aupdate k v (o_props o)) (o_proto o)
                                (o_call o) (o_ext o) (o_immut_proto o))
          else create
      | Some (_, PProtoAccessor) =>
          match v with
          | VObj p => set_proto l (Some p)
          | VNull => set_proto l None
          | _ => ret tt
          end
      | None => create
      end
  end.

(** Assignment to a property of an arbitrary value: on a primitive only the
    inherited ["__proto__"] setter succeeds (and does nothing). *)
Definition js_set_val (t : val) (k : string) (v : val) : M unit :=
  match t with
  | VObj l => js_set l k v
  | VUndef | VNull => throw ETypeError
  | _ =>
      let* h := get_heap in
      match find_prop h (fuel h) objproto k with
      | Some (_, PProtoAccessor) => ret tt
      | _ => throw ETypeError
      end
  end.

(** ** [Object.assign(target, source)] for one source *)

Fixpoint assign_keys (t : loc) (s : val) (ks : list string) : M unit :=
  match ks with
  | [] => ret tt
  | k :: ks' =>
      let* v := js_get s k in
      let* _ := js_set t k v in
      assign_keys t s ks'
  end.

Definition js_assign (t : loc) (s : val) : M val :=
  match s with
  | VUndef | VNull => ret (VObj t)
  | _ =>
      let* ks := js_keys s in
      let* _ := assign_keys t s ks in
      ret (VObj t)
  end.

(** ** Calls [f(arg)] *)

Section Calls.
(** The behaviour of every callable object: called with an argument in the
    current store, a function runs code of its own, which may read and
    change any object of the store or create new ones, and returns
    normally ([None]) or throws a value ([Some v]), leaving the store it
    returns.  Only the call itself, with its argument, is recorded in the
    world's list of calls. *)
Variable call_fn : fid -> val -> heap -> option val * heap.

Definition js_call (f : val) (arg : val) : M unit :=
  fun w =>
    match f with
    | VObj l =>
        match w_heap w !! l with
        | Some o =>
            match o_call o with
            | Some fi =>
                match call_fn fi arg (w_heap w) with
                | (None, h') => (inr tt, mkWorld h' (w_trace w ++ [(fi, arg)]))
                | (Some v, h') => (inl (EThrow v), mkWorld h' (w_trace w ++ [(fi, arg)]))
                end
            | None => (inl ETypeError, w)
            end
        | None => (inl ETypeError, w)
        end
    | _ => (inl ETypeError, w)
    end.
End Calls.

End JS.

(** ** The initial store *)

Module Builtins.
Import JS.

(** The own properties of [Object.prototype] (ECMA-262, 20.1.3): all
    non-enumerable; every method is a distinct built-in function object.
    Built-in function objects are represented without their own [length]
    and [name] properties and without [Function.prototype]. *)
Definition objproto_methods : list string :=
  ["constructor"; "__defineGetter__"; "__defineSetter__"; "hasOwnProperty";
   "__lookupGetter__"; "__lookupSetter__"; "isPrototypeOf";
   "propertyIsEnumerable"; "toString"; "valueOf"; "toLocaleString"].

(** Names a lookup on [{}] finds without any own property. *)
Definition objproto_names : list string := "__proto__" :: objproto_methods.

Fixpoint method_props (ns : list string) (l : positive)
    : list (string * prop) :=
  match ns with
  | [] => []
  | n :: ns' => (n, PData (VObj l) true false) :: method_props ns' (Pos.succ l)
  end.

Definition objproto_obj : obj :=
  mkObj (("__proto__", PProtoAccessor) :: method_props objproto_methods 2%positive)
        None None true true.

Definition builtin_fn (f : fid) : obj := mkObj [] None (Some f) true false.

Fixpoint method_objs (n : nat) (l : positive) : list (loc * obj) :=
  match n with
  | O => []
  | S n' => (l, builtin_fn l) :: method_objs n' (Pos.succ l)
  end.

Definition base_heap : heap :=
  list_to_map ((objproto, objproto_obj)
               :: method_objs (length objproto_methods) 2%positive).

Definition init_world : world := mkWorld base_heap [].

End Builtins.

(* ------------------------------------------------------------------ *)
(** * FlagHandler ([src/unnamed/part_009]) *)
(* ------------------------------------------------------------------ *)

Module FlagHandler.
Import JS.

Definition nl : string := String (Ascii.ascii_of_nat 10) EmptyString.

(** [x || {}] *)
Definition or_empty (v : val) : M val :=
  if truthy v then ret v else alloc_literal [].

(** A default parameter [x = {}]. *)
Definition default_obj (v : val) : M val :=
  match v with VUndef => alloc_literal [] | _ => ret v end.

(** [constructor() { this._database = {}; }]: [this._database] is never
    reassigned, so a FlagHandler is represented by the location of its
    database object. *)
Definition construct : M loc := alloc (literal []).

Definition str_eq (v : val) (s : string) : bool :=
  match v with VStr t => String.eqb t s | _ => false end.

Definition msg_duplicate (newPluginName : string) : string :=
  "flags have already been added for a plugin named '" +:+ newPluginName +:+ ".'".

Definition msg_flag (commandName newPluginName newFlag pluginName : string) : string :=
  "Flag '" +:+ newFlag +:+ "' from '" +:+ newPluginName +:+ "' already defined by "
  +:+ "'" +:+ pluginName +:+ "' plugin for '" +:+ commandName +:+ "' command." +:+ nl.

Definition msg_alias (commandName newPluginName newFlag newFlagChar pluginFlagKey
    pluginName : string) : string :=
  "Alias '" +:+ newFlagChar +:+ "' of flag '" +:+ newFlag +:+ "' from '" +:+ newPluginName
  +:+ "' already " +:+ "defined by '" +:+ pluginFlagKey +:+ "' flag in '" +:+ pluginName
  +:+ "' for '" +:+ commandName +:+ "' command." +:+ nl.

Definition conflict_header : string :=
  "FlagHandler Error - The following conflicts are detected:" +:+ nl.

(** ** [_checkFlagConflict(commandName, newPluginName, newPluginFlags)] *)

Section CheckFlagConflict.
Variables (commandName newPluginName : string).

(** [for (const pluginFlagKey of pluginFlagKeys) { ... }] *)
Fixpoint check_alias (newFlag pluginName newFlagChar : string) (pluginFlags : val)
    (pluginFlagKeys : list string) (flagConflictMsg : string) : M string :=
  match pluginFlagKeys with
  | [] => ret flagConflictMsg
  | pluginFlagKey :: rest =>
      let* pluginFlagEntry := js_get pluginFlags pluginFlagKey in
      let* ch := js_get pluginFlagEntry "char" in
      let* h := get_heap in
      let flagConflictMsg :=
        if String.eqb (typeof h ch) "string" && str_eq ch newFlagChar
        then flagConflictMsg +:+ msg_alias commandName newPluginName newFlag newFlagChar
                                   pluginFlagKey pluginName
        else flagConflictMsg in
      check_alias newFlag pluginName newFlagChar pluginFlags rest flagConflictMsg
  end.

(** [for (const pluginName of pluginNames) { ... }] *)
Fixpoint check_plugins (plugins : val) (newFlag : string) (newFlagChar : option string)
    (pluginNames : list string) (flagConflictMsg : string) : M string :=
  match pluginNames with
  | [] => ret flagConflictMsg
  | pluginName :: rest =>
      let* entry := js_get plugins pluginName in
      let* f := js_get entry "flags" in
      let* pluginFlags := or_empty f in
      let* found := js_in newFlag pluginFlags in
      let flagConflictMsg :=
        if found then flagConflictMsg +:+ msg_flag commandName newPluginName newFlag pluginName
        else flagConflictMsg in
      let* flagConflictMsg :=
        match newFlagChar with
        | Some ch =>
            if truthy (VStr ch) then
              let* pluginFlagKeys := js_keys pluginFlags in
              check_alias newFlag pluginName ch pluginFlags pluginFlagKeys flagConflictMsg
            else ret flagConflictMsg
        | None => ret flagConflictMsg
        end in
      check_plugins plugins newFlag newFlagChar rest flagConflictMsg
  end.

(** [for (const newFlag of newFlags) { ... }]; [newFlagChar] is the
    flag's [char] when that is a string and [null] otherwise. *)
Fixpoint check_new_flags (plugins : val) (pluginNames : list string)
    (newPluginFlags : val) (newFlags : list string) (flagConflictMsg : string)
    : M string :=
  match newFlags with
  | [] => ret flagConflictMsg
  | newFlag :: rest =>
      let* spec := js_get newPluginFlags newFlag in
      let* ch := js_get spec "char" in
      let newFlagChar := match ch with VStr s => Some s | _ => None end in
      let* flagConflictMsg :=
        check_plugins plugins newFlag newFlagChar pluginNames flagConflictMsg in
      check_new_flags plugins pluginNames newPluginFlags rest flagConflictMsg
  end.

End CheckFlagConflict.

Definition checkFlagConflict (db : loc) (commandName newPluginName : string)
    (newPluginFlags : val) : M unit :=
  let* d := js_get (VObj db) commandName in
  let* plugins := or_empty d in
  let* pluginNames := js_keys plugins in
  if existsb (String.eqb newPluginName) pluginNames
  then throw (EError (msg_duplicate newPluginName))
  else
    let* newFlags := js_keys newPluginFlags in
    let* flagConflictMsg :=
      check_new_flags commandName newPluginName plugins pluginNames newPluginFlags newFlags "" in
    if String.eqb flagConflictMsg "" then ret tt
    else throw (EError (conflict_header +:+ flagConflictMsg)).

(** Lines 61-73: a [verify] that is neither [null] nor [undefined] must be
    a function; [newVerify] is the function or [null]. *)
Definition check_verify (verify : val) : M val :=
  let* h := get_heap in
  match verify with
  | VNull | VUndef => ret VNull
  | _ => if String.eqb (typeof h verify) "function" then ret verify
         else throw (EError "FlagHandler addFlags: 'newEntry.verify' is not a 'function'.")
  end.

(** Lines 79-86: the store step of [addFlags]. *)
Definition store_flags (db : loc) (commandName pluginName : string)
    (newFlags newVerify : val) : M unit :=
  let* d := js_get (VObj db) commandName in
  let* plugins := or_empty d in
  (* [Object.assign(newFlags, {})]: ToObject(null) throws *)
  let* src := alloc_literal [] in
  let* copied := match newFlags with
                 | VObj l => js_assign l src
                 | _ => throw ETypeError
                 end in
  let* contrib := alloc_literal [("flags", copied); ("verify", newVerify)] in
  let* _ := js_set_val plugins pluginName contrib in
  js_set db commandName plugins.

(** ** [addFlags(newEntry = {})]

    Reading a data property has no effect, so the second reads of
    [newEntry.verify] (lines 61-73) and of the fields (lines 70-73) give
    the values already read. *)
Definition addFlags (db : loc) (arg : val) : M unit :=
  let* newEntry := default_obj arg in
  let* h := get_heap in
  if negb (String.eqb (typeof h newEntry) "object")
  then throw (EError "FlagHandler addFlags: 'newEntry' is not an 'object'.") else
  let* command := js_get newEntry "command" in
  match command with
  | VStr commandName =>
      let* plugin := js_get newEntry "plugin" in
      match plugin with
      | VStr pluginName =>
          let* newFlags := js_get newEntry "flags" in
          let* h := get_heap in
          if negb (String.eqb (typeof h newFlags) "object")
          then throw (EError "FlagHandler addFlags: 'newEntry.flags' is not an 'object'.") else
          let* verify := js_get newEntry "verify" in
          let* newVerify := check_verify verify in
          let* _ := checkFlagConflict db commandName pluginName newFlags in
          store_flags db commandName pluginName newFlags newVerify
      | _ => throw (EError "FlagHandler addFlags: 'newEntry.plugin' is not a 'string'.")
      end
  | _ => throw (EError "FlagHandler addFlags: 'newEntry.command' is not a 'string'.")
  end.

(** ** [getFlags(query = {})] *)

(** [for (const pluginName of pluginNames) Object.assign(allFlags, plugins[pluginName].flags);] *)
Fixpoint combine_flags (plugins : val) (allFlags : loc) (pluginNames : list string)
    : M unit :=
  match pluginNames with
  | [] => ret tt
  | pluginName :: rest =>
      let* entry := js_get plugins pluginName in
      let* f := js_get entry "flags" in
      let* _ := js_assign allFlags f in
      combine_flags plugins allFlags rest
  end.

Definition getFlags (db : loc) (arg : val) : M val :=
  let* query := default_obj arg in
  let* h := get_heap in
  if negb (String.eqb (typeof h query) "object")
  then throw (EError "FlagHandler getFlags: 'query' is not a 'string'.") else
  let* command := js_get query "command" in
  match command with
  | VStr commandName =>
      let* d := js_get (VObj db) commandName in
      let* plugins := or_empty d in
      let* pluginNames := js_keys plugins in
      let* allFlags := alloc (literal []) in
      let* _ := combine_flags plugins allFlags pluginNames in
      ret (VObj allFlags)
  | _ => throw (EError "FlagHandler getFlags: 'commandName' is not a 'string'.")
  end.

(** ** [verifyFlags(query = {})] *)

Section Verify.
Variable call_fn : fid -> val -> heap -> option val * heap.

(** [for (const pluginName of pluginNames) { ... verifyFunc(flags); }] *)
Fixpoint run_verify (plugins : val) (flags : val) (pluginNames : list string) : M unit :=
  match pluginNames with
  | [] => ret tt
  | pluginName :: rest =>
      let* entry := js_get plugins pluginName in
      let* verifyFunc := js_get entry "verify" in
      let* h := get_heap in
      let* _ := if String.eqb (typeof h verifyFunc) "function"
                then js_call call_fn verifyFunc flags else ret tt in
      run_verify plugins flags rest
  end.

Definition verifyFlags (db : loc) (arg : val) : M unit :=
  let* query := default_obj arg in
  let* h := get_heap in
  if negb (String.eqb (typeof h query) "object")
  then throw (EError "FlagHandler verifyFlags: 'query' is not a 'string'.") else
  let* command := js_get query "command" in
  let* flags := js_get query "flags" in
  match command with
  | VStr commandName =>
      let* h := get_heap in
      if negb (String.eqb (typeof h flags) "object")
      then throw (EError "FlagHandler verifyFlags: 'flags' is not an 'object'.") else
      let* d := js_get (VObj db) commandName in
      let* plugins := or_empty d in
      let* pluginNames := js_keys plugins in
      run_verify plugins flags pluginNames
  | _ => throw (EError "FlagHandler verifyFlags: 'commandName' is not a 'string'.")
  end.

End Verify.

End FlagHandler.

(* ------------------------------------------------------------------ *)
(** * Predicates used by the statements *)
(* ------------------------------------------------------------------ *)

Module Props.
Import JS.

(** [w'] keeps every object of [w] as it was (it may hold more objects)
    and no function was called in between. *)
Definition keeps (w w' : world) : Prop :=
  (forall l o, w_heap w !! l = Some o -> w_heap w' !! l = Some o) /\
  w_trace w' = w_trace w.

(** A computation that, whether it returns or throws, changes no object
    that existed before it and calls no function. *)
Definition Pres {A} (m : M A) : Prop :=
  forall w r w', m w = (r, w') -> keeps w w'.

Definition writable_prop (p : prop) : Prop :=
  exists v en, p = PData v true en.

(** Every own property is writable data. *)
Definition data_like (o : obj) : Prop :=
  forall k p, In (k, p) (o_props o) -> writable_prop p.

(** [Object.prototype]'s shape: the ["__proto__"] accessor, and writable
    data under every other key. *)
Definition proto_like (o : obj) : Prop :=
  alookup "__proto__" (o_props o) = Some PProtoAccessor /\
  forall k p, In (k, p) (o_props o) -> k = "__proto__" \/ writable_prop p.

(** The handler's database object is an ordinary extensible [{}] whose own
    properties were created by assignment (writable, none named
    ["__proto__"]), and [Object.prototype] ends its chain, carries the
    ["__proto__"] accessor and otherwise writable data properties.  Every
    world reached from the constructor through the three methods has this
    shape. *)
Definition handler_ok (h : heap) (db : loc) : Prop :=
  db <> objproto /\
  (exists od, h !! db = Some od /\ o_proto od = Some objproto /\ o_ext od = true /\
     o_immut_proto od = false /\ alookup "__proto__" (o_props od) = None /\ data_like od) /\
  (exists op, h !! objproto = Some op /\ o_proto op = None /\ proto_like op).

(** A computation that changes no existing object when it throws, started
    in a world satisfying [P]. *)
Definition PresFail (P : world -> Prop) {A} (m : M A) : Prop :=
  forall w e w', P w -> m w = (inl e, w') -> keeps w w'.

(** Executable versions of the shape predicates, for concrete worlds. *)
Definition writableb (p : prop) : bool :=
  match p with PData _ true _ => true | _ => false end.

Definition data_likeb (o : obj) : bool :=
  forallb (fun kp => writableb kp.2) (o_props o).

Definition proto_likeb (o : obj) : bool :=
  match alookup "__proto__" (o_props o) with Some PProtoAccessor => true | _ => false end &&
  forallb (fun kp => String.eqb kp.1 "__proto__" || writableb kp.2) (o_props o).

Definition handler_okb (h : heap) (db : loc) : bool :=
  negb (Pos.eqb db objproto) &&
  match h !! db with
  | Some od =>
      opt_loc_eqb (o_proto od) (Some objproto) && o_ext od && negb (o_immut_proto od) &&
      match alookup "__proto__" (o_props od) with None => true | Some _ => false end &&
      data_likeb od
  | None => false
  end &&
  match h !! objproto with
  | Some op => match o_proto op with None => true | Some _ => false end && proto_likeb op
  | None => false
  end.

(** ** Reading the registry *)

(** [v[k]] for an object [v]; nothing else is read this way below. *)
Definition read (h : heap) (v : val) (k : string) : val :=
  match v with VObj l => get_from h l k v | _ => VUndef end.

(** [Object.keys(v)] for an object [v]. *)
Definition keys_of (h : heap) (v : val) : list string :=
  match v with
  | VObj l => match h !! l with Some o => own_keys o | None => [] end
  | _ => []
  end.

Definition is_objb (h : heap) (v : val) : bool :=
  match v with
  | VObj l => match h !! l with Some _ => true | None => false end
  | _ => false
  end.

(** [plugins[q].flags] *)
Definition plugin_flags (h : heap) (plugins : val) (q : string) : val :=
  read h (read h plugins q) "flags".

(** A flag's alias: its [char] when that is a string. *)
Definition char_of (h : heap) (spec : val) : option string :=
  match read h spec "char" with VStr s => Some s | _ => None end.

(** [k in v] for an object [v]: an own or inherited property. *)
Definition has_propb (h : heap) (v : val) (k : string) : bool :=
  match v with
  | VObj l => match find_prop h (fuel h) l k with Some _ => true | None => false end
  | _ => false
  end.

(** A flags mapping whose values are objects (flag specifications). *)
Definition flags_okb (h : heap) (f : val) : bool :=
  is_objb h f && forallb (fun k => is_objb h (read h f k)) (keys_of h f).

(** A plugin table whose entries are objects with a flags mapping. *)
Definition table_okb (h : heap) (plugins : val) : bool :=
  is_objb h plugins &&
  forallb (fun q => is_objb h (read h plugins q) && flags_okb h (plugin_flags h plugins q))
          (keys_of h plugins).



(** [a] occurs in [b]. *)
Definition is_sub (a b : string) : Prop := exists x y, b = x +:+ a +:+ y.






Definition is_str (v : val) : Prop := exists s, v = VStr s.

(** The [verify] field passes lines 61-67. *)
Definition verify_ok (h : heap) (v : val) : Prop :=
  v = VNull \/ v = VUndef \/ typeof h v = "function".

(** [newVerify] (line 73) for a [verify] that passed lines 61-67. *)
Definition new_verify (v : val) : val :=
  match v with VNull | VUndef => VNull | _ => v end.

(** ** Verify callbacks *)

(** The function a value denotes: [typeof v === 'function'] exactly when
    this is [Some]. *)
Definition fn_of (h : heap) (v : val) : option fid :=
  match v with
  | VObj l => match h !! l with Some o => o_call o | None => None end
  | _ => None
  end.

(** The [verify] function of a registered entry, if it has one. *)
Definition verify_fn (h : heap) (entry : val) : option fid :=
  fn_of h (read h entry "verify").

(** The verify functions of the plugins [names] of a plugin table, in
    that order, entries without one skipped. *)
Fixpoint callbacks (h : heap) (plugins : val) (names : list string) : list fid :=
  match names with
  | [] => []
  | q :: qs =>
      match verify_fn h (read h plugins q) with
      | Some f => f :: callbacks h plugins qs
      | None => callbacks h plugins qs
      end
  end.

(** Calling [fs] one after the other with [arg], from the store [h],
    until one throws: the functions called, the value thrown, if any, and
    the store the last call leaves. *)
Fixpoint calls_until (call_fn : fid -> val -> heap -> option val * heap) (fs : list fid)
    (arg : val) (h : heap) : list fid * option val * heap :=
  match fs with
  | [] => ([], None, h)
  | f :: fs' =>
      match call_fn f arg h with
      | (None, h1) => let '(cs, r, h2) := calls_until call_fn fs' arg h1 in (f :: cs, r, h2)
      | (Some v, h1) => ([f], Some v, h1)
      end
  end.

Definition outcome (r : option val) : exn + unit :=
  match r with None => inr tt | Some v => inl (EThrow v) end.

(** A plugin table whose entries are objects. *)
Definition entries_okb (h : heap) (plugins : val) : bool :=
  is_objb h plugins && forallb (fun q => is_objb h (read h plugins q)) (keys_of h plugins).

(** What the loop of [verifyFlags] reads of the entry of plugin [q] in a
    store: whether the entry is an object, and its verify function. *)
Definition entry_view (h : heap) (plugins : val) (q : string) : bool * option fid :=
  (is_objb h (read h plugins q), verify_fn h (read h plugins q)).

(** The functions [call_fn] describes leave the entries [names] of
    [plugins] as the loop reads them in [h0]: called in a store where they
    read as in [h0], they return or throw leaving a store where they still
    do.  They may change every other object. *)
Definition keeps_entries (call_fn : fid -> val -> heap -> option val * heap) (h0 : heap)
    (plugins : val) (names : list string) : Prop :=
  forall f a h,
    (forall q, In q names -> entry_view h plugins q = entry_view h0 plugins q) ->
    forall q, In q names -> entry_view (call_fn f a h).2 plugins q = entry_view h0 plugins q.

(** ** Plugin tables *)

(** The value [database[c]] when [addFlags] stores under it: nothing yet
    (a falsy value), or an ordinary object other than the database and
    [Object.prototype], whose prototype is [Object.prototype] and whose own
    properties are writable data, as a table the handler created is. *)
Definition plain_table (h : heap) (v : val) (db : loc) : Prop :=
  match v with
  | VObj lp =>
      lp <> db /\ lp <> objproto /\
      exists o, h !! lp = Some o /\ o_proto o = Some objproto /\ data_like o
  | _ => truthy v = false
  end.

(** ** Frames of the read-only methods *)

(** [m] changes no object but [l] and calls no function. *)
Definition writes_only (l : loc) {A} (m : M A) : Prop :=
  forall w r w', m w = (r, w') ->
    (forall l' o, l' <> l -> w_heap w !! l' = Some o -> w_heap w' !! l' = Some o) /\
    w_trace w' = w_trace w.


(** ** What [getFlags] builds *)

(** The plugin tables [getFlags] merges: the command's slot is an object or
    falsy, and every registered plugin's [flags] is an object with no flag
    named ["__proto__"]. *)
Definition flag_tables_okb (h : heap) (plugins : val) : bool :=
  (is_objb h plugins || negb (truthy plugins)) &&
  forallb (fun q => is_objb h (plugin_flags h plugins q) &&
                    negb (existsb (String.eqb "__proto__") (keys_of h (plugin_flags h plugins q))))
          (keys_of h plugins).

(** The last plugin of [qs] whose flags have the key [k]. *)
Fixpoint last_owner (h : heap) (plugins : val) (qs : list string) (k : string) : option string :=
  match qs with
  | [] => None
  | q :: qs' =>
      match last_owner h plugins qs' k with
      | Some q' => Some q'
      | None =>
          if existsb (String.eqb k) (keys_of h (plugin_flags h plugins q)) then Some q else None
      end
  end.

(** The fresh [allFlags] object: a [{}] whose own properties were all
    created by assignment. *)
Definition target (ps : list (string * prop)) : obj := mkObj ps (Some objproto) None true false.

Definition plain_props (ps : list (string * prop)) : Prop :=
  forall k p, In (k, p) ps -> exists v, p = PData v true true.

(** [allFlags[k] = v] on such an object, when [k] is not ["__proto__"]. *)
Definition set_plain (ps : list (string * prop)) (k : string) (v : val) : list (string * prop) :=
  match alookup k ps with
  | Some _ => aupdate k v ps
  | None => ps ++ [(k, PData v true true)]
  end.

(** [Object.assign(allFlags, f)] for the keys [ks] of [f]. *)
Definition copy_keys (h : heap) (f : val) (ks : list string) (ps : list (string * prop))
    : list (string * prop) :=
  fold_left (fun ps k => set_plain ps k (read h f k)) ks ps.

(** The loop of [getFlags] over the plugin names [qs]. *)
Definition combine_all (h : heap) (plugins : val) (qs : list string) (ps : list (string * prop))
    : list (string * prop) :=
  fold_left (fun ps q => copy_keys h (plugin_flags h plugins q)
                           (keys_of h (plugin_flags h plugins q)) ps) qs ps.

(** ** Flag specifications *)

(** [null] and [undefined]: reading a property of either throws. *)
Definition nullish (v : val) : bool :=
  match v with VUndef | VNull => true | _ => false end.

(** Every flag of [flags] has a specification other than [null] and
    [undefined], so that reading its [char] succeeds. *)
Definition specs_okb (h : heap) (flags : val) : bool :=
  forallb (fun k => negb (nullish (read h flags k))) (keys_of h flags).

End Props.

(* ------------------------------------------------------------------ *)
(** * Concrete callers *)
(* ------------------------------------------------------------------ *)

Module Scenarios.
Import JS FlagHandler.

(** The caller's objects: a flags mapping [{ k: { ...spec } }]. *)
Fixpoint alloc_flags (fs : list (string * list (string * val))) : M (list (string * val)) :=
  match fs with
  | [] => ret []
  | (k, spec) :: rest =>
      let* v := alloc_literal spec in
      let* r := alloc_flags rest in
      ret ((k, v) :: r)
  end.

Definition mk_flags (fs : list (string * list (string * val))) : M val :=
  let* kvs := alloc_flags fs in alloc_literal kvs.

(** [{ command, plugin, flags: { ... }, verify }] *)
Definition mk_entry (command plugin : val) (fs : list (string * list (string * val)))
    (verify : val) : M val :=
  let* fl := mk_flags fs in
  alloc_literal [("command", command); ("plugin", plugin); ("flags", fl); ("verify", verify)].

(** A function object whose calls [call_fn f] describes. *)
Definition mk_fn (f : fid) : M val :=
  let* l := alloc (Builtins.builtin_fn f) in ret (VObj l).

Definition res_or {A} (d : A) (r : (exn + A) * world) : A :=
  match r.1 with inr a => a | inl _ => d end.

Definition flag_x : list (string * list (string * val)) := [("x", [("char", VStr "x")])].

(** A handler with one registration of plugin ["a"] for ["run"], and a
    second entry for the same pair, not yet passed to [addFlags]. *)
Definition setup_dup : M (loc * val) :=
  let* db := construct in
  let* e1 := mk_entry (VStr "run") (VStr "a") flag_x VUndef in
  let* _ := addFlags db e1 in
  let* e2 := mk_entry (VStr "run") (VStr "a") [("y", [])] VUndef in
  ret (db, e2).

Definition dup_run := setup_dup Builtins.init_world.
Definition dup_db : loc := (res_or (1%positive, VUndef) dup_run).1.
Definition dup_entry : val := (res_or (1%positive, VUndef) dup_run).2.
Definition dup_world : world := dup_run.2.

(** Runs [m] from the initial store: its completion and its final world. *)
Definition run {A} (m : M A) : (exn + A) * world := m Builtins.init_world.

(** [query = { command: c }] and [{ command: c, flags: f }] *)
Definition mk_query (c : string) : M val := alloc_literal [("command", VStr c)].

Definition keys_of_result (r : val) : M (list string) := js_keys r.


(** C3: a plugin named ["__proto__"] registers flag ["x"] for ["run"]. *)
Definition proto_plugin_flags : M (list string) :=
  let* db := construct in
  let* e1 := mk_entry (VStr "run") (VStr "__proto__") flag_x VUndef in
  let* _ := addFlags db e1 in
  let* q := mk_query "run" in
  let* r := getFlags db q in
  js_keys r.

(** C4: the same (command, plugin) pair registered twice. *)
Definition proto_plugin_twice : M unit :=
  let* db := construct in
  let* e1 := mk_entry (VStr "run") (VStr "__proto__") flag_x VUndef in
  let* _ := addFlags db e1 in
  let* e2 := mk_entry (VStr "run") (VStr "__proto__") [("y", [])] VUndef in
  addFlags db e2.

(** C5: plugins ["b"] then ["1"], each with a verify function. *)
Definition verify_order : M unit :=
  let* db := construct in
  let* f1 := mk_fn 100%positive in
  let* e1 := mk_entry (VStr "run") (VStr "b") [("x", [])] f1 in
  let* _ := addFlags db e1 in
  let* f2 := mk_fn 101%positive in
  let* e2 := mk_entry (VStr "run") (VStr "1") [("y", [])] f2 in
  let* _ := addFlags db e2 in
  let* fl := alloc_literal [] in
  let* q := alloc_literal [("command", VStr "run"); ("flags", fl)] in
  verifyFlags (fun _ _ h => (None, h)) db q.

(** C6: two flags of one call share the alias ["x"]. *)
Definition same_call_alias : M unit :=
  let* db := construct in
  let* e1 := mk_entry (VStr "run") (VStr "a")
               [("a", [("char", VStr "x")]); ("b", [("char", VStr "x")])] VUndef in
  addFlags db e1.

(** C7: the empty command name. *)
Definition empty_command : M (list string) :=
  let* db := construct in
  let* e1 := mk_entry (VStr "") (VStr "a") flag_x VUndef in
  let* _ := addFlags db e1 in
  let* q := mk_query "" in
  let* r := getFlags db q in
  js_keys r.

(** C8: the caller adds a flag to its own flags object after registering it. *)
Definition mutate_after : M (list string) :=
  let* db := construct in
  let* e1 := mk_entry (VStr "run") (VStr "a") flag_x VUndef in
  let* _ := addFlags db e1 in
  let* f := js_get e1 "flags" in
  let* spec := alloc_literal [] in
  let* _ := match f with VObj l => js_set l "z" spec | _ => ret tt end in
  let* q := mk_query "run" in
  let* r := getFlags db q in
  js_keys r.

(** C9: [verifyFlags] with [flags: null]. *)
Definition verify_null_flags : M unit :=
  let* db := construct in
  let* q := alloc_literal [("command", VStr "run"); ("flags", VNull)] in
  verifyFlags (fun _ _ h => (None, h)) db q.

(** C10: command ["__proto__"], plugin ["build"]; then the database's
    ["build"] entry is read, and [getFlags] is asked for ["build"]. *)
Definition proto_command : M (val * val) :=
  let* db := construct in
  let* before := js_get (VObj db) "build" in
  let* e1 := mk_entry (VStr "__proto__") (VStr "build") flag_x VUndef in
  let* _ := addFlags db e1 in
  let* after := js_get (VObj db) "build" in
  ret (before, after).

Definition proto_command_get : M val :=
  let* db := construct in
  let* e1 := mk_entry (VStr "__proto__") (VStr "build") flag_x VUndef in
  let* _ := addFlags db e1 in
  let* q := mk_query "build" in
  getFlags db q.

(** A handler and one object made by [mk] in the world after them. *)
Definition with_obj (mk : M val) : M (loc * val) :=
  let* db := construct in
  let* v := mk in
  ret (db, v).

Definition loc_of (v : val) : loc := match v with VObj l => l | _ => 1%positive end.

Definition setup_db (m : M (loc * val)) : loc := (res_or (1%positive, VUndef) (run m)).1.
Definition setup_obj (m : M (loc * val)) : loc := loc_of (res_or (1%positive, VUndef) (run m)).2.
Definition setup_world (m : M (loc * val)) : world := (run m).2.

(** An entry whose command is the number [1]. *)
Definition numeric_command : M (loc * val) :=
  with_obj (mk_entry (VNum 1) (VStr "a") flag_x VUndef).

(** A query whose command is the number [1]. *)
Definition numeric_query : M (loc * val) :=
  with_obj (alloc_literal [("command", VNum 1)]).


(** Plugin ["a"] registered flag ["x"] (alias ["x"]) for ["run"]; a new entry
    of plugin ["b"] has two flags ["y"] and ["w"] that share the alias ["z"]. *)
Definition shared_alias_setup : M (loc * val) :=
  let* db := construct in
  let* e1 := mk_entry (VStr "run") (VStr "a") flag_x VUndef in
  let* _ := addFlags db e1 in
  let* e2 := mk_entry (VStr "run") (VStr "b")
               [("y", [("char", VStr "z")]); ("w", [("char", VStr "z")])] VUndef in
  ret (db, e2).

(** A fresh handler, and an entry of plugin ["a"] for ["run"] with two
    flags ["a"] and ["b"] that share the alias ["x"]. *)
Definition same_alias_setup : M (loc * val) :=
  with_obj (mk_entry (VStr "run") (VStr "a")
              [("a", [("char", VStr "x")]); ("b", [("char", VStr "x")])] VUndef).

(** Plugins ["b"] then ["1"] registered verify functions 100 and 101 for
    ["run"], and a query for ["run"] with empty flags. *)
Definition verify_setup : M (loc * val) :=
  let* db := construct in
  let* f1 := mk_fn 100%positive in
  let* e1 := mk_entry (VStr "run") (VStr "b") [("x", [])] f1 in
  let* _ := addFlags db e1 in
  let* f2 := mk_fn 101%positive in
  let* e2 := mk_entry (VStr "run") (VStr "1") [("y", [])] f2 in
  let* _ := addFlags db e2 in
  let* fl := alloc_literal [] in
  let* q := alloc_literal [("command", VStr "run"); ("flags", fl)] in
  ret (db, q).

(** Function 101 throws the number [7]; the others return.  None of them
    changes the store. *)
Definition throw_101 (f : fid) (_ : val) (h : heap) : option val * heap :=
  (if Pos.eqb f 101 then Some (VNum 7) else None, h).

(** [arg.seen = true] on an object. *)
Definition mark_props (ps : list (string * prop)) : list (string * prop) :=
  match alookup "seen" ps with
  | Some _ => aupdate "seen" (VBool true) ps
  | None => ps ++ [("seen", PData (VBool true) true true)]
  end.

(** Every function sets [seen] to [true] on the object it receives,
    changing the store; function 100 then throws the number [7], the
    others return. *)
Definition mark_100 (f : fid) (arg : val) (h : heap) : option val * heap :=
  (if Pos.eqb f 100 then Some (VNum 7) else None,
   match arg with
   | VObj g =>
       match h !! g with
       | Some o => <[g := mkObj (mark_props (o_props o)) (o_proto o) (o_call o)
                                (o_ext o) (o_immut_proto o)]> h
       | None => h
       end
   | _ => h
   end).

(** Plugin ["a"] registered flag ["x"] for ["run"]; a new entry of plugin
    ["b"] with flag ["y"]. *)
Definition second_plugin_setup : M (loc * val) :=
  let* db := construct in
  let* e1 := mk_entry (VStr "run") (VStr "a") flag_x VUndef in
  let* _ := addFlags db e1 in
  let* e2 := mk_entry (VStr "run") (VStr "b") [("y", [])] VUndef in
  ret (db, e2).

(** Plugin ["a"] registered flag ["x"] for ["run"], and a query for
    ["build"], which nothing registered, with empty flags. *)
Definition unregistered_setup : M (loc * val) :=
  let* db := construct in
  let* e1 := mk_entry (VStr "run") (VStr "a") flag_x VUndef in
  let* _ := addFlags db e1 in
  let* fl := alloc_literal [] in
  let* q := alloc_literal [("command", VStr "build"); ("flags", fl)] in
  ret (db, q).

(** A new handler and a first entry of plugin ["a"] for ["run"] with flag
    ["x"]. *)
Definition first_entry_setup : M (loc * val) :=
  with_obj (mk_entry (VStr "run") (VStr "a") flag_x VUndef).

(** A new handler and a first entry whose flag ["x"] has the
    specification [undefined]. *)
Definition undefined_spec_setup : M (loc * val) :=
  with_obj (let* fl := alloc_literal [("x", VUndef)] in
            alloc_literal [("command", VStr "run"); ("plugin", VStr "a"); ("flags", fl)]).

End Scenarios.

(* ------------------------------------------------------------------ *)
(** * Proofs *)
(* ------------------------------------------------------------------ *)

Module Facts.
Import JS Props.

Lemma bind_inv {A B} (m : M A) (k : A -> M B) w r w' :
  bind m k w = (r, w') ->
  (exists e, m w = (inl e, w') /\ r = inl e) \/
  (exists a w1, m w = (inr a, w1) /\ k a w1 = (r, w')).
Proof.
  unfold bind. destruct (m w) as [[e|a] w1]; intros H.
  - left. inversion H; subst. eauto.
  - right. eauto.
Qed.

Lemma keeps_refl w : keeps w w.
Proof. split; auto. Qed.

Lemma keeps_trans w1 w2 w3 : keeps w1 w2 -> keeps w2 w3 -> keeps w1 w3.
Proof. intros [H1 T1] [H2 T2]. split; [auto|congruence]. Qed.

Create HintDb pres.
#[local] Hint Resolve keeps_refl keeps_trans : pres.

Lemma Pres_bind {A B} (m : M A) (k : A -> M B) :
  Pres m -> (forall a, Pres (k a)) -> Pres (bind m k).
Proof.
  intros Hm Hk w r w' H. apply bind_inv in H.
  destruct H as [[e [H1 _]] | [a [w1 [H1 H2]]]].
  - eapply Hm; eauto.
  - eapply keeps_trans; [eapply Hm; eauto | eapply Hk; eauto].
Qed.

Lemma Pres_ret {A} (a : A) : Pres (ret a).
Proof. intros w r w' H. inversion H; subst. apply keeps_refl. Qed.

Lemma Pres_throw {A} e : Pres (@throw A e).
Proof. intros w r w' H. inversion H; subst. apply keeps_refl. Qed.

Lemma Pres_get_heap : Pres get_heap.
Proof. intros w r w' H. inversion H; subst. apply keeps_refl. Qed.

Lemma alloc_spec o w r w' :
  alloc o w = (r, w') ->
  exists l, r = inr l /\ w_heap w !! l = None /\
            w_heap w' = <[l := o]> (w_heap w) /\ w_trace w' = w_trace w.
Proof.
  unfold alloc. intros H. inversion H; subst; clear H.
  eexists; repeat split; eauto.
  apply not_elem_of_dom. apply is_fresh.
Qed.

Lemma Pres_alloc o : Pres (alloc o).
Proof.
  intros w r w' H. apply alloc_spec in H as (l & -> & Hl & Hh & Ht).
  split; [|done]. intros l' o' H'. rewrite Hh.
  rewrite lookup_insert_ne; [done|]. intros ->. congruence.
Qed.

Lemma Pres_alloc_literal kvs : Pres (alloc_literal kvs).
Proof. apply Pres_bind; [apply Pres_alloc | intros; apply Pres_ret]. Qed.

Ltac pres_tac :=
  repeat first
    [ apply Pres_bind; [|intro]
    | apply Pres_ret | apply Pres_throw | apply Pres_get_heap
    | apply Pres_alloc | apply Pres_alloc_literal
    | match goal with |- Pres (match ?x with _ => _ end) => destruct x end
    | match goal with |- Pres (if ?x then _ else _) => destruct x end ].

Lemma Pres_js_get v k : Pres (js_get v k).
Proof.
  unfold js_get. pres_tac.
Qed.

Lemma Pres_js_keys v : Pres (js_keys v).
Proof. unfold js_keys. pres_tac. Qed.

Lemma Pres_js_in k v : Pres (js_in k v).
Proof. unfold js_in. pres_tac. Qed.

Ltac pres_step :=
  first
    [ apply Pres_bind; [|intro]
    | apply Pres_ret | apply Pres_throw | apply Pres_get_heap
    | apply Pres_alloc | apply Pres_alloc_literal
    | apply Pres_js_get | apply Pres_js_keys | apply Pres_js_in
    | match goal with |- Pres (match ?x with _ => _ end) => destruct x end
    | match goal with |- Pres (if ?x then _ else _) => destruct x end ].

Lemma Pres_or_empty v : Pres (FlagHandler.or_empty v).
Proof. unfold FlagHandler.or_empty. repeat pres_step. Qed.

Lemma Pres_default_obj v : Pres (FlagHandler.default_obj v).
Proof. unfold FlagHandler.default_obj. repeat pres_step. Qed.

Lemma Pres_check_alias c p nf pn ch pf ks m :
  Pres (FlagHandler.check_alias c p nf pn ch pf ks m).
Proof.
  revert m. induction ks as [|k ks IH]; intros m; simpl; repeat pres_step; apply IH.
Qed.

Lemma Pres_check_plugins c p pl nf ch ns m :
  Pres (FlagHandler.check_plugins c p pl nf ch ns m).
Proof.
  revert m. induction ns as [|n ns IH]; intros m; simpl;
    repeat (pres_step || apply Pres_or_empty || apply Pres_check_alias); apply IH.
Qed.

Lemma Pres_check_new_flags c p pl ns f ks m :
  Pres (FlagHandler.check_new_flags c p pl ns f ks m).
Proof.
  revert m. induction ks as [|k ks IH]; intros m; simpl;
    repeat (pres_step || apply Pres_check_plugins); apply IH.
Qed.

Lemma Pres_checkFlagConflict db c p f : Pres (FlagHandler.checkFlagConflict db c p f).
Proof.
  unfold FlagHandler.checkFlagConflict.
  repeat (pres_step || apply Pres_or_empty || apply Pres_check_new_flags).
Qed.

Lemma Pres_check_verify v : Pres (FlagHandler.check_verify v).
Proof. unfold FlagHandler.check_verify. repeat pres_step. Qed.

(** Reads leave the world as it is. *)
Lemma js_get_spec v k w r w' :
  js_get v k w = (r, w') -> w' = w.
Proof.
  unfold js_get, bind, get_heap, ret, throw. destruct v; simpl;
    repeat case_match; intros Hr; inversion Hr; auto.
Qed.

Lemma js_get_obj l k w :
  js_get (VObj l) k w = (inr (get_from (w_heap w) l k (VObj l)), w).
Proof. reflexivity. Qed.

(** A failed write changes nothing; a write to [l] changes only [l]. *)
Ltac write_tac :=
  repeat case_match; intros Hr; inversion Hr; subst; clear Hr; simpl;
  (split; [intros ? ?; first [reflexivity | rewrite lookup_insert_ne; auto]
          |split; [auto|intros ? He; inversion He; auto]]).

Lemma set_proto_spec l np w r w' :
  set_proto l np w = (r, w') ->
  (forall l', l' <> l -> w_heap w' !! l' = w_heap w !! l') /\ w_trace w' = w_trace w /\
  (forall e, r = inl e -> w' = w).
Proof. unfold set_proto, bind, get_heap, put_obj, throw, ret; simpl. write_tac. Qed.

Lemma js_set_spec l k v w r w' :
  js_set l k v w = (r, w') ->
  (forall l', l' <> l -> w_heap w' !! l' = w_heap w !! l') /\ w_trace w' = w_trace w /\
  (forall e, r = inl e -> w' = w).
Proof.
  unfold js_set, bind, get_heap, put_obj, throw, ret; simpl.
  repeat case_match; try (apply set_proto_spec); write_tac.
Qed.

Lemma js_set_val_spec t k v w r w' :
  js_set_val t k v w = (r, w') ->
  (forall l', t <> VObj l' -> w_heap w' !! l' = w_heap w !! l') /\ w_trace w' = w_trace w /\
  (forall e, r = inl e -> w' = w).
Proof.
  destruct t as [| | | | |l].
  6:{ intros H. change (js_set l k v w = (r, w')) in H.
      apply js_set_spec in H as (H1 & H2 & H3). repeat split; auto.
      intros l' Hl. apply H1. congruence. }
  all: unfold js_set_val, bind, get_heap, throw, ret; simpl; repeat case_match;
    intros Hr; inversion Hr; subst; repeat split; auto; intros ? He; inversion He.
Qed.

(** ** Association lists and chains *)

Lemma alookup_In k ps p : alookup k ps = Some p -> In (k, p) ps.
Proof.
  induction ps as [|[k' p'] ps IH]; simpl; [discriminate|].
  destruct (String.eqb_spec k k'); [intros H; inversion H; subst; auto|auto].
Qed.

Lemma alookup_app_Some k ps qs p :
  alookup k ps = Some p -> alookup k (ps ++ qs) = Some p.
Proof.
  induction ps as [|[k' p'] ps IH]; simpl; [discriminate|].
  destruct (String.eqb k k'); auto.
Qed.

Lemma alookup_aupdate_ne k k' v ps :
  k <> k' -> alookup k (aupdate k' v ps) = alookup k ps.
Proof.
  intros Hne. induction ps as [|[k2 p2] ps IH]; simpl; [done|].
  destruct (String.eqb_spec k' k2) as [->|Hk].
  - destruct p2; simpl; destruct (String.eqb_spec k k2); congruence.
  - simpl. destruct (String.eqb k k2); auto.
Qed.

Lemma In_aupdate k q k' v ps :
  In (k, q) (aupdate k' v ps) ->
  In (k, q) ps \/
  (k = k' /\ exists v0 wr en, In (k, PData v0 wr en) ps /\ q = PData v wr en).
Proof.
  induction ps as [|[k2 p2] ps IH]; simpl; [tauto|].
  destruct (String.eqb_spec k' k2) as [->|Hne].
  - destruct p2 as [v2 wr en|]; simpl; [|tauto].
    intros [H|H]; [inversion H; subst; right; split; eauto 6|tauto].
  - simpl. intros [H|H]; [tauto|]. destruct (IH H) as [H'|(Hk&v0&wr&en&H1&H2)]; [tauto|].
    right; split; eauto 6.
Qed.

Lemma size_ge1 (h : heap) a oa : h !! a = Some oa -> 1 <= map_size h.
Proof.
  intros Ha. change (1 <= size h).
  destruct (size h) eqn:E; [|lia].
  apply map_size_empty_inv in E. subst. rewrite lookup_empty in Ha. discriminate.
Qed.

Lemma size_ge2 (h : heap) a b oa ob :
  a <> b -> h !! a = Some oa -> h !! b = Some ob -> 2 <= map_size h.
Proof.
  intros Hab Ha Hb. change (2 <= size h).
  assert (Hd : size (delete a h) = pred (size h)).
  { apply map_size_delete_Some. rewrite Ha. eauto. }
  assert (1 <= size (delete a h)).
  { apply (size_ge1 _ b ob). rewrite lookup_delete_ne; auto. }
  rewrite Hd in H. lia.
Qed.

Lemma find_prop_chain2 h n a oa b ob k :
  h !! a = Some oa -> o_proto oa = Some b -> h !! b = Some ob -> o_proto ob = None ->
  2 <= n ->
  find_prop h n a k =
    match alookup k (o_props oa) with
    | Some p => Some (a, p)
    | None => match alookup k (o_props ob) with Some p => Some (b, p) | None => None end
    end.
Proof.
  intros Ha Hpa Hb Hpb Hn. destruct n as [|[|n]]; [lia|lia|].
  simpl. rewrite Ha, Hpa, Hb, Hpb. destruct (alookup k (o_props oa)); [done|].
  destruct (alookup k (o_props ob)); done.
Qed.

Lemma find_prop_chain3 h n a oa b ob c oc k :
  h !! a = Some oa -> o_proto oa = Some b -> h !! b = Some ob -> o_proto ob = Some c ->
  h !! c = Some oc -> o_proto oc = None -> 3 <= n ->
  find_prop h n a k =
    match alookup k (o_props oa) with
    | Some p => Some (a, p)
    | None =>
        match alookup k (o_props ob) with
        | Some p => Some (b, p)
        | None => match alookup k (o_props oc) with Some p => Some (c, p) | None => None end
        end
    end.
Proof.
  intros Ha Hpa Hb Hpb Hc Hpc Hn. destruct n as [|[|[|n]]]; [lia|lia|lia|].
  simpl. rewrite Ha, Hpa, Hb, Hpb, Hc, Hpc.
  destruct (alookup k (o_props oa)); [done|].
  destruct (alookup k (o_props ob)); [done|].
  destruct (alookup k (o_props oc)); done.
Qed.

(** A write succeeds when the property found is writable data, absent, or
    the ["__proto__"] accessor asked to keep the current prototype. *)
Lemma js_set_success l o k v w :
  w_heap w !! l = Some o -> o_ext o = true ->
  match find_prop (w_heap w) (fuel (w_heap w)) l k with
  | Some (_, PData _ wr _) => wr = true
  | Some (_, PProtoAccessor) => exists q, v = VObj q /\ o_proto o = Some q
  | None => True
  end ->
  exists w', js_set l k v w = (inr tt, w').
Proof.
  intros Hl Hext Hf. unfold js_set, bind, get_heap. cbn beta iota. rewrite Hl.
  destruct (find_prop (w_heap w) (fuel (w_heap w)) l k) as [[l' [v' wr en|]]|].
  - subst wr. cbn beta iota. rewrite Hext.
    destruct (Pos.eqb l' l); unfold put_obj; eexists; reflexivity.
  - destruct Hf as (q & -> & Hq). unfold set_proto, bind, get_heap. cbn beta iota.
    rewrite Hl, Hq. unfold opt_loc_eqb. rewrite Pos.eqb_refl. eexists; reflexivity.
  - rewrite Hext. unfold put_obj. eexists; reflexivity.
Qed.

Lemma alloc_literal_spec kvs w r w' :
  alloc_literal kvs w = (r, w') ->
  exists l, r = inr (VObj l) /\ w_heap w !! l = None /\
            w_heap w' = <[l := literal kvs]> (w_heap w) /\ w_trace w' = w_trace w.
Proof.
  unfold alloc_literal, bind. destruct (alloc (literal kvs) w) as [r0 w0] eqn:E.
  apply alloc_spec in E as (l & -> & H1 & H2 & H3). unfold ret. intros H; inversion H; subst.
  eauto.
Qed.

(** ** Shapes of the database object and of [Object.prototype] *)

Lemma writable_inv v wr en : writable_prop (PData v wr en) -> wr = true.
Proof. intros (v' & en' & E). inversion E. reflexivity. Qed.

Lemma data_like_lookup o k q :
  data_like o -> alookup k (o_props o) = Some q -> writable_prop q.
Proof. intros Hd Hk. eapply Hd, alookup_In; eauto. Qed.

Lemma proto_like_lookup o k q :
  proto_like o -> alookup k (o_props o) = Some q ->
  (q = PProtoAccessor /\ k = "__proto__") \/ writable_prop q.
Proof.
  intros [Hp Hall] Hk. destruct (Hall _ _ (alookup_In _ _ _ Hk)) as [->|W]; [|auto].
  left. rewrite Hp in Hk. inversion Hk. auto.
Qed.

Lemma literal_data_like kvs : data_like (literal kvs).
Proof.
  intros k p Hin. simpl in Hin. apply in_map_iff in Hin as ([k' v] & E & _).
  inversion E. do 2 eexists. reflexivity.
Qed.

Lemma data_like_aupdate ps k v props call ext im pr :
  data_like (mkObj ps pr call ext im) -> data_like (mkObj (aupdate k v ps) props call ext im).
Proof.
  intros Hd k' q Hin. simpl in Hin. apply In_aupdate in Hin as [Hin|(-> & v0 & wr & en & Hin & ->)].
  - exact (Hd _ _ Hin).
  - apply Hd, writable_inv in Hin. subst. do 2 eexists. reflexivity.
Qed.

Lemma data_like_app ps k v props call ext im pr :
  data_like (mkObj ps pr call ext im) ->
  data_like (mkObj (ps ++ [(k, PData v true true)]) props call ext im).
Proof.
  intros Hd k' q Hin. simpl in Hin. apply in_app_or in Hin as [Hin|[E|[]]].
  - exact (Hd _ _ Hin).
  - inversion E. do 2 eexists. reflexivity.
Qed.

Lemma data_like_props ps call ext im pr pr' call' ext' im' :
  data_like (mkObj ps pr call ext im) -> data_like (mkObj ps pr' call' ext' im').
Proof. intros Hd k q Hin. exact (Hd k q Hin). Qed.

(** On a chain that ends in [objproto], ["__proto__"] reads the prototype. *)
Lemma get_db_proto h db : handler_ok h db -> get_from h db "__proto__" (VObj db) = VObj objproto.
Proof.
  intros (Hne & (od & Hd & Hpd & _ & _ & Hnone & _) & (op & Hp & Hpp & [Hacc _])).
  unfold get_from. rewrite (find_prop_chain2 h (fuel h) db od objproto op "__proto__" Hd Hpd Hp Hpp).
  - rewrite Hnone, Hacc. simpl. rewrite Hd, Hpd. reflexivity.
  - unfold fuel. pose proof (size_ge1 h _ _ Hd). lia.
Qed.

Lemma handler_ok_keeps w w' db : keeps w w' -> handler_ok (w_heap w) db -> handler_ok (w_heap w') db.
Proof.
  intros [Hk _] (Hne & (od & Hd & R1) & (op & Hp & R2)).
  split; [done|]. split; [exists od; split; [auto|exact R1]|exists op; split; [auto|exact R2]].
Qed.

(** A chain of prototypes [ct -> objproto -> null] never reaches [db]. *)
Lemma reaches_literal h n ct kvs db op :
  h !! ct = Some (literal kvs) -> h !! objproto = Some op -> o_proto op = None ->
  ct <> db -> db <> objproto -> reaches h n (Some ct) db = false.
Proof.
  intros Hct Hp Hpp H1 H2. destruct n as [|n]; [reflexivity|].
  cbn [reaches]. rewrite (proj2 (Pos.eqb_neq _ _) H1), Hct.
  destruct n as [|n]; [reflexivity|]. cbn [reaches literal o_proto].
  rewrite (proj2 (Pos.eqb_neq objproto db) (not_eq_sym H2)), Hp, Hpp.
  destruct n; reflexivity.
Qed.

(** The write [plugins[pluginName] = contrib] when [plugins] is
    [Object.prototype]: it succeeds only by adding or updating a writable
    data property, since the prototype of [Object.prototype] cannot be set. *)
Lemma write_objproto w w' p ct kvs op :
  w_heap w !! objproto = Some op -> o_proto op = None -> proto_like op ->
  w_heap w !! ct = Some (literal kvs) -> ct <> objproto ->
  js_set objproto p (VObj ct) w = (inr tt, w') ->
  exists op', w_heap w' !! objproto = Some op' /\ o_proto op' = None /\ proto_like op'.
Proof.
  intros Hop Hpn Hpl Hct Hne H.
  assert (Hf : find_prop (w_heap w) (fuel (w_heap w)) objproto p =
               match alookup p (o_props op) with Some q => Some (objproto, q) | None => None end).
  { unfold fuel. simpl. rewrite Hop. destruct (alookup p (o_props op)); [done|]. rewrite Hpn. done. }
  unfold js_set, bind, get_heap in H. cbn beta iota in H. rewrite Hop, Hf in H.
  destruct (alookup p (o_props op)) as [q|] eqn:Hq.
  - destruct (proto_like_lookup _ _ _ Hpl Hq) as [[-> ->]|(v0 & en & ->)].
    + unfold set_proto, bind, get_heap in H. cbn beta iota in H. rewrite Hop, Hpn in H.
      change (opt_loc_eqb None (Some ct)) with false in H. cbn beta iota in H.
      destruct (o_immut_proto op || negb (o_ext op)); [discriminate|].
      assert (Hr : reaches (w_heap w) (fuel (w_heap w)) (Some ct) objproto = true).
      { unfold fuel. pose proof (size_ge1 _ _ _ Hop).
        destruct (map_size (w_heap w)) as [|n]; [lia|]. cbn [reaches].
        rewrite (proj2 (Pos.eqb_neq _ _) Hne), Hct. cbn [reaches literal o_proto].
        rewrite Pos.eqb_refl. reflexivity. }
      rewrite Hr in H. discriminate.
    + cbn in H. unfold put_obj in H. inversion H; subst; clear H. simpl.
      eexists; split; [apply lookup_insert_eq|]. simpl. split; [exact Hpn|].
      destruct Hpl as [Hacc Hall].
      assert (Hpk : p <> "__proto__") by (intros ->; congruence).
      unfold proto_like; simpl. split; [rewrite alookup_aupdate_ne; auto|].
      intros k q Hin. apply In_aupdate in Hin as [Hin|(-> & v1 & wr & en1 & Hin & ->)]; [auto|].
      right. destruct (Hall _ _ Hin) as [E|W]; [congruence|].
      apply writable_inv in W. subst. do 2 eexists. reflexivity.
  - destruct (o_ext op); [|discriminate]. unfold put_obj in H. inversion H; subst; clear H.
    simpl. eexists; split; [apply lookup_insert_eq|]. simpl. split; [exact Hpn|].
    destruct Hpl as [Hacc Hall]. unfold proto_like; simpl. split; [apply alookup_app_Some; auto|].
    intros k q Hin. apply in_app_or in Hin as [Hin|[E|[]]]; [auto|].
    inversion E. right. do 2 eexists. reflexivity.
Qed.

(** The write [plugins[pluginName] = contrib] when [plugins] is the
    database itself: it adds or updates a writable data property, or sets
    the database's prototype to [contrib]. *)
Lemma write_db w w' db p ct kvs od op :
  w_heap w !! db = Some od -> o_proto od = Some objproto -> o_ext od = true ->
  o_immut_proto od = false -> data_like od ->
  w_heap w !! objproto = Some op -> o_proto op = None -> proto_like op ->
  w_heap w !! ct = Some (literal kvs) -> ct <> db -> ct <> objproto -> db <> objproto ->
  js_set db p (VObj ct) w = (inr tt, w') ->
  exists od', w_heap w' !! db = Some od' /\ o_ext od' = true /\ data_like od' /\
              (o_proto od' = Some objproto \/ o_proto od' = Some ct).
Proof.
  intros Hd Hpd Hext Him Hdl Hop Hpn Hpl Hct Hcd Hco Hdo H.
  pose proof (size_ge1 _ _ _ Hd) as Hs.
  unfold js_set, bind, get_heap in H. cbn beta iota in H. rewrite Hd in H.
  rewrite (find_prop_chain2 _ _ db od objproto op p Hd Hpd Hop Hpn) in H
    by (unfold fuel; lia).
  destruct od as [ps pr call ext im]; simpl in Hpd, Hext, Him; subst pr ext im.
  cbn [o_props o_proto o_call o_ext o_immut_proto] in H.
  destruct (alookup p ps) as [q|] eqn:Hq.
  - destruct (data_like_lookup _ _ _ Hdl Hq) as (v0 & en & ->).
    cbn beta iota in H. rewrite Pos.eqb_refl in H. unfold put_obj in H.
    inversion H; subst; clear H. simpl. eexists; split; [apply lookup_insert_eq|].
    simpl. split; [done|]. split; [eapply data_like_aupdate; eauto|auto].
  - destruct (alookup p (o_props op)) as [q|] eqn:Hq2.
    + destruct (proto_like_lookup _ _ _ Hpl Hq2) as [[-> ->]|(v0 & en & ->)].
      * unfold set_proto, bind, get_heap in H. cbn beta iota in H. rewrite Hd in H.
        cbn [o_props o_proto o_call o_ext o_immut_proto orb negb opt_loc_eqb] in H.
        rewrite (proj2 (Pos.eqb_neq objproto ct) (not_eq_sym Hco)) in H.
        cbn beta iota in H.
        rewrite (reaches_literal _ _ ct kvs db op Hct Hop Hpn Hcd Hdo) in H.
        unfold put_obj in H. inversion H; subst; clear H. simpl.
        eexists; split; [apply lookup_insert_eq|]. simpl. split; [done|].
        split; [eapply data_like_props; eauto|auto].
      * cbn beta iota in H. rewrite (proj2 (Pos.eqb_neq objproto db) (not_eq_sym Hdo)) in H.
        simpl in H. unfold put_obj in H. inversion H; subst; clear H. simpl.
        eexists; split; [apply lookup_insert_eq|]. simpl. split; [done|].
        split; [eapply data_like_app; eauto|auto].
    + cbn beta iota in H. unfold put_obj in H. inversion H; subst; clear H. simpl.
      eexists; split; [apply lookup_insert_eq|]. simpl. split; [done|].
      split; [eapply data_like_app; eauto|auto].
Qed.

(** The write [this._database[commandName] = plugins] succeeds on a
    database of the right shape. *)
Lemma write_db_ok w db c v od op :
  w_heap w !! db = Some od -> o_ext od = true -> data_like od ->
  w_heap w !! objproto = Some op -> o_proto op = None -> proto_like op -> db <> objproto ->
  (o_proto od = Some objproto \/
   exists ct kvs, o_proto od = Some ct /\ w_heap w !! ct = Some (literal kvs) /\
                  ct <> db /\ ct <> objproto) ->
  (c = "__proto__" -> v = VObj objproto /\ o_proto od = Some objproto) ->
  exists w', js_set db c v w = (inr tt, w').
Proof.
  intros Hd Hext Hdl Hop Hpn Hpl Hdo Hpr Hacc.
  apply (js_set_success db od); [done|done|].
  pose proof (size_ge1 _ _ _ Hd) as Hs.
  destruct Hpr as [Hpd | (ct & kvs & Hpd & Hct & Hcd & Hco)].
  - rewrite (find_prop_chain2 _ _ db od objproto op c Hd Hpd Hop Hpn) by (unfold fuel; lia).
    destruct (alookup c (o_props od)) as [q|] eqn:Hq.
    + destruct (data_like_lookup _ _ _ Hdl Hq) as (v0 & en & ->). reflexivity.
    + destruct (alookup c (o_props op)) as [q|] eqn:Hq2; [|done].
      destruct (proto_like_lookup _ _ _ Hpl Hq2) as [[-> ->]|(v0 & en & ->)]; [|reflexivity].
      destruct (Hacc eq_refl) as [-> E]. eauto.
  - pose proof (size_ge2 _ _ _ _ _ Hcd Hct Hd) as Hs2.
    rewrite (find_prop_chain3 _ _ db od ct (literal kvs) objproto op c Hd Hpd Hct eq_refl Hop Hpn)
      by (unfold fuel; lia).
    destruct (alookup c (o_props od)) as [q|] eqn:Hq.
    + destruct (data_like_lookup _ _ _ Hdl Hq) as (v0 & en & ->). reflexivity.
    + destruct (alookup c (o_props (literal kvs))) as [q|] eqn:Hq1.
      { destruct (data_like_lookup _ _ _ (literal_data_like kvs) Hq1) as (v0 & en & ->).
        reflexivity. }
      destruct (alookup c (o_props op)) as [q|] eqn:Hq2; [|done].
      destruct (proto_like_lookup _ _ _ Hpl Hq2) as [[-> ->]|(v0 & en & ->)]; [|reflexivity].
      destruct (Hacc eq_refl) as [_ E]. congruence.
Qed.

(** [Object.assign(target, {})] reads no key and writes nothing. *)
Lemma assign_empty w l s :
  w_heap w !! s = Some (literal []) -> js_assign l (VObj s) w = (inr (VObj l), w).
Proof.
  intros Hs. unfold js_assign, js_keys, bind, get_heap. cbn beta iota. rewrite Hs. reflexivity.
Qed.

Lemma or_empty_obj l w : FlagHandler.or_empty (VObj l) w = (inr (VObj l), w).
Proof. reflexivity. Qed.

Lemma in_heap_ne (h : heap) a b o : h !! a = None -> h !! b = Some o -> a <> b.
Proof. intros Ha Hb ->. congruence. Qed.

(** The store step (lines 79-86), when it throws, leaves every existing
    object as it was: the only write that may fail after another has
    succeeded is [this._database[commandName] = plugins], and on a database
    of the right shape it does not fail. *)
Lemma store_flags_fail db c p nf nv w e w' :
  handler_ok (w_heap w) db ->
  FlagHandler.store_flags db c p nf nv w = (inl e, w') -> keeps w w'.
Proof.
  intros Hok H. unfold FlagHandler.store_flags in H.
  apply bind_inv in H as [[e1 [H1 _]]|[d [w1 [H1 H]]]]; [eapply Pres_js_get; eauto|].
  rewrite js_get_obj in H1. inversion H1; subst d w1; clear H1.
  apply bind_inv in H as [[e1 [H1 _]]|[plugins [w2 [H2 H]]]]; [eapply Pres_or_empty; eauto|].
  pose proof (Pres_or_empty _ _ _ _ H2) as Hk2.
  assert (Hpl : c = "__proto__" -> plugins = VObj objproto).
  { intros ->. rewrite (get_db_proto _ _ Hok), or_empty_obj in H2. inversion H2. auto. }
  clear H2.
  apply bind_inv in H as [[e1 [H1 _]]|[src [w3 [H3 H]]]].
  { eapply keeps_trans; [exact Hk2|eapply Pres_alloc_literal; eauto]. }
  pose proof (keeps_trans _ _ _ Hk2 (Pres_alloc_literal _ _ _ _ H3)) as Hk3.
  apply alloc_literal_spec in H3 as (s & Es & _ & Hh3 & _). injection Es as ->.
  assert (Hs : w_heap w3 !! s = Some (literal [])) by (rewrite Hh3; apply lookup_insert_eq).
  apply bind_inv in H as [[e1 [H1 _]]|[copied [w4 [H4 H]]]].
  { destruct nf; try (inversion H1; subst; exact Hk3).
    rewrite assign_empty in H1 by exact Hs. discriminate. }
  assert (Hw4 : w4 = w3).
  { destruct nf; try discriminate. rewrite assign_empty in H4 by exact Hs.
    inversion H4; auto. }
  subst w4. clear H4.
  apply bind_inv in H as [[e1 [H1 _]]|[contrib [w5 [H5 H]]]].
  { eapply keeps_trans; [exact Hk3|eapply Pres_alloc_literal; eauto]. }
  pose proof (keeps_trans _ _ _ Hk3 (Pres_alloc_literal _ _ _ _ H5)) as Hk5.
  apply alloc_literal_spec in H5 as (ct & Ec & Hct0 & Hh5 & _). injection Ec as ->.
  pose proof (handler_ok_keeps _ _ _ Hk3 Hok) as Hok3.
  pose proof (handler_ok_keeps _ _ _ Hk5 Hok) as Hok5.
  assert (Hct : w_heap w5 !! ct = Some (literal [("flags", copied); ("verify", nv)]))
    by (rewrite Hh5; apply lookup_insert_eq).
  destruct Hok3 as (_ & (od3 & Hd3 & _) & (op3 & Hop3 & _)).
  pose proof (in_heap_ne _ _ _ _ Hct0 Hd3) as Hcd.
  pose proof (in_heap_ne _ _ _ _ Hct0 Hop3) as Hco.
  apply bind_inv in H as [[e1 [H1 _]]|[u [w6 [H6 H]]]].
  { apply js_set_val_spec in H1 as (_ & _ & H3). rewrite (H3 _ eq_refl). exact Hk5. }
  exfalso.
  destruct Hok5 as (Hdo & (od & Hd & Hpd & Hext & Him & Hnone & Hdl) & (op & Hop & Hpn & Hpp)).
  destruct (js_set_val_spec _ _ _ _ _ _ H6) as (Hfr & _ & _).
  assert (Hok6 : forall od' op',
            w_heap w6 !! db = Some od' -> o_ext od' = true -> data_like od' ->
            w_heap w6 !! objproto = Some op' -> o_proto op' = None -> proto_like op' ->
            (o_proto od' = Some objproto \/
             exists ct kvs, o_proto od' = Some ct /\ w_heap w6 !! ct = Some (literal kvs) /\
                            ct <> db /\ ct <> objproto) ->
            (c = "__proto__" -> plugins = VObj objproto /\ o_proto od' = Some objproto) ->
            False).
  { intros od' op' H1 H2 H3 H4 H5 H6' H7 H8.
    destruct (write_db_ok w6 db c plugins od' op' H1 H2 H3 H4 H5 H6' Hdo H7 H8) as [w7 H9].
    congruence. }
  destruct plugins as [| | | | |l]; try (inversion H6; fail).
  1-3: apply (Hok6 od op); [rewrite Hfr; [exact Hd|discriminate]|auto|auto
                           |rewrite Hfr; [exact Hop|discriminate]|auto|auto|auto|].
  1-3: intros Hc; specialize (Hpl Hc); discriminate.
  change (js_set l p (VObj ct) w5 = (inr u, w6)) in H6. destruct u.
  destruct (decide (l = objproto)) as [->|Hlo]; [|destruct (decide (l = db)) as [->|Hld]].
  - destruct (write_objproto _ _ _ _ _ _ Hop Hpn Hpp Hct Hco H6) as (op' & H1 & H2 & H3).
    apply (Hok6 od op'); auto.
    + rewrite Hfr; [exact Hd|]. intros E; inversion E; auto.
  - destruct (write_db _ _ _ _ _ _ _ _ Hd Hpd Hext Him Hdl Hop Hpn Hpp Hct Hcd Hco Hdo H6)
      as (od' & H1 & H2 & H3 & H4).
    apply (Hok6 od' op); auto.
    + rewrite Hfr; [exact Hop|]. intros E; inversion E; auto.
    + destruct H4 as [H4|H4]; [left; exact H4|right].
      exists ct, [("flags", copied); ("verify", nv)]. split; [exact H4|].
      split; [|auto]. rewrite Hfr; [exact Hct|]. intros E; inversion E; auto.
    + intros Hc. specialize (Hpl Hc). inversion Hpl. congruence.
  - apply (Hok6 od op); auto.
    all: first [ rewrite Hfr; [eassumption|intros E; inversion E; auto]
               | intros Hc; specialize (Hpl Hc); inversion Hpl; congruence ].
Qed.

(** ** Failures of [addFlags] *)

Lemma PresFail_Pres P {A} (m : M A) : Pres m -> PresFail P m.
Proof. intros Hm w e w' _ H. eapply Hm; eauto. Qed.

Lemma PresFail_bind P {A B} (m : M A) (k : A -> M B) :
  (forall w w', keeps w w' -> P w -> P w') ->
  Pres m -> (forall a, PresFail P (k a)) -> PresFail P (bind m k).
Proof.
  intros HP Hm Hk w e w' Hw H. apply bind_inv in H as [[e1 [H1 _]]|[a [w1 [H1 H2]]]].
  - eapply Hm; eauto.
  - pose proof (Hm _ _ _ H1) as Hk1. eapply keeps_trans; [exact Hk1|]. eapply Hk; eauto.
Qed.

Lemma addFlags_fail db arg :
  PresFail (fun w => handler_ok (w_heap w) db) (FlagHandler.addFlags db arg).
Proof.
  assert (HP : forall w w', keeps w w' ->
                 handler_ok (w_heap w) db -> handler_ok (w_heap w') db)
    by (intros; eapply handler_ok_keeps; eauto).
  unfold FlagHandler.addFlags.
  repeat first
    [ match goal with |- PresFail _ (FlagHandler.store_flags _ _ _ _ _) =>
        let w := fresh "w" in let e := fresh "e" in let w' := fresh "w'" in
        intros w e w' ? ?; eapply store_flags_fail; eauto end
    | apply (PresFail_bind _ _ _ HP); [first [ apply Pres_default_obj | apply Pres_get_heap
                                           | apply Pres_js_get | apply Pres_check_verify
                                           | apply Pres_checkFlagConflict ]|intro]
    | apply PresFail_Pres; apply Pres_throw
    | match goal with |- PresFail _ (match ?x with _ => _ end) => destruct x end
    | match goal with |- PresFail _ (if ?x then _ else _) => destruct x end ].
Qed.

Lemma handler_okb_sound h db : handler_okb h db = true -> handler_ok h db.
Proof.
  unfold handler_okb. intros H.
  destruct (h !! db) as [od|] eqn:Hd; [|rewrite andb_false_r in H; discriminate].
  destruct (h !! objproto) as [op|] eqn:Hp; [|rewrite andb_false_r in H; discriminate].
  apply andb_true_iff in H as [H Hop]. apply andb_true_iff in H as [H0 Hod].
  apply negb_true_iff, Pos.eqb_neq in H0.
  apply andb_true_iff in Hod as [Hod Hdl]. apply andb_true_iff in Hod as [Hod Hno].
  apply andb_true_iff in Hod as [Hod Him]. apply andb_true_iff in Hod as [Hpr Hext].
  apply andb_true_iff in Hop as [Hpn Hpl].
  split; [exact H0|]. split.
  - exists od. split; [done|].
    destruct (o_proto od) as [q|] eqn:E; [|discriminate]. apply Pos.eqb_eq in Hpr. subst q.
    split; [done|]. split; [done|]. split; [apply negb_true_iff; done|].
    split; [destruct (alookup "__proto__" (o_props od)); done|].
    intros k q Hin. unfold data_likeb in Hdl. rewrite forallb_forall in Hdl.
    specialize (Hdl _ Hin). simpl in Hdl.
    destruct q as [v [] en|]; try discriminate. do 2 eexists; reflexivity.
  - exists op. split; [done|]. split; [destruct (o_proto op); done|].
    unfold proto_likeb in Hpl. apply andb_true_iff in Hpl as [H4 H5]. split.
    + destruct (alookup "__proto__" (o_props op)) as [[]|]; done.
    + intros k q Hin. rewrite forallb_forall in H5. specialize (H5 _ Hin). simpl in H5.
      apply orb_true_iff in H5 as [H5|H5]; [left; apply String.eqb_eq; done|right].
      destruct q as [v [] en|]; try discriminate. do 2 eexists; reflexivity.
Qed.

Lemma proto_likeb_sound o : proto_likeb o = true -> proto_like o.
Proof.
  unfold proto_likeb. intros Hpl. apply andb_true_iff in Hpl as [H4 H5]. split.
  - destruct (alookup "__proto__" (o_props o)) as [[]|]; done.
  - intros k q Hin. rewrite forallb_forall in H5. specialize (H5 _ Hin). simpl in H5.
    apply orb_true_iff in H5 as [H5|H5]; [left; apply String.eqb_eq; done|right].
    destruct q as [v [] en|]; try discriminate. do 2 eexists; reflexivity.
Qed.

(** ** Stepping through the methods *)

Lemma bind_step {A B} (m : M A) (k : A -> M B) w a w1 :
  m w = (inr a, w1) -> bind m k w = k a w1.
Proof. intros H. unfold bind. rewrite H. reflexivity. Qed.

Lemma bind_fail {A B} (m : M A) (k : A -> M B) w e w1 :
  m w = (inl e, w1) -> bind m k w = (inl e, w1).
Proof. intros H. unfold bind. rewrite H. reflexivity. Qed.

Lemma read_obj h l k : read h (VObj l) k = get_from h l k (VObj l).
Proof. reflexivity. Qed.

Lemma js_get_read h l k w : w_heap w = h -> js_get (VObj l) k w = (inr (read h (VObj l) k), w).
Proof. intros <-. reflexivity. Qed.

Lemma get_heap_step w : get_heap w = (inr (w_heap w), w).
Proof. reflexivity. Qed.

Lemma eqb_object : String.eqb "object" "object" = true.
Proof. reflexivity. Qed.

Lemma eqb_function : String.eqb "function" "function" = true.
Proof. reflexivity. Qed.

Lemma default_obj_step l w : FlagHandler.default_obj (VObj l) w = (inr (VObj l), w).
Proof. reflexivity. Qed.

Lemma check_verify_ok h v w :
  w_heap w = h -> verify_ok h v -> FlagHandler.check_verify v w = (inr (new_verify v), w).
Proof.
  intros <- [->|[->|Hf]]; [reflexivity|reflexivity|].
  unfold FlagHandler.check_verify. rewrite (bind_step _ _ _ _ _ (get_heap_step w)).
  rewrite Hf, eqb_function.
  destruct v; try reflexivity; discriminate.
Qed.

Lemma check_verify_bad h v w :
  w_heap w = h -> ~ verify_ok h v ->
  FlagHandler.check_verify v w =
  (inl (EError "FlagHandler addFlags: 'newEntry.verify' is not a 'function'."), w).
Proof.
  intros <- Hv. unfold FlagHandler.check_verify.
  rewrite (bind_step _ _ _ _ _ (get_heap_step w)). unfold verify_ok in Hv.
  destruct v; try (exfalso; apply Hv; auto; fail); cbv beta iota;
    match goal with |- context [String.eqb (typeof ?hh ?vv) "function"] =>
      destruct (String.eqb_spec (typeof hh vv) "function") as [E|_];
      [exfalso; apply Hv; auto|reflexivity] end.
Qed.

(** An entry whose fields pass lines 41-67, whatever the strings, goes on
    to the conflict check and the store step. *)
Lemma addFlags_pass db l w c p :
  typeof (w_heap w) (VObj l) = "object" ->
  read (w_heap w) (VObj l) "command" = VStr c ->
  read (w_heap w) (VObj l) "plugin" = VStr p ->
  typeof (w_heap w) (read (w_heap w) (VObj l) "flags") = "object" ->
  verify_ok (w_heap w) (read (w_heap w) (VObj l) "verify") ->
  FlagHandler.addFlags db (VObj l) w =
  bind (FlagHandler.checkFlagConflict db c p (read (w_heap w) (VObj l) "flags"))
       (fun _ => FlagHandler.store_flags db c p (read (w_heap w) (VObj l) "flags")
                   (new_verify (read (w_heap w) (VObj l) "verify"))) w.
Proof.
  intros Hty Hc Hp Hf Hv. unfold FlagHandler.addFlags.
  rewrite (bind_step _ _ _ _ _ (default_obj_step l w)).
  rewrite (bind_step _ _ _ _ _ (get_heap_step w)), Hty, eqb_object. cbn [negb].
  rewrite (bind_step _ _ _ _ _ (js_get_read _ l "command" w eq_refl)), Hc.
  rewrite (bind_step _ _ _ _ _ (js_get_read _ l "plugin" w eq_refl)), Hp.
  rewrite (bind_step _ _ _ _ _ (js_get_read _ l "flags" w eq_refl)).
  rewrite (bind_step _ _ _ _ _ (get_heap_step w)), Hf, eqb_object. cbn [negb].
  rewrite (bind_step _ _ _ _ _ (js_get_read _ l "verify" w eq_refl)).
  rewrite (bind_step _ _ _ _ _ (check_verify_ok _ _ w eq_refl Hv)).
  reflexivity.
Qed.

(** ** Strings and keys *)

Lemma str_app_assoc a b c : a +:+ (b +:+ c) = (a +:+ b) +:+ c.
Proof. induction a as [|ch a IH]; [reflexivity|]. exact (f_equal (String ch) IH). Qed.


Lemma is_sub_here a t : is_sub a (a +:+ t).
Proof. exists "", t. reflexivity. Qed.









Lemma In_insert_index k x l : In k (insert_index x l) <-> k = x \/ In k l.
Proof.
  induction l as [|y l IH]; simpl; [intuition congruence|].
  destruct (index_of x <=? index_of y)%N; simpl; [intuition congruence|].
  rewrite IH. intuition congruence.
Qed.

Lemma In_sort_indices k l : In k (sort_indices l) <-> In k l.
Proof.
  induction l as [|y l IH]; simpl; [tauto|]. rewrite In_insert_index, IH.
  intuition congruence.
Qed.

Lemma In_alookup k q ps : In (k, q) ps -> exists q', alookup k ps = Some q'.
Proof.
  induction ps as [|[k' p'] ps IH]; simpl; [tauto|].
  destruct (String.eqb_spec k k') as [->|Hne]; [eauto|].
  intros [E|H]; [inversion E; congruence|auto].
Qed.

Lemma In_own_keys k o : In k (own_keys o) -> exists q, alookup k (o_props o) = Some q.
Proof.
  unfold own_keys. intros Hin.
  assert (Hk : In k (map fst (o_props o))).
  { apply in_app_or in Hin as [Hin|Hin].
    - apply (proj1 (In_sort_indices _ _)) in Hin. apply filter_In in Hin as [Hin _].
      apply in_map_iff in Hin as ([k' q] & <- & Hin). apply filter_In in Hin as [Hin _].
      apply in_map_iff. exists (k', q). auto.
    - apply filter_In in Hin as [Hin _].
      apply in_map_iff in Hin as ([k' q] & <- & Hin). apply filter_In in Hin as [Hin _].
      apply in_map_iff. exists (k', q). auto. }
  apply in_map_iff in Hk as ([k' q] & <- & Hin'). eapply In_alookup; eauto.
Qed.

Lemma find_prop_own h n l o k q :
  h !! l = Some o -> alookup k (o_props o) = Some q -> find_prop h (S n) l k = Some (l, q).
Proof. intros Hl Hk. simpl. rewrite Hl, Hk. reflexivity. Qed.

Lemma is_objb_inv h v : is_objb h v = true -> exists l o, v = VObj l /\ h !! l = Some o.
Proof.
  destruct v as [| | | | |l]; try discriminate. simpl.
  destruct (h !! l) as [o|] eqn:E; [|discriminate]. eauto.
Qed.

Lemma js_keys_obj h l o w :
  w_heap w = h -> h !! l = Some o -> js_keys (VObj l) w = (inr (own_keys o), w).
Proof. intros <- Hl. unfold js_keys, bind, get_heap. cbn beta iota. rewrite Hl. reflexivity. Qed.

Lemma keys_of_obj h l o : h !! l = Some o -> keys_of h (VObj l) = own_keys o.
Proof. intros Hl. simpl. rewrite Hl. reflexivity. Qed.

Lemma js_in_obj h l k w :
  w_heap w = h ->
  js_in k (VObj l) w =
  (inr (match find_prop h (fuel h) l k with Some _ => true | None => false end), w).
Proof. intros <-. reflexivity. Qed.

Lemma str_app_extend m A B : exists C, (m +:+ A) +:+ B = m +:+ C /\ C = A +:+ B.
Proof. exists (A +:+ B). rewrite str_app_assoc. auto. Qed.

(** ** The conflict check, loop by loop *)

Section Conflicts.
Variables (c p : string).





End Conflicts.

Lemma existsb_eqb_false p l : ~ In p l -> existsb (String.eqb p) l = false.
Proof.
  intros Hn. apply not_true_is_false. intros Hx. apply existsb_exists in Hx as (q & Hq & E).
  apply String.eqb_eq in E. subst. contradiction.
Qed.


Section Clean.
Variables (c p : string).

Lemma check_alias_clean nfk q ch lf keys m w :
  (forall fk, In fk keys -> is_objb (w_heap w) (read (w_heap w) (VObj lf) fk) = true) ->
  (forall fk, In fk keys -> char_of (w_heap w) (read (w_heap w) (VObj lf) fk) <> Some ch) ->
  FlagHandler.check_alias c p nfk q ch (VObj lf) keys m w = (inr m, w).
Proof.
  induction keys as [|fk keys IH]; intros Hobj Hch; [reflexivity|].
  cbn [FlagHandler.check_alias].
  rewrite (bind_step _ _ _ _ _ (js_get_read _ lf fk w eq_refl)).
  destruct (is_objb_inv _ _ (Hobj fk (or_introl eq_refl))) as (le & oe & Ee & He).
  rewrite Ee.
  rewrite (bind_step _ _ _ _ _ (js_get_read _ le "char" w eq_refl)).
  rewrite (bind_step _ _ _ _ _ (get_heap_step w)).
  assert (Hb : String.eqb (typeof (w_heap w) (read (w_heap w) (VObj le) "char")) "string" &&
               FlagHandler.str_eq (read (w_heap w) (VObj le) "char") ch = false).
  { specialize (Hch fk (or_introl eq_refl)). rewrite Ee in Hch. unfold char_of in Hch.
    destruct (read (w_heap w) (VObj le) "char") as [| | | |s|]; simpl; try reflexivity.
    - destruct (String.eqb_spec s ch) as [->|]; [exfalso; apply Hch; reflexivity|reflexivity].
    - apply andb_false_r. }
  rewrite Hb. apply IH; intros; [apply Hobj|apply Hch]; right; auto.
Qed.

Lemma check_plugins_clean lp nfk nch names m w :
  (forall q, In q names ->
     is_objb (w_heap w) (read (w_heap w) (VObj lp) q) = true /\
     flags_okb (w_heap w) (plugin_flags (w_heap w) (VObj lp) q) = true) ->
  (forall q, In q names ->
     has_propb (w_heap w) (plugin_flags (w_heap w) (VObj lp) q) nfk = false) ->
  (forall q fk s, In q names -> nch = Some s -> s <> "" ->
     In fk (keys_of (w_heap w) (plugin_flags (w_heap w) (VObj lp) q)) ->
     char_of (w_heap w) (read (w_heap w) (plugin_flags (w_heap w) (VObj lp) q) fk) <> Some s) ->
  FlagHandler.check_plugins c p (VObj lp) nfk nch names m w = (inr m, w).
Proof.
  induction names as [|q names IH]; intros Hok Hin Hal; [reflexivity|].
  destruct (Hok q (or_introl eq_refl)) as [Hent Hfl].
  specialize (Hin q (or_introl eq_refl)) as Hin0.
  cbn [FlagHandler.check_plugins].
  rewrite (bind_step _ _ _ _ _ (js_get_read _ lp q w eq_refl)).
  destruct (is_objb_inv _ _ Hent) as (le & oe & Ee & He). rewrite Ee.
  rewrite (bind_step _ _ _ _ _ (js_get_read _ le "flags" w eq_refl)).
  unfold flags_okb in Hfl. apply andb_true_iff in Hfl as [Hfo Hfall].
  unfold plugin_flags in Hfo, Hfall, Hin0. rewrite Ee in Hfo, Hfall, Hin0.
  destruct (is_objb_inv _ _ Hfo) as (lf & of & Ef & Hf). rewrite Ef in Hfall, Hin0 |- *.
  rewrite (bind_step _ _ _ _ _ (or_empty_obj lf w)).
  rewrite (bind_step _ _ _ _ _ (js_in_obj _ lf nfk w eq_refl)).
  cbn [has_propb] in Hin0. rewrite Hin0.
  assert (Hstep :
    (match nch with
     | Some ch => if truthy (VStr ch) then
                    let* pluginFlagKeys := js_keys (VObj lf) in
                    FlagHandler.check_alias c p nfk q ch (VObj lf) pluginFlagKeys m
                  else ret m
     | None => ret m
     end) w = (inr m, w)).
  { destruct nch as [ch|]; [|reflexivity].
    destruct (truthy (VStr ch)) eqn:Ht; [|reflexivity].
    rewrite (bind_step _ _ _ _ _ (js_keys_obj _ lf of w eq_refl Hf)).
    apply check_alias_clean.
    - intros fk Hk. rewrite forallb_forall in Hfall. apply Hfall.
      rewrite (keys_of_obj _ _ _ Hf). exact Hk.
    - intros fk Hk. specialize (Hal q fk ch (or_introl eq_refl) eq_refl).
      unfold plugin_flags in Hal. rewrite Ee, Ef, (keys_of_obj _ _ _ Hf) in Hal.
      apply Hal; [|exact Hk]. intros ->. discriminate. }
  rewrite (bind_step _ _ _ _ _ Hstep).
  apply IH; intros; [apply Hok|apply Hin|eapply Hal]; eauto; right; auto.
Qed.

Lemma check_new_flags_clean lp names lnf ks m w :
  (forall q, In q names ->
     is_objb (w_heap w) (read (w_heap w) (VObj lp) q) = true /\
     flags_okb (w_heap w) (plugin_flags (w_heap w) (VObj lp) q) = true) ->
  (forall k, In k ks -> is_objb (w_heap w) (read (w_heap w) (VObj lnf) k) = true) ->
  (forall k q, In k ks -> In q names ->
     has_propb (w_heap w) (plugin_flags (w_heap w) (VObj lp) q) k = false) ->
  (forall k q fk s, In k ks -> In q names ->
     char_of (w_heap w) (read (w_heap w) (VObj lnf) k) = Some s -> s <> "" ->
     In fk (keys_of (w_heap w) (plugin_flags (w_heap w) (VObj lp) q)) ->
     char_of (w_heap w) (read (w_heap w) (plugin_flags (w_heap w) (VObj lp) q) fk) <> Some s) ->
  FlagHandler.check_new_flags c p (VObj lp) names (VObj lnf) ks m w = (inr m, w).
Proof.
  intros Hok. induction ks as [|k ks IH]; intros Hnf Hin Hal; [reflexivity|].
  cbn [FlagHandler.check_new_flags].
  rewrite (bind_step _ _ _ _ _ (js_get_read _ lnf k w eq_refl)).
  destruct (is_objb_inv _ _ (Hnf k (or_introl eq_refl))) as (ls & os & Es & Hs). rewrite Es.
  rewrite (bind_step _ _ _ _ _ (js_get_read _ ls "char" w eq_refl)).
  rewrite (bind_step _ _ _ _ _ (check_plugins_clean lp k _ names m w Hok
             (fun q Hq => Hin k q (or_introl eq_refl) Hq)
             (fun q fk s Hq Hs' => Hal k q fk s (or_introl eq_refl) Hq
                                     (eq_trans (f_equal (fun v => char_of (w_heap w) v) Es) Hs')))).
  apply IH; intros; [apply Hnf|apply Hin|eapply Hal]; eauto; right; auto.
Qed.

End Clean.

Lemma checkFlagConflict_clean db c p nf w :
  table_okb (w_heap w) (read (w_heap w) (VObj db) c) = true ->
  ~ In p (keys_of (w_heap w) (read (w_heap w) (VObj db) c)) ->
  flags_okb (w_heap w) nf = true ->
  (forall k q, In k (keys_of (w_heap w) nf) ->
     In q (keys_of (w_heap w) (read (w_heap w) (VObj db) c)) ->
     has_propb (w_heap w) (plugin_flags (w_heap w) (read (w_heap w) (VObj db) c) q) k = false) ->
  (forall k q fk s, In k (keys_of (w_heap w) nf) ->
     In q (keys_of (w_heap w) (read (w_heap w) (VObj db) c)) ->
     char_of (w_heap w) (read (w_heap w) nf k) = Some s -> s <> "" ->
     In fk (keys_of (w_heap w) (plugin_flags (w_heap w) (read (w_heap w) (VObj db) c) q)) ->
     char_of (w_heap w)
       (read (w_heap w) (plugin_flags (w_heap w) (read (w_heap w) (VObj db) c) q) fk) <> Some s) ->
  FlagHandler.checkFlagConflict db c p nf w = (inr tt, w).
Proof.
  intros Ht Hp Hf Hin Hal.
  unfold table_okb in Ht. apply andb_true_iff in Ht as [Hpo Hall].
  destruct (is_objb_inv _ _ Hpo) as (lp & op & Ep & Hlp).
  unfold flags_okb in Hf. apply andb_true_iff in Hf as [Hfo Hfall].
  destruct (is_objb_inv _ _ Hfo) as (lnf & onf & -> & Hlnf).
  rewrite Ep in Hall, Hp, Hin, Hal.
  rewrite (keys_of_obj _ _ _ Hlp) in Hp, Hall, Hin, Hal.
  rewrite (keys_of_obj _ _ _ Hlnf) in Hfall, Hin, Hal.
  unfold FlagHandler.checkFlagConflict.
  rewrite (bind_step _ _ _ _ _ (js_get_read _ db c w eq_refl)). rewrite Ep.
  rewrite (bind_step _ _ _ _ _ (or_empty_obj lp w)).
  rewrite (bind_step _ _ _ _ _ (js_keys_obj _ lp op w eq_refl Hlp)).
  rewrite (existsb_eqb_false _ _ Hp).
  rewrite (bind_step _ _ _ _ _ (js_keys_obj _ lnf onf w eq_refl Hlnf)).
  rewrite (bind_step _ _ _ _ _ (check_new_flags_clean c p lp (own_keys op) lnf (own_keys onf) "" w
             (fun q Hq => proj1 (andb_true_iff _ _) (proj1 (forallb_forall _ _) Hall q Hq))
             (fun k Hk => proj1 (forallb_forall _ _) Hfall k Hk) Hin Hal)).
  reflexivity.
Qed.

(** ** Running the verify functions *)

Lemma typeof_function h v :
  String.eqb (typeof h v) "function" = match fn_of h v with Some _ => true | None => false end.
Proof.
  destruct v as [| | | | |l]; try reflexivity. simpl.
  destruct (h !! l) as [o|]; [|reflexivity]. destruct (o_call o); reflexivity.
Qed.

Lemma js_call_fn call_fn v arg w :
  js_call call_fn v arg w =
  match fn_of (w_heap w) v with
  | Some fi =>
      match call_fn fi arg (w_heap w) with
      | (None, h') => (inr tt, mkWorld h' (w_trace w ++ [(fi, arg)]))
      | (Some e, h') => (inl (EThrow e), mkWorld h' (w_trace w ++ [(fi, arg)]))
      end
  | None => (inl ETypeError, w)
  end.
Proof.
  destruct v as [| | | | |l]; try reflexivity. unfold js_call. simpl.
  destruct (w_heap w !! l) as [o|]; [|reflexivity]. destruct (o_call o); reflexivity.
Qed.

Lemma world_eta w : mkWorld (w_heap w) (w_trace w) = w.
Proof. destruct w; reflexivity. Qed.

Lemma run_verify_spec call_fn lp fl names rest h0 w :
  keeps_entries call_fn h0 (VObj lp) names ->
  (forall q, In q names -> entry_view (w_heap w) (VObj lp) q = entry_view h0 (VObj lp) q) ->
  (forall q, In q names -> is_objb h0 (read h0 (VObj lp) q) = true) ->
  (forall q, In q rest -> In q names) ->
  FlagHandler.run_verify call_fn (VObj lp) fl rest w =
  let '(cs, r, h') := calls_until call_fn (callbacks h0 (VObj lp) rest) fl (w_heap w) in
  (outcome r, mkWorld h' (w_trace w ++ map (fun f => (f, fl)) cs)).
Proof.
  intros Hk Hv Hobj Hrest. revert w Hv Hrest.
  induction rest as [|q rest IH]; intros w Hv Hrest.
  - simpl. rewrite app_nil_r, world_eta. reflexivity.
  - assert (Hq : In q names) by (apply Hrest; left; reflexivity).
    assert (Hrest' : forall q', In q' rest -> In q' names) by (intros; apply Hrest; right; auto).
    pose proof (Hv q Hq) as Hvq.
    assert (Hiso : is_objb (w_heap w) (read (w_heap w) (VObj lp) q) =
                   is_objb h0 (read h0 (VObj lp) q)) by exact (f_equal fst Hvq).
    assert (Hvf : verify_fn (w_heap w) (read (w_heap w) (VObj lp) q) =
                  verify_fn h0 (read h0 (VObj lp) q)) by exact (f_equal snd Hvq).
    cbn [FlagHandler.run_verify].
    rewrite (bind_step _ _ _ _ _ (js_get_read _ lp q w eq_refl)).
    assert (Hcur : is_objb (w_heap w) (read (w_heap w) (VObj lp) q) = true)
      by (rewrite Hiso; exact (Hobj q Hq)).
    destruct (is_objb_inv _ _ Hcur) as (le & oe & Ee & He).
    rewrite Ee in Hvf |- *.
    rewrite (bind_step _ _ _ _ _ (js_get_read _ le "verify" w eq_refl)).
    rewrite (bind_step _ _ _ _ _ (get_heap_step w)).
    rewrite typeof_function.
    cbn [callbacks]. rewrite <- Hvf. unfold verify_fn.
    destruct (fn_of (w_heap w) (read (w_heap w) (VObj le) "verify")) as [fi|] eqn:Efn.
    + cbv iota. unfold bind at 1. rewrite js_call_fn, Efn. cbn [calls_until].
      destruct (call_fn fi fl (w_heap w)) as [[v|] h1] eqn:Ec.
      * reflexivity.
      * assert (Hv1 : forall q', In q' names ->
                  entry_view h1 (VObj lp) q' = entry_view h0 (VObj lp) q').
        { intros q' Hq'. pose proof (Hk fi fl (w_heap w) Hv q' Hq') as H1.
          rewrite Ec in H1. exact H1. }
        rewrite (IH (mkWorld h1 (w_trace w ++ [(fi, fl)])) Hv1 Hrest').
        cbn [w_heap w_trace].
        destruct (calls_until call_fn (callbacks h0 (VObj lp) rest) fl h1) as [[cs r] h2].
        rewrite <- app_assoc. reflexivity.
    + cbv iota. rewrite (bind_step (ret tt) _ w tt w eq_refl).
      apply IH; [exact Hv|exact Hrest'].
Qed.

(** ** What a successful store leaves in the registry *)

Lemma find_prop_found h n l0 k l q :
  find_prop h n l0 k = Some (l, q) -> exists o, h !! l = Some o /\ alookup k (o_props o) = Some q.
Proof.
  revert l0. induction n as [|n IH]; intros l0; simpl; [discriminate|].
  destruct (h !! l0) as [o|] eqn:Hl0; [|discriminate].
  destruct (alookup k (o_props o)) as [q'|] eqn:Hk.
  - intros E. inversion E; subst. eauto.
  - destruct (o_proto o) as [l'|]; [apply IH|discriminate].
Qed.

Lemma find_prop_not_own h n l o k l' q :
  h !! l = Some o -> find_prop h (S n) l k = Some (l', q) -> l' <> l ->
  alookup k (o_props o) = None.
Proof.
  intros Hl Hf Hne. destruct (alookup k (o_props o)) as [q'|] eqn:Hk; [|reflexivity].
  rewrite (find_prop_own _ _ _ _ _ _ Hl Hk) in Hf. inversion Hf. congruence.
Qed.

Lemma find_prop_none_own h n l o k :
  h !! l = Some o -> find_prop h (S n) l k = None -> alookup k (o_props o) = None.
Proof.
  intros Hl Hf. destruct (alookup k (o_props o)) as [q'|] eqn:Hk; [|reflexivity].
  rewrite (find_prop_own _ _ _ _ _ _ Hl Hk) in Hf. discriminate.
Qed.

Lemma alookup_aupdate_eq k v ps v0 wr en :
  alookup k ps = Some (PData v0 wr en) -> alookup k (aupdate k v ps) = Some (PData v wr en).
Proof.
  induction ps as [|[k' p'] ps IH]; simpl; [discriminate|].
  destruct (String.eqb_spec k k') as [->|Hne].
  - intros E. inversion E; subst. simpl. rewrite String.eqb_refl. reflexivity.
  - intros E. simpl. apply String.eqb_neq in Hne. rewrite Hne. auto.
Qed.

Lemma alookup_app_new k ps q :
  alookup k ps = None -> alookup k (ps ++ [(k, q)]) = Some q.
Proof.
  induction ps as [|[k' p'] ps IH]; simpl.
  - rewrite String.eqb_refl. reflexivity.
  - destruct (String.eqb k k'); [discriminate|auto].
Qed.

(** A successful write that does not meet the ["__proto__"] accessor leaves
    [v] in an own data property [k] of the target. *)
Lemma js_set_own l k v w w' :
  js_set l k v w = (inr tt, w') ->
  (forall l', find_prop (w_heap w) (fuel (w_heap w)) l k <> Some (l', PProtoAccessor)) ->
  exists o', w_heap w' !! l = Some o' /\
    exists wr en, alookup k (o_props o') = Some (PData v wr en).
Proof.
  intros H Hna. unfold js_set, bind, get_heap in H. cbn beta iota in H.
  destruct (w_heap w !! l) as [o|] eqn:Hl; [|discriminate].
  destruct (find_prop (w_heap w) (fuel (w_heap w)) l k) as [[l' [v' wr en|]]|] eqn:Hf.
  - destruct wr; cbn [negb] in H; [|discriminate].
    destruct (Pos.eqb_spec l' l) as [->|Hne].
    + unfold put_obj in H. inversion H; subst; clear H. cbn [w_heap].
      rewrite lookup_insert_eq. eexists; split; [reflexivity|].
      destruct (find_prop_found _ _ _ _ _ _ Hf) as (o2 & Hl2 & Hk2).
      rewrite Hl in Hl2. injection Hl2 as <-.
      exists true, en. exact (alookup_aupdate_eq _ _ _ _ _ _ Hk2).
    + destruct (o_ext o); [|discriminate].
      unfold put_obj in H. inversion H; subst; clear H. cbn [w_heap].
      rewrite lookup_insert_eq. eexists; split; [reflexivity|].
      exists true, true. cbn [o_props]. apply alookup_app_new.
      exact (find_prop_not_own _ _ _ _ _ _ _ Hl Hf Hne).
  - exfalso. exact (Hna l' eq_refl).
  - destruct (o_ext o); [|discriminate].
    unfold put_obj in H. inversion H; subst; clear H. cbn [w_heap].
    rewrite lookup_insert_eq. eexists; split; [reflexivity|].
    exists true, true. cbn [o_props]. apply alookup_app_new.
    exact (find_prop_none_own _ _ _ _ _ Hl Hf).
Qed.

Lemma read_own h l o k v wr en :
  h !! l = Some o -> alookup k (o_props o) = Some (PData v wr en) -> read h (VObj l) k = v.
Proof.
  intros Hl Hk. unfold read, get_from, fuel. rewrite (find_prop_own _ _ _ _ _ _ Hl Hk).
  reflexivity.
Qed.

(** On an object of a plain shape, any key but ["__proto__"] is looked up
    as data or not at all. *)
Lemma no_accessor h l o op k :
  h !! l = Some o -> o_proto o = Some objproto -> data_like o ->
  h !! objproto = Some op -> o_proto op = None -> proto_like op ->
  k <> "__proto__" ->
  forall l', find_prop h (fuel h) l k <> Some (l', PProtoAccessor).
Proof.
  intros Hl Hpl Hd Hp Hpp Hpl2 Hk l'.
  rewrite (find_prop_chain2 h (fuel h) l o objproto op k Hl Hpl Hp Hpp);
    [|unfold fuel; pose proof (size_ge1 h _ _ Hl); lia].
  destruct (alookup k (o_props o)) as [q|] eqn:Ho.
  - intros E. inversion E; subst. destruct (data_like_lookup _ _ _ Hd Ho) as (? & ? & ?).
    discriminate.
  - destruct (alookup k (o_props op)) as [q|] eqn:Hop; [|discriminate].
    intros E. inversion E; subst.
    destruct Hpl2 as [_ Hall]. destruct (Hall k _ (alookup_In _ _ _ Hop)) as [|(? & ? & ?)];
      [contradiction|discriminate].
Qed.

Lemma handler_ok_frame h h' db :
  h' !! db = h !! db -> h' !! objproto = h !! objproto -> handler_ok h db -> handler_ok h' db.
Proof.
  intros E1 E2 (Hne & (od & Hd & R1) & (op & Hp & R2)).
  split; [done|]. split; [exists od; split; [congruence|exact R1]|exists op; split; [congruence|exact R2]].
Qed.

(** Reads from the database do not change when objects are only added. *)
Lemma read_db_keeps h h' db k :
  handler_ok h db -> (forall l o, h !! l = Some o -> h' !! l = Some o) ->
  read h' (VObj db) k = read h (VObj db) k.
Proof.
  intros (Hne & (od & Hd & Hpd & _) & (op & Hp & Hpp & _)) Hk.
  pose proof (Hk _ _ Hd) as Hd'. pose proof (Hk _ _ Hp) as Hp'.
  unfold read, get_from.
  rewrite (find_prop_chain2 h (fuel h) db od objproto op k Hd Hpd Hp Hpp);
    [|unfold fuel; pose proof (size_ge1 h _ _ Hd); lia].
  rewrite (find_prop_chain2 h' (fuel h') db od objproto op k Hd' Hpd Hp' Hpp);
    [|unfold fuel; pose proof (size_ge1 h' _ _ Hd'); lia].
  unfold proto_val. rewrite Hd, Hd'. reflexivity.
Qed.

Lemma store_flags_stores db c p nf nv w w' :
  handler_ok (w_heap w) db -> c <> "__proto__" -> p <> "__proto__" ->
  plain_table (w_heap w) (read (w_heap w) (VObj db) c) db ->
  FlagHandler.store_flags db c p nf nv w = (inr tt, w') ->
  exists lf, nf = VObj lf /\
    plugin_flags (w_heap w') (read (w_heap w') (VObj db) c) p = VObj lf.
Proof.
  intros Hok Hc Hp Htab H.
  pose proof Hok as (Hdbp & (od & Hd & _) & (op & Hop & Hopp & Hopl)).
  unfold FlagHandler.store_flags in H.
  rewrite (bind_step _ _ _ _ _ (js_get_read _ db c w eq_refl)) in H.
  assert (HB : exists lp wB,
             FlagHandler.or_empty (read (w_heap w) (VObj db) c) w = (inr (VObj lp), wB) /\
             keeps w wB /\ lp <> db /\ lp <> objproto /\
             exists olp, w_heap wB !! lp = Some olp /\ o_proto olp = Some objproto /\
                         data_like olp).
  { destruct (read (w_heap w) (VObj db) c) as [| | | | |lp] eqn:Ed;
      try (unfold plain_table in Htab; unfold FlagHandler.or_empty; rewrite Htab;
           destruct (alloc_literal [] w) as [r wB] eqn:Ea;
           pose proof (Pres_alloc_literal _ _ _ _ Ea) as Hkp;
           apply alloc_literal_spec in Ea as (lp & -> & Hfresh & Hh & _);
           exists lp, wB; split; [reflexivity|]; split; [exact Hkp|];
           split; [intros ->; congruence|]; split; [intros ->; congruence|];
           exists (literal []); rewrite Hh, lookup_insert_eq;
           split; [reflexivity|split; [reflexivity|apply literal_data_like]]).
    destruct Htab as (H1 & H2 & olp & Hl & Hpr & Hdl).
    exists lp, w. split; [reflexivity|]. split; [apply keeps_refl|]. eauto 8. }
  destruct HB as (lp & wB & HB & HkB & Hlpdb & Hlpop & olp & HlpB & Hplp & Hdlp).
  rewrite (bind_step _ _ _ _ _ HB) in H.
  pose proof (proj1 HkB _ _ Hd) as HdB. pose proof (proj1 HkB _ _ Hop) as HopB.
  (* the empty source object *)
  apply bind_inv in H as [[e [_ E]]|[src [wC [HC H]]]]; [discriminate|].
  pose proof (Pres_alloc_literal _ _ _ _ HC) as HkC.
  apply alloc_literal_spec in HC as (ls & Es & Hls & HhC & _). injection Es as ->.
  (* Object.assign(newFlags, {}) *)
  destruct nf as [| | | | |lf];
    try (unfold bind, throw in H; discriminate).
  exists lf. split; [reflexivity|].
  rewrite (bind_step _ _ _ _ _ (assign_empty wC lf ls ltac:(rewrite HhC; apply lookup_insert_eq)))
    in H.
  (* the contribution object *)
  apply bind_inv in H as [[e [_ E]]|[contrib [wE [HE H]]]]; [discriminate|].
  pose proof (Pres_alloc_literal _ _ _ _ HE) as HkE.
  apply alloc_literal_spec in HE as (lc & Es & Hlc & HhE & _). injection Es as ->.
  (* plugins[pluginName] = contrib *)
  apply bind_inv in H as [[e [_ E]]|[[] [wF [HF HG]]]]; [discriminate|].
  pose proof (js_set_val_spec _ _ _ _ _ _ HF) as (HfrF & _).
  change (js_set lp p (VObj lc) wE = (inr tt, wF)) in HF.
  pose proof (proj1 HkC _ _ HlpB) as HlpC. pose proof (proj1 HkE _ _ HlpC) as HlpE.
  pose proof (proj1 HkC _ _ HdB) as HdC. pose proof (proj1 HkE _ _ HdC) as HdE.
  pose proof (proj1 HkC _ _ HopB) as HopC. pose proof (proj1 HkE _ _ HopC) as HopE.
  destruct (js_set_own _ _ _ _ _ HF
              (no_accessor _ _ _ _ _ HlpE Hplp Hdlp HopE Hopp Hopl Hp))
    as (olp' & HlpF & wr1 & en1 & Hk1).
  assert (HdF : w_heap wF !! db = Some od) by (rewrite HfrF; [exact HdE|congruence]).
  assert (HopF : w_heap wF !! objproto = Some op) by (rewrite HfrF; [exact HopE|congruence]).
  assert (Hlclp : lc <> lp) by (intros ->; congruence).
  assert (HlcF : w_heap wF !! lc = Some (literal [("flags", VObj lf); ("verify", nv)])).
  { rewrite HfrF; [|congruence]. rewrite HhE. apply lookup_insert_eq. }
  (* database[commandName] = plugins *)
  pose proof (js_set_spec _ _ _ _ _ _ HG) as (HfrG & _).
  assert (Hokd : handler_ok (w_heap wF) db).
  { apply (handler_ok_frame (w_heap w)); congruence. }
  destruct Hokd as (_ & (od2 & Hd2 & Hpd2 & _ & _ & _ & Hdl2) & _).
  destruct (js_set_own _ _ _ _ _ HG
              (no_accessor _ _ _ _ _ Hd2 Hpd2 Hdl2 HopF Hopp Hopl Hc))
    as (od' & HdG & wr2 & en2 & Hk2).
  rewrite (read_own _ _ _ _ _ _ _ HdG Hk2).
  unfold plugin_flags.
  assert (HlpG : w_heap w' !! lp = Some olp') by (rewrite HfrG; auto).
  rewrite (read_own _ _ _ _ _ _ _ HlpG Hk1).
  assert (Hlcdb : lc <> db) by (intros ->; congruence).
  assert (HlcG : w_heap w' !! lc = Some (literal [("flags", VObj lf); ("verify", nv)]))
    by (rewrite HfrG; auto).
  exact (read_own _ _ _ "flags" (VObj lf) true true HlcG eq_refl).
Qed.

Lemma plain_table_keeps h h' db v :
  (forall l o, h !! l = Some o -> h' !! l = Some o) -> plain_table h v db -> plain_table h' v db.
Proof.
  intros Hk. destruct v as [| | | | |lp]; simpl; auto.
  intros (H1 & H2 & o & Ho & R). eauto 8.
Qed.

(** ** Frames of [getFlags] and [verifyFlags] *)

Lemma Pres_writes_only l {A} (m : M A) : Pres m -> writes_only l m.
Proof. intros Hm w r w' H. destruct (Hm _ _ _ H) as [Hk Ht]. split; auto. Qed.

Lemma writes_only_bind l {A B} (m : M A) (k : A -> M B) :
  writes_only l m -> (forall a, writes_only l (k a)) -> writes_only l (bind m k).
Proof.
  intros Hm Hk w r w' H. apply bind_inv in H as [[e [H1 _]]|[a [w1 [H1 H2]]]].
  - exact (Hm _ _ _ H1).
  - destruct (Hm _ _ _ H1) as [A1 T1]. destruct (Hk a _ _ _ H2) as [A2 T2].
    split; [auto|congruence].
Qed.

Lemma writes_only_js_set l k v : writes_only l (js_set l k v).
Proof.
  intros w r w' H. apply js_set_spec in H as (H1 & H2 & _). split; [|exact H2].
  intros l' o Hne Ho. rewrite H1; auto.
Qed.

Lemma writes_only_assign_keys t s ks : writes_only t (assign_keys t s ks).
Proof.
  induction ks as [|k ks IH]; simpl.
  - apply Pres_writes_only, Pres_ret.
  - apply writes_only_bind; [apply Pres_writes_only, Pres_js_get|intros v].
    apply writes_only_bind; [apply writes_only_js_set|intros _; exact IH].
Qed.

Lemma writes_only_js_assign t s : writes_only t (js_assign t s).
Proof.
  unfold js_assign. destruct s;
    try (apply Pres_writes_only, Pres_ret);
    (apply writes_only_bind; [apply Pres_writes_only, Pres_js_keys|intros ks];
     apply writes_only_bind; [apply writes_only_assign_keys|intros _];
     apply Pres_writes_only, Pres_ret).
Qed.

Lemma writes_only_combine pl t names : writes_only t (FlagHandler.combine_flags pl t names).
Proof.
  induction names as [|q names IH]; simpl.
  - apply Pres_writes_only, Pres_ret.
  - apply writes_only_bind; [apply Pres_writes_only, Pres_js_get|intros e].
    apply writes_only_bind; [apply Pres_writes_only, Pres_js_get|intros f].
    apply writes_only_bind; [apply writes_only_js_assign|intros _; exact IH].
Qed.

(** Allocating an object and then writing only to it changes nothing that
    existed before. *)
Lemma Pres_alloc_writes o {A} (m : loc -> M A) :
  (forall l, writes_only l (m l)) -> Pres (bind (alloc o) m).
Proof.
  intros Hm w r w' H. apply bind_inv in H as [[e [H1 _]]|[l [w1 [H1 H2]]]].
  - exact (Pres_alloc _ _ _ _ H1).
  - apply alloc_spec in H1 as (l1 & E & Hfresh & Hh & Ht). injection E as <-.
    destruct (Hm l _ _ _ H2) as [Hk Ht2]. split; [|congruence].
    intros l' o' Ho. apply Hk; [intros ->; congruence|].
    rewrite Hh, lookup_insert_ne; [exact Ho|intros ->; congruence].
Qed.

Lemma Pres_getFlags db arg : Pres (FlagHandler.getFlags db arg).
Proof.
  unfold FlagHandler.getFlags.
  repeat first
    [ apply Pres_alloc_writes; intros l0;
      apply writes_only_bind; [apply writes_only_combine|intros _; apply Pres_writes_only, Pres_ret]
    | apply Pres_default_obj | apply Pres_or_empty | pres_step ].
Qed.





Lemma existsb_eqb_true p l : In p l -> existsb (String.eqb p) l = true.
Proof. intros Hin. apply existsb_exists. exists p. split; [exact Hin|apply String.eqb_refl]. Qed.


(** ** The object [getFlags] builds *)

Lemma alookup_app_ne k k' q ps :
  k <> k' -> alookup k (ps ++ [(k', q)]) = alookup k ps.
Proof.
  intros Hne. induction ps as [|[k2 p2] ps IH]; simpl.
  - apply String.eqb_neq in Hne. rewrite Hne. reflexivity.
  - destruct (String.eqb k k2); [reflexivity|exact IH].
Qed.

Lemma plain_aupdate k v ps : plain_props ps -> plain_props (aupdate k v ps).
Proof.
  induction ps as [|[k' p'] ps IH]; simpl; intros Hp; [exact Hp|].
  destruct (String.eqb k k').
  - destruct p' as [v0 wr en|].
    + destruct (Hp k' (PData v0 wr en) (or_introl eq_refl)) as [v1 E]. inversion E; subst.
      intros k2 p2 [E2|Hin]; [inversion E2; subst; eauto|].
      apply (Hp k2 p2); right; exact Hin.
    + exact Hp.
  - intros k2 p2 [E2|Hin]; [inversion E2; subst; apply (Hp k2 p2); left; reflexivity|].
    exact (IH (fun k3 p3 Hin3 => Hp k3 p3 (or_intror Hin3)) k2 p2 Hin).
Qed.

Lemma plain_set_plain ps k v : plain_props ps -> plain_props (set_plain ps k v).
Proof.
  intros Hp. unfold set_plain. destruct (alookup k ps).
  - apply plain_aupdate, Hp.
  - intros k2 p2 Hin. apply in_app_or in Hin as [Hin|[E|[]]]; [exact (Hp _ _ Hin)|].
    inversion E; subst. eauto.
Qed.

Lemma alookup_set_plain ps k v k' :
  plain_props ps ->
  alookup k' (set_plain ps k v) =
  if String.eqb k' k then Some (PData v true true) else alookup k' ps.
Proof.
  intros Hp. unfold set_plain. destruct (String.eqb_spec k' k) as [->|Hne].
  - destruct (alookup k ps) as [p|] eqn:Ek.
    + destruct (Hp k p (alookup_In _ _ _ Ek)) as [v0 ->].
      exact (alookup_aupdate_eq _ _ _ _ _ _ Ek).
    + exact (alookup_app_new _ _ _ Ek).
  - destruct (alookup k ps).
    + exact (alookup_aupdate_ne _ _ _ _ Hne).
    + exact (alookup_app_ne _ _ _ _ Hne).
Qed.

Lemma plain_copy_keys h f ks ps : plain_props ps -> plain_props (copy_keys h f ks ps).
Proof.
  revert ps. induction ks as [|k ks IH]; intros ps Hp; [exact Hp|].
  apply IH, plain_set_plain, Hp.
Qed.

Lemma alookup_copy_keys h f ks ps k :
  plain_props ps ->
  alookup k (copy_keys h f ks ps) =
  if existsb (String.eqb k) ks then Some (PData (read h f k) true true) else alookup k ps.
Proof.
  revert ps. induction ks as [|k0 ks IH]; intros ps Hp; [reflexivity|].
  cbn [copy_keys fold_left existsb]. fold (copy_keys h f ks (set_plain ps k0 (read h f k0))).
  rewrite IH by (apply plain_set_plain, Hp). rewrite alookup_set_plain by exact Hp.
  destruct (String.eqb_spec k k0) as [->|Hne]; simpl;
    destruct (existsb (String.eqb _) ks); reflexivity.
Qed.

Lemma plain_combine_all h pl qs ps : plain_props ps -> plain_props (combine_all h pl qs ps).
Proof.
  revert ps. induction qs as [|q qs IH]; intros ps Hp; [exact Hp|].
  apply IH, plain_copy_keys, Hp.
Qed.

Lemma alookup_combine_all h pl qs ps k :
  plain_props ps ->
  alookup k (combine_all h pl qs ps) =
  match last_owner h pl qs k with
  | Some q => Some (PData (read h (plugin_flags h pl q) k) true true)
  | None => alookup k ps
  end.
Proof.
  revert ps. induction qs as [|q qs IH]; intros ps Hp; [reflexivity|].
  cbn [combine_all fold_left last_owner].
  fold (combine_all h pl qs (copy_keys h (plugin_flags h pl q)
                                (keys_of h (plugin_flags h pl q)) ps)).
  rewrite IH by (apply plain_copy_keys, Hp).
  destruct (last_owner h pl qs k); [reflexivity|].
  rewrite alookup_copy_keys by exact Hp.
  destruct (existsb _ _); reflexivity.
Qed.

Lemma last_owner_some h pl qs k :
  last_owner h pl qs k <> None <->
  exists q, In q qs /\ In k (keys_of h (plugin_flags h pl q)).
Proof.
  induction qs as [|q qs IH]; simpl.
  - split; [tauto|]. intros (q & [] & _).
  - destruct (last_owner h pl qs k) as [q'|] eqn:E.
    + split; [|discriminate]. intros _.
      destruct (proj1 IH ltac:(discriminate)) as (q0 & Hq0 & Hk). eauto.
    + destruct (existsb (String.eqb k) (keys_of h (plugin_flags h pl q))) eqn:Ex.
      * split; [|discriminate]. intros _. exists q. split; [left; reflexivity|].
        apply existsb_exists in Ex as (k' & Hin & Ek). apply String.eqb_eq in Ek. subst. exact Hin.
      * split; [congruence|]. intros (q0 & [<-|Hq0] & Hk).
        -- rewrite existsb_eqb_true in Ex by exact Hk. discriminate.
        -- exfalso. apply (proj2 IH); eauto.
Qed.

Lemma In_own_keys_enum k v wr o : In (k, PData v wr true) (o_props o) -> In k (own_keys o).
Proof.
  intros Hin. unfold own_keys.
  set (ks := map fst (List.filter (fun kp => match kp.2 with
                                       | PData _ _ true => true
                                       | _ => false end) (o_props o))).
  assert (Hk : In k ks).
  { apply in_map_iff. exists (k, PData v wr true). split; [reflexivity|].
    apply filter_In. split; [exact Hin|reflexivity]. }
  apply in_or_app. destruct (is_index k) eqn:Ei.
  - left. apply In_sort_indices. apply filter_In. auto.
  - right. apply filter_In. rewrite Ei. auto.
Qed.

Lemma own_keys_target ps k :
  plain_props ps -> In k (own_keys (target ps)) <-> alookup k ps <> None.
Proof.
  intros Hp. split.
  - intros Hin. destruct (In_own_keys _ _ Hin) as [q Hq]. cbn [target o_props] in Hq. congruence.
  - intros Hk. destruct (alookup k ps) as [p|] eqn:Ek; [|congruence].
    destruct (Hp k p (alookup_In _ _ _ Ek)) as [v ->].
    apply (In_own_keys_enum k v true). exact (alookup_In _ _ _ Ek).
Qed.

Lemma find_prop_mono (h h' : heap) n n' l k r :
  h ⊆ h' -> (n <= n')%nat -> find_prop h n l k = Some r -> find_prop h' n' l k = Some r.
Proof.
  intros Hs. revert n' l. induction n as [|n IH]; intros n' l Hn; [discriminate|].
  destruct n' as [|n']; [lia|]. cbn [find_prop].
  destruct (h !! l) as [o|] eqn:Hl; [|discriminate].
  rewrite (lookup_weaken _ _ _ _ Hl Hs).
  destruct (alookup k (o_props o)); [exact id|].
  destruct (o_proto o); [apply IH; lia|discriminate].
Qed.

(** A read that finds a property gives the same value after a new object
    is added to the store. *)
Lemma read_insert_found (h : heap) a T l k :
  h !! a = None -> find_prop h (fuel h) l k <> None ->
  read (<[a := T]> h) (VObj l) k = read h (VObj l) k.
Proof.
  intros Ha Hf. unfold read, get_from.
  destruct (find_prop h (fuel h) l k) as [[l' p]|] eqn:E; [|congruence].
  rewrite (find_prop_mono h (<[a:=T]> h) (fuel h) (fuel (<[a:=T]> h)) l k (l', p));
    [|apply insert_subseteq, Ha|unfold fuel; change (S (size h) <= S (size (<[a:=T]> h)))%nat;
     rewrite map_size_insert_None by exact Ha; lia|exact E].
  destruct p; [reflexivity|].
  unfold fuel in E. cbn [find_prop] in E.
  destruct (h !! l) as [o|] eqn:Hl; [|discriminate].
  unfold proto_val. rewrite lookup_insert_ne by congruence. rewrite Hl. reflexivity.
Qed.

Lemma find_prop_own_some h l o k :
  h !! l = Some o -> alookup k (o_props o) <> None -> find_prop h (fuel h) l k <> None.
Proof.
  intros Hl Hk. destruct (alookup k (o_props o)) as [q|] eqn:Ek; [|congruence].
  unfold fuel. rewrite (find_prop_own _ _ _ _ _ _ Hl Ek). discriminate.
Qed.

Lemma read_found h v k : read h v k <> VUndef ->
  exists l, v = VObj l /\ find_prop h (fuel h) l k <> None.
Proof.
  destruct v as [| | | | |l]; cbn [read]; try congruence. intros H. exists l. split; [reflexivity|].
  intros E. apply H. unfold get_from. rewrite E. reflexivity.
Qed.

Section Target.
Variables (h : heap) (a : loc) (op : obj).
Hypothesis Ha : h !! a = None.
Hypothesis Hop : h !! objproto = Some op.
Hypothesis Hop_end : o_proto op = None.
Hypothesis Hop_like : proto_like op.

Lemma a_ne_objproto : a <> objproto.
Proof. intros ->. congruence. Qed.

(** [allFlags[k] = v] *)
Lemma js_set_target ps k v w :
  k <> "__proto__" -> plain_props ps -> w_heap w = <[a := target ps]> h ->
  js_set a k v w = (inr tt, mkWorld (<[a := target (set_plain ps k v)]> h) (w_trace w)).
Proof.
  intros Hk Hp Hw. pose proof a_ne_objproto as Hne.
  destruct w as [hw tw]. cbn [w_heap w_trace] in Hw |- *. subst hw.
  assert (Hsz : (2 <= map_size (<[a := target ps]> h))%nat).
  { apply (size_ge2 _ a objproto (target ps) op Hne).
    - apply lookup_insert_eq.
    - rewrite lookup_insert_ne by congruence. exact Hop. }
  unfold js_set, bind, get_heap. cbn [w_heap w_trace].
  rewrite lookup_insert_eq.
  unfold fuel. destruct (map_size (<[a := target ps]> h)) as [|[|n]] eqn:Es; [lia|lia|].
  cbn [find_prop]. rewrite lookup_insert_eq. cbn [target o_props o_proto o_ext o_call o_immut_proto].
  unfold set_plain. destruct (alookup k ps) as [p|] eqn:Ek.
  - destruct (Hp k p (alookup_In _ _ _ Ek)) as [v0 ->]. cbn [negb].
    rewrite Pos.eqb_refl. unfold put_obj. cbn [w_heap w_trace]. rewrite insert_insert_eq. reflexivity.
  - rewrite lookup_insert_ne by congruence. rewrite Hop.
    destruct (alookup k (o_props op)) as [p|] eqn:Ek2.
    + destruct Hop_like as [_ Hpl]. destruct (Hpl k p (alookup_In _ _ _ Ek2)) as [E|(v0 & en & ->)];
        [congruence|].
      cbn [negb]. replace (Pos.eqb objproto a) with false by (symmetry; apply Pos.eqb_neq; congruence).
      unfold put_obj. cbn [w_heap w_trace]. rewrite insert_insert_eq. reflexivity.
    + rewrite Hop_end. unfold put_obj. cbn [w_heap w_trace]. rewrite insert_insert_eq. reflexivity.
Qed.
(** [Object.assign(allFlags, f)] for an object [f]: each of the keys is
    read from [f] in the store before the call. *)
Lemma assign_keys_target lf ofl ks ps w :
  h !! lf = Some ofl ->
  (forall k, In k ks -> In k (own_keys ofl) /\ k <> "__proto__") ->
  plain_props ps -> w_heap w = <[a := target ps]> h ->
  assign_keys a (VObj lf) ks w =
  (inr tt, mkWorld (<[a := target (copy_keys h (VObj lf) ks ps)]> h) (w_trace w)).
Proof.
  intros Hlf. revert ps w. induction ks as [|k ks IH]; intros ps w Hks Hp Hw.
  - cbn [assign_keys copy_keys fold_left]. rewrite <- Hw, world_eta. reflexivity.
  - cbn [assign_keys]. destruct (Hks k (or_introl eq_refl)) as [Hko Hkp].
    rewrite (bind_step _ _ _ _ _ (js_get_read _ lf k w eq_refl)).
    rewrite Hw, read_insert_found by
      (exact Ha || (destruct (In_own_keys _ _ Hko) as [q Hq];
                    apply (find_prop_own_some _ _ _ _ Hlf); congruence)).
    rewrite (bind_step _ _ _ _ _ (js_set_target ps k _ w Hkp Hp Hw)).
    rewrite (IH (set_plain ps k (read h (VObj lf) k))
               (mkWorld (<[a:=target (set_plain ps k (read h (VObj lf) k))]> h) (w_trace w)));
      [reflexivity|intros k' Hk'; apply Hks; right; exact Hk'|apply plain_set_plain, Hp|reflexivity].
Qed.

(** The loop of [getFlags] over the plugin names of a table [lp]. *)
Lemma combine_target lp opl names ps w :
  h !! lp = Some opl ->
  (forall q, In q names -> In q (own_keys opl)) ->
  (forall q, In q names -> is_objb h (plugin_flags h (VObj lp) q) = true) ->
  (forall q k, In q names -> In k (keys_of h (plugin_flags h (VObj lp) q)) -> k <> "__proto__") ->
  plain_props ps -> w_heap w = <[a := target ps]> h ->
  FlagHandler.combine_flags (VObj lp) a names w =
  (inr tt, mkWorld (<[a := target (combine_all h (VObj lp) names ps)]> h) (w_trace w)).
Proof.
  intros Hlp. revert ps w. induction names as [|q names IH]; intros ps w Hq Ho Hk Hp Hw.
  - cbn [FlagHandler.combine_flags combine_all fold_left]. rewrite <- Hw, world_eta. reflexivity.
  - cbn [FlagHandler.combine_flags].
    rewrite (bind_step _ _ _ _ _ (js_get_read _ lp q w eq_refl)).
    rewrite Hw, read_insert_found by
      (exact Ha || (destruct (In_own_keys _ _ (Hq q (or_introl eq_refl))) as [p0 Hp0];
                    apply (find_prop_own_some _ _ _ _ Hlp); congruence)).
    pose proof (Ho q (or_introl eq_refl)) as Hoq. unfold plugin_flags in Hoq.
    destruct (read h (VObj lp) q) as [| | | | |le] eqn:Ee; try discriminate.
    rewrite (bind_step _ _ _ _ _ (js_get_read _ le "flags" w eq_refl)).
    assert (Hfl : read (w_heap w) (VObj le) "flags" = read h (VObj le) "flags").
    { rewrite Hw. apply read_insert_found; [exact Ha|].
      destruct (read_found h (VObj le) "flags") as (l0 & E0 & Hf0);
        [intros E; rewrite E in Hoq; discriminate|].
      injection E0 as <-. exact Hf0. }
    rewrite Hfl.
    destruct (is_objb_inv _ _ Hoq) as (lf & ofl & Ef & Hlf). rewrite Ef.
    assert (Hlf' : w_heap w !! lf = Some ofl).
    { rewrite Hw, lookup_insert_ne; [exact Hlf|congruence]. }
    assert (Hkf : keys_of h (plugin_flags h (VObj lp) q) = own_keys ofl).
    { unfold plugin_flags. rewrite Ee, Ef. exact (keys_of_obj _ _ _ Hlf). }
    assert (Has : js_assign a (VObj lf) w =
      (inr (VObj a), mkWorld (<[a := target (copy_keys h (VObj lf) (own_keys ofl) ps)]> h)
                       (w_trace w))).
    { unfold js_assign. cbv iota.
      rewrite (bind_step _ _ _ _ _ (js_keys_obj _ lf ofl w eq_refl Hlf')).
      rewrite (bind_step _ _ _ _ _
        (assign_keys_target lf ofl (own_keys ofl) ps w Hlf
           (fun k Hk' => conj Hk' (Hk q k (or_introl eq_refl) ltac:(rewrite Hkf; exact Hk')))
           Hp Hw)).
      reflexivity. }
    rewrite (bind_step _ _ _ _ _ Has).
    cbn [combine_all fold_left].
    assert (Hpf : plugin_flags h (VObj lp) q = VObj lf) by (unfold plugin_flags; rewrite Ee; exact Ef).
    rewrite Hkf, Hpf. fold (combine_all h (VObj lp) names (copy_keys h (VObj lf) (own_keys ofl) ps)).
    rewrite (IH (copy_keys h (VObj lf) (own_keys ofl) ps)
               (mkWorld (<[a := target (copy_keys h (VObj lf) (own_keys ofl) ps)]> h) (w_trace w)));
      [reflexivity|intros; apply Hq; right; auto|intros; apply Ho; right; auto
      |intros q' k' Hq' Hk'; apply (Hk q' k'); [right|]; auto
      |apply plain_copy_keys, Hp|reflexivity].
Qed.
End Target.

(** What [getFlags] returns for a valid query: a new object whose own
    properties are the merged flags. *)
Lemma getFlags_result db lq w c :
  handler_ok (w_heap w) db ->
  typeof (w_heap w) (VObj lq) = "object" ->
  read (w_heap w) (VObj lq) "command" = VStr c ->
  flag_tables_okb (w_heap w) (read (w_heap w) (VObj db) c) = true ->
  exists r w', FlagHandler.getFlags db (VObj lq) w = (inr (VObj r), w') /\
    w_heap w !! r = None /\ keeps w w' /\
    exists ps, w_heap w' !! r = Some (target ps) /\ plain_props ps /\
      forall k, alookup k ps =
        match last_owner (w_heap w) (read (w_heap w) (VObj db) c)
                (keys_of (w_heap w) (read (w_heap w) (VObj db) c)) k with
        | Some q => Some (PData (read (w_heap w) (plugin_flags (w_heap w)
                                   (read (w_heap w) (VObj db) c) q) k) true true)
        | None => None
        end.
Proof.
  intros Hh Hty Hc Hok.
  destruct Hh as (_ & _ & op & Hop & Hend & Hlike).
  set (h := w_heap w) in *. set (pl := read h (VObj db) c) in *.
  unfold flag_tables_okb in Hok. apply andb_true_iff in Hok as [Hpl Hall].
  rewrite forallb_forall in Hall.
  unfold FlagHandler.getFlags.
  rewrite (bind_step _ _ _ _ _ (default_obj_step lq w)).
  rewrite (bind_step _ _ _ _ _ (get_heap_step w)). fold h.
  rewrite Hty, eqb_object. cbn [negb].
  rewrite (bind_step _ _ _ _ _ (js_get_read _ lq "command" w eq_refl)). fold h. rewrite Hc.
  cbv beta iota.
  rewrite (bind_step _ _ _ _ _ (js_get_read _ db c w eq_refl)). fold h. fold pl.
  apply orb_true_iff in Hpl as [Hpl|Hpl].
  - destruct (is_objb_inv _ _ Hpl) as (lp & opl & Ep & Hlp). rewrite Ep in Hall |- *.
    rewrite (keys_of_obj _ _ _ Hlp) in Hall |- *.
    rewrite (bind_step _ _ _ _ _ (or_empty_obj lp w)).
    rewrite (bind_step _ _ _ _ _ (js_keys_obj _ lp opl w eq_refl Hlp)).
    destruct (alloc (literal []) w) as [ra wa] eqn:Ea.
    pose proof Ea as Ea'. apply alloc_spec in Ea' as (a & -> & Ha & Hwa & Hta).
    rewrite (bind_step _ _ _ _ _ Ea).
    change (literal []) with (target []) in Hwa.
    rewrite (bind_step _ _ _ _ _
      (combine_target h a op Ha Hop Hend Hlike lp opl (own_keys opl) [] wa Hlp
         (fun q Hq => Hq)
         (fun q Hq => proj1 (proj1 (andb_true_iff _ _) (Hall q Hq)))
         (fun q k Hq Hk E => ltac:(
            pose proof (proj2 (proj1 (andb_true_iff _ _) (Hall q Hq))) as Hn;
            rewrite existsb_eqb_true in Hn by (rewrite <- E; exact Hk); discriminate))
         ltac:(intros k p []) Hwa)).
    unfold ret. do 2 eexists. split; [reflexivity|]. split; [exact Ha|]. split.
    + split; [|cbn [w_trace]; exact Hta]. intros l o Hl. cbn [w_heap].
      rewrite lookup_insert_ne; [exact Hl|congruence].
    + exists (combine_all h (VObj lp) (own_keys opl) []). split; [apply lookup_insert_eq|].
      split; [apply plain_combine_all; intros k p []|].
      intros k. rewrite alookup_combine_all by (intros k' p []). reflexivity.
  - apply negb_true_iff in Hpl. unfold FlagHandler.or_empty. rewrite Hpl.
    destruct (alloc_literal [] w) as [r0 w0] eqn:E0.
    pose proof E0 as E0'. apply alloc_literal_spec in E0' as (l0 & -> & H0 & Hw0 & Ht0).
    rewrite (bind_step _ _ _ _ _ E0).
    assert (Hl0 : w_heap w0 !! l0 = Some (literal [])) by (rewrite Hw0; apply lookup_insert_eq).
    rewrite (bind_step _ _ _ _ _ (js_keys_obj _ l0 _ w0 eq_refl Hl0)).
    destruct (alloc (literal []) w0) as [ra wa] eqn:Ea.
    pose proof Ea as Ea'. apply alloc_spec in Ea' as (a & -> & Ha & Hwa & Hta).
    rewrite (bind_step _ _ _ _ _ Ea). cbn [own_keys o_props literal map List.filter sort_indices
      fold_right app FlagHandler.combine_flags].
    rewrite (bind_step (ret tt) _ wa tt wa eq_refl). unfold ret.
    do 2 eexists. split; [reflexivity|].
    assert (Hne : a <> l0) by (intros ->; congruence).
    split; [rewrite Hw0, lookup_insert_ne in Ha; [exact Ha|congruence]|]. split.
    + split; [|congruence]. intros l o Hl. rewrite Hwa, Hw0.
      rewrite !lookup_insert_ne; [exact Hl| |].
      * intros ->. congruence.
      * intros ->. rewrite Hw0, lookup_insert_ne in Ha by congruence. congruence.
    + exists []. split; [rewrite Hwa; apply lookup_insert_eq|]. split; [intros k p []|].
      assert (Hk : keys_of h pl = []).
      { destruct pl as [| | | | |lp]; try reflexivity. discriminate. }
      intros k. rewrite Hk. reflexivity.
Qed.

(** ** What a successful [addFlags] changes *)

(** A successful assignment that meets no accessor changes the object's
    own property [k] only, and keeps a data-like object data-like. *)
Lemma js_set_data l o k v w w' :
  w_heap w !! l = Some o ->
  (forall l', find_prop (w_heap w) (fuel (w_heap w)) l k <> Some (l', PProtoAccessor)) ->
  js_set l k v w = (inr tt, w') ->
  exists o', w_heap w' !! l = Some o' /\ o_proto o' = o_proto o /\
    o_ext o' = o_ext o /\ o_immut_proto o' = o_immut_proto o /\
    (data_like o -> data_like o') /\
    forall k', k' <> k -> alookup k' (o_props o') = alookup k' (o_props o).
Proof.
  intros Hl Hna H. unfold js_set, bind, get_heap in H. cbn beta iota in H.
  rewrite Hl in H.
  assert (Happ : data_like o -> data_like (mkObj (o_props o ++ [(k, PData v true true)])
                                             (o_proto o) (o_call o) (o_ext o) (o_immut_proto o))).
  { intros Hd k2 p2 Hin. apply in_app_or in Hin as [Hin|[E|[]]]; [exact (Hd _ _ Hin)|].
    inversion E; subst. do 2 eexists; reflexivity. }
  destruct (find_prop (w_heap w) (fuel (w_heap w)) l k) as [[l' [v' wr en|]]|] eqn:Hf.
  - destruct wr; cbn [negb] in H; [|discriminate].
    destruct (Pos.eqb_spec l' l) as [->|Hne].
    + unfold put_obj in H. inversion H; subst; clear H. cbn [w_heap].
      rewrite lookup_insert_eq. eexists; split; [reflexivity|].
      split; [reflexivity|]. split; [reflexivity|]. split; [reflexivity|].
      split; [intros Hd; destruct o; exact (data_like_aupdate _ k v _ _ _ _ _ Hd)|].
      intros k' Hk'. cbn [o_props]. apply alookup_aupdate_ne. exact Hk'.
    + destruct (o_ext o) eqn:Ee; [|discriminate].
      unfold put_obj in H. inversion H; subst; clear H. cbn [w_heap].
      rewrite lookup_insert_eq. eexists; split; [reflexivity|].
      split; [reflexivity|]. split; [reflexivity|]. split; [reflexivity|].
      split; [exact Happ|].
      intros k' Hk'. cbn [o_props]. apply alookup_app_ne. exact Hk'.
  - exfalso. exact (Hna l' eq_refl).
  - destruct (o_ext o) eqn:Ee; [|discriminate].
    unfold put_obj in H. inversion H; subst; clear H. cbn [w_heap].
    rewrite lookup_insert_eq. eexists; split; [reflexivity|].
    split; [reflexivity|]. split; [reflexivity|]. split; [reflexivity|].
    split; [exact Happ|].
    intros k' Hk'. cbn [o_props]. apply alookup_app_ne. exact Hk'.
Qed.

(** Two objects with [Object.prototype] as prototype, the same own
    property [k] and the same [Object.prototype] give the same [v[k]]. *)
Lemma read_chain2_same h h' l o o' op k :
  h !! l = Some o -> h' !! l = Some o' ->
  o_proto o = Some objproto -> o_proto o' = Some objproto ->
  alookup k (o_props o') = alookup k (o_props o) ->
  h !! objproto = Some op -> h' !! objproto = Some op -> o_proto op = None ->
  read h' (VObj l) k = read h (VObj l) k.
Proof.
  intros Hl Hl' Hp Hp' Hk Ho Ho' Hend. unfold read, get_from.
  rewrite (find_prop_chain2 h (fuel h) l o objproto op k Hl Hp Ho Hend);
    [|unfold fuel; pose proof (size_ge1 h _ _ Hl); lia].
  rewrite (find_prop_chain2 h' (fuel h') l o' objproto op k Hl' Hp' Ho' Hend);
    [|unfold fuel; pose proof (size_ge1 h' _ _ Hl'); lia].
  rewrite Hk. unfold proto_val. rewrite Hl, Hl', Hp, Hp'. reflexivity.
Qed.

(** The store step (lines 79-86) when it succeeds: the plugin's slot of the
    command's table holds a new object [{ flags, verify }], and apart from
    that slot and the command's slot of the database nothing changes. *)
Lemma store_flags_effect db c p nf nv w w' :
  handler_ok (w_heap w) db -> c <> "__proto__" -> p <> "__proto__" ->
  plain_table (w_heap w) (read (w_heap w) (VObj db) c) db ->
  FlagHandler.store_flags db c p nf nv w = (inr tt, w') ->
  handler_ok (w_heap w') db /\
  w_trace w' = w_trace w /\
  (forall l o, l <> db -> read (w_heap w) (VObj db) c <> VObj l ->
     w_heap w !! l = Some o -> w_heap w' !! l = Some o) /\
  (forall c', c' <> c -> read (w_heap w') (VObj db) c' = read (w_heap w) (VObj db) c') /\
  exists lp, read (w_heap w') (VObj db) c = VObj lp /\
    (forall lp0, read (w_heap w) (VObj db) c = VObj lp0 -> lp0 = lp /\
     forall q, q <> p -> read (w_heap w') (VObj lp) q = read (w_heap w) (VObj lp) q) /\
    exists lc, w_heap w !! lc = None /\ read (w_heap w') (VObj lp) p = VObj lc /\
      w_heap w' !! lc = Some (literal [("flags", nf); ("verify", nv)]).
Proof.
  intros Hok Hc Hp Htab H.
  pose proof Hok as (Hdbp & (od & Hd & Hpd & Hext & Himm & Hnp & Hdld) & (op & Hop & Hopp & Hopl)).
  unfold FlagHandler.store_flags in H.
  rewrite (bind_step _ _ _ _ _ (js_get_read _ db c w eq_refl)) in H.
  assert (HB : exists lp wB,
             FlagHandler.or_empty (read (w_heap w) (VObj db) c) w = (inr (VObj lp), wB) /\
             keeps w wB /\ lp <> db /\ lp <> objproto /\
             (read (w_heap w) (VObj db) c = VObj lp \/ w_heap w !! lp = None) /\
             exists olp, w_heap wB !! lp = Some olp /\ o_proto olp = Some objproto /\
                         data_like olp /\
                         (forall lp0, read (w_heap w) (VObj db) c = VObj lp0 ->
                                      lp0 = lp /\ w_heap w !! lp = Some olp)).
  { destruct (read (w_heap w) (VObj db) c) as [| | | | |lp] eqn:Ed;
      try (unfold plain_table in Htab; unfold FlagHandler.or_empty; rewrite Htab;
           destruct (alloc_literal [] w) as [r wB] eqn:Ea;
           pose proof (Pres_alloc_literal _ _ _ _ Ea) as Hkp;
           apply alloc_literal_spec in Ea as (lp & -> & Hfresh & Hh & _);
           exists lp, wB; split; [reflexivity|]; split; [exact Hkp|];
           split; [intros ->; congruence|]; split; [intros ->; congruence|];
           split; [right; exact Hfresh|];
           exists (literal []); rewrite Hh, lookup_insert_eq;
           split; [reflexivity|split; [reflexivity|split; [apply literal_data_like|discriminate]]]).
    destruct Htab as (H1 & H2 & olp & Hl & Hpr & Hdl).
    exists lp, w. split; [reflexivity|]. split; [apply keeps_refl|].
    split; [exact H1|]. split; [exact H2|]. split; [left; reflexivity|].
    exists olp. split; [exact Hl|]. split; [exact Hpr|]. split; [exact Hdl|].
    intros lp0 E0. injection E0 as <-. auto. }
  destruct HB as (lp & wB & HB & HkB & Hlpdb & Hlpop & Hlpold & olp & HlpB & Hplp & Hdlp & Hlpw).
  rewrite (bind_step _ _ _ _ _ HB) in H.
  pose proof (proj1 HkB _ _ Hd) as HdB. pose proof (proj1 HkB _ _ Hop) as HopB.
  (* the empty source object *)
  apply bind_inv in H as [[e [_ E]]|[src [wC [HC H]]]]; [discriminate|].
  pose proof (Pres_alloc_literal _ _ _ _ HC) as HkC.
  apply alloc_literal_spec in HC as (ls & Es & Hls & HhC & HtC). injection Es as ->.
  (* Object.assign(newFlags, {}) *)
  destruct nf as [| | | | |lf];
    try (unfold bind, throw in H; discriminate).
  rewrite (bind_step _ _ _ _ _ (assign_empty wC lf ls ltac:(rewrite HhC; apply lookup_insert_eq)))
    in H.
  (* the contribution object *)
  apply bind_inv in H as [[e [_ E]]|[contrib [wE [HE H]]]]; [discriminate|].
  pose proof (Pres_alloc_literal _ _ _ _ HE) as HkE.
  apply alloc_literal_spec in HE as (lc & Es & Hlc & HhE & HtE). injection Es as ->.
  (* plugins[pluginName] = contrib *)
  apply bind_inv in H as [[e [_ E]]|[[] [wF [HF HG]]]]; [discriminate|].
  pose proof (js_set_val_spec _ _ _ _ _ _ HF) as (HfrF & HtF & _).
  change (js_set lp p (VObj lc) wE = (inr tt, wF)) in HF.
  pose proof (proj1 HkC _ _ HlpB) as HlpC. pose proof (proj1 HkE _ _ HlpC) as HlpE.
  pose proof (proj1 HkC _ _ HdB) as HdC. pose proof (proj1 HkE _ _ HdC) as HdE.
  pose proof (proj1 HkC _ _ HopB) as HopC. pose proof (proj1 HkE _ _ HopC) as HopE.
  pose proof (no_accessor _ _ _ _ _ HlpE Hplp Hdlp HopE Hopp Hopl Hp) as HnaF.
  destruct (js_set_own _ _ _ _ _ HF HnaF) as (olp' & HlpF & wr1 & en1 & Hk1).
  destruct (js_set_data _ _ _ _ _ _ HlpE HnaF HF) as (olp2 & HlpF2 & Hpr1 & _ & _ & _ & Hoth1).
  rewrite HlpF in HlpF2. injection HlpF2 as <-.
  assert (HdF : w_heap wF !! db = Some od) by (rewrite HfrF; [exact HdE|congruence]).
  assert (HopF : w_heap wF !! objproto = Some op) by (rewrite HfrF; [exact HopE|congruence]).
  assert (Hlclp : lc <> lp) by (intros ->; congruence).
  assert (HlcF : w_heap wF !! lc = Some (literal [("flags", VObj lf); ("verify", nv)])).
  { rewrite HfrF; [|congruence]. rewrite HhE. apply lookup_insert_eq. }
  (* database[commandName] = plugins *)
  pose proof (js_set_spec _ _ _ _ _ _ HG) as (HfrG & HtG & _).
  pose proof (no_accessor _ _ _ _ _ HdF Hpd Hdld HopF Hopp Hopl Hc) as HnaG.
  destruct (js_set_own _ _ _ _ _ HG HnaG) as (od' & HdG & wr2 & en2 & Hk2).
  destruct (js_set_data _ _ _ _ _ _ HdF HnaG HG) as (od2 & HdG2 & Hpr2 & Hext2 & Himm2 & Hdl2 & Hoth2).
  rewrite HdG in HdG2. injection HdG2 as <-.
  assert (HopG : w_heap w' !! objproto = Some op) by (rewrite HfrG; [exact HopF|congruence]).
  assert (HlpG : w_heap w' !! lp = Some olp') by (rewrite HfrG; auto).
  assert (Hlcdb : lc <> db) by (intros ->; congruence).
  assert (HlcG : w_heap w' !! lc = Some (literal [("flags", VObj lf); ("verify", nv)]))
    by (rewrite HfrG; auto).
  split.
  { split; [exact Hdbp|]. split; [|exists op; split; [exact HopG|split; [exact Hopp|exact Hopl]]].
    exists od'. rewrite Hpr2, Hext2, Himm2, (Hoth2 "__proto__" (not_eq_sym Hc)).
    repeat split; [exact HdG|exact Hpd|exact Hext|exact Himm|exact Hnp|exact (Hdl2 Hdld)]. }
  split; [rewrite HtG, HtF, HtE, HtC; exact (proj2 HkB)|].
  split.
  { intros l o Hldb Hllp Hl.
    assert (Hl' : l <> lp).
    { intros ->. destruct Hlpold as [E|E]; [exact (Hllp E)|congruence]. }
    rewrite HfrG by exact Hldb. rewrite HfrF by congruence.
    exact (proj1 HkE _ _ (proj1 HkC _ _ (proj1 HkB _ _ Hl))). }
  split.
  { intros c' Hc'.
    apply (read_chain2_same _ _ db od od' op c' Hd HdG Hpd); [congruence|auto|exact Hop|exact HopG|exact Hopp]. }
  exists lp. split; [exact (read_own _ _ _ _ _ _ _ HdG Hk2)|].
  split.
  { intros lp0 Eold. destruct (Hlpw lp0 Eold) as [-> Hlpw']. split; [reflexivity|]. intros q Hq.
    apply (read_chain2_same _ _ lp olp olp' op q Hlpw' HlpG Hplp); [congruence|auto|exact Hop|exact HopG|exact Hopp]. }
  exists lc. split.
  { destruct (w_heap w !! lc) as [o|] eqn:Ew; [|reflexivity].
    rewrite (proj1 HkC _ _ (proj1 HkB _ _ Ew)) in Hlc. discriminate. }
  split; [exact (read_own _ _ _ _ _ _ _ HlpG Hk1)|exact HlcG].
Qed.

(** ** A first registration *)

Lemma js_get_nonnullish v k w :
  nullish v = false -> exists x, js_get v k w = (inr x, w).
Proof.
  intros Hn. unfold js_get, bind, get_heap. cbn beta iota.
  destruct v; try discriminate; repeat case_match; eauto.
Qed.

Lemma js_get_nullish v k w : nullish v = true -> js_get v k w = (inl ETypeError, w).
Proof. destruct v; try discriminate; reflexivity. Qed.

(** The conflict loop (lines 119-160) for a command with no plugin: it
    only reads each new flag's [char]. *)
Lemma check_new_flags_noplugins c p pl lf ks msg w :
  FlagHandler.check_new_flags c p pl [] (VObj lf) ks msg w =
  (if forallb (fun k => negb (nullish (read (w_heap w) (VObj lf) k))) ks
   then inr msg else inl ETypeError, w).
Proof.
  induction ks as [|k ks IH]; [reflexivity|]. cbn [FlagHandler.check_new_flags forallb].
  rewrite (bind_step _ _ _ _ _ (js_get_read _ lf k w eq_refl)).
  destruct (nullish (read (w_heap w) (VObj lf) k)) eqn:En.
  - rewrite (bind_fail _ _ _ _ _ (js_get_nullish _ "char" w En)). reflexivity.
  - destruct (js_get_nonnullish _ "char" w En) as [x Ex].
    rewrite (bind_step _ _ _ _ _ Ex). cbn [FlagHandler.check_plugins].
    rewrite (bind_step (ret msg) _ w msg w eq_refl). exact IH.
Qed.

Lemma forallb_in_ext {A} (f g : A -> bool) l :
  (forall x, In x l -> f x = g x) -> forallb f l = forallb g l.
Proof.
  induction l as [|x l IH]; intros Hfg; [reflexivity|]. cbn [forallb].
  rewrite (Hfg x (or_introl eq_refl)), IH; [reflexivity|]. intros y Hy. apply Hfg. right. exact Hy.
Qed.

(** The store step for a command with no table yet succeeds. *)
Lemma store_flags_new_ok db c p lf nv w :
  handler_ok (w_heap w) db -> c <> "__proto__" -> p <> "__proto__" ->
  truthy (read (w_heap w) (VObj db) c) = false ->
  exists w', FlagHandler.store_flags db c p (VObj lf) nv w = (inr tt, w').
Proof.
  intros Hok Hc Hp Hd.
  pose proof Hok as (Hdbp & (od & Hdb & Hpd & Hext & _ & _ & Hdl) & (op & Hop & Hopp & Hopl)).
  unfold FlagHandler.store_flags.
  rewrite (bind_step _ _ _ _ _ (js_get_read _ db c w eq_refl)).
  unfold FlagHandler.or_empty. rewrite Hd.
  destruct (alloc_literal [] w) as [rB wB] eqn:EB.
  pose proof (Pres_alloc_literal _ _ _ _ EB) as HkB.
  apply alloc_literal_spec in EB as EB'. destruct EB' as (lp & -> & HlpN & HhB & _).
  rewrite (bind_step _ _ _ _ _ EB).
  destruct (alloc_literal [] wB) as [rC wC] eqn:EC.
  pose proof (Pres_alloc_literal _ _ _ _ EC) as HkC.
  apply alloc_literal_spec in EC as EC'. destruct EC' as (ls & -> & HlsN & HhC & _).
  rewrite (bind_step _ _ _ _ _ EC).
  rewrite (bind_step _ _ _ _ _ (assign_empty wC lf ls ltac:(rewrite HhC; apply lookup_insert_eq))).
  destruct (alloc_literal [("flags", VObj lf); ("verify", nv)] wC) as [rE wE] eqn:EE.
  pose proof (Pres_alloc_literal _ _ _ _ EE) as HkE.
  apply alloc_literal_spec in EE as EE'. destruct EE' as (lc & -> & HlcN & HhE & _).
  rewrite (bind_step _ _ _ _ _ EE).
  assert (HlpB : w_heap wB !! lp = Some (literal [])) by (rewrite HhB; apply lookup_insert_eq).
  pose proof (proj1 HkE _ _ (proj1 HkC _ _ HlpB)) as HlpE.
  pose proof (proj1 HkE _ _ (proj1 HkC _ _ (proj1 HkB _ _ Hop))) as HopE.
  pose proof (proj1 HkE _ _ (proj1 HkC _ _ (proj1 HkB _ _ Hdb))) as HdbE.
  assert (Hlpop : lp <> objproto) by (intros ->; congruence).
  assert (Hlpdb : lp <> db) by (intros ->; congruence).
  destruct (js_set_success lp (literal []) p (VObj lc) wE HlpE eq_refl) as [wF HF].
  { rewrite (find_prop_chain2 _ _ lp (literal []) objproto op p HlpE eq_refl HopE Hopp)
      by (unfold fuel; pose proof (size_ge2 _ _ _ _ _ Hlpop HlpE HopE); lia).
    cbn [literal map o_props alookup].
    destruct (alookup p (o_props op)) as [q|] eqn:Hq; [|exact I].
    destruct (proto_like_lookup _ _ _ Hopl Hq) as [[_ E]|(v0 & en & ->)]; [contradiction|reflexivity]. }
  change (js_set_val (VObj lp) p (VObj lc) wE) with (js_set lp p (VObj lc) wE).
  rewrite (bind_step _ _ _ _ _ HF).
  pose proof (js_set_spec _ _ _ _ _ _ HF) as (HfrF & _).
  assert (HdbF : w_heap wF !! db = Some od) by (rewrite HfrF; [exact HdbE|congruence]).
  assert (HopF : w_heap wF !! objproto = Some op) by (rewrite HfrF; [exact HopE|congruence]).
  exact (write_db_ok wF db c (VObj lp) od op HdbF Hext Hdl HopF Hopp Hopl Hdbp (or_introl Hpd)
           (fun E => False_ind _ (Hc E))).
Qed.

(** [_checkFlagConflict] for a command with no registration: it
    compares nothing, and returns exactly when every flag's specification
    can be read; it only allocates the empty table [{}]. *)
Lemma checkFlagConflict_noplugins db c p nf w :
  is_objb (w_heap w) nf = true ->
  truthy (read (w_heap w) (VObj db) c) = false ->
  exists w0, keeps w w0 /\
    FlagHandler.checkFlagConflict db c p nf w =
    (if specs_okb (w_heap w) nf then inr tt else inl ETypeError, w0).
Proof.
  intros Hobj Hd.
  destruct (is_objb_inv _ _ Hobj) as (lf & ofl & -> & Hlf).
  unfold FlagHandler.checkFlagConflict.
  rewrite (bind_step _ _ _ _ _ (js_get_read _ db c w eq_refl)).
  unfold FlagHandler.or_empty. rewrite Hd.
  destruct (alloc_literal [] w) as [r0 w0] eqn:E0.
  pose proof (Pres_alloc_literal _ _ _ _ E0) as Hk0.
  apply alloc_literal_spec in E0 as E0'. destruct E0' as (l0 & -> & Hl0N & Hh0 & _).
  rewrite (bind_step _ _ _ _ _ E0).
  assert (Hl0 : w_heap w0 !! l0 = Some (literal [])) by (rewrite Hh0; apply lookup_insert_eq).
  rewrite (bind_step _ _ _ _ _ (js_keys_obj _ l0 _ w0 eq_refl Hl0)).
  cbn [own_keys literal map o_props List.filter sort_indices fold_right app existsb].
  rewrite (bind_step _ _ _ _ _ (js_keys_obj _ lf ofl w0 eq_refl (proj1 Hk0 _ _ Hlf))).
  exists w0. split; [exact Hk0|].
  assert (Hspec : specs_okb (w_heap w) (VObj lf) =
                  forallb (fun k => negb (nullish (read (w_heap w0) (VObj lf) k))) (own_keys ofl)).
  { unfold specs_okb. rewrite (keys_of_obj _ _ _ Hlf). apply forallb_in_ext.
    intros k Hk. rewrite Hh0, read_insert_found; [reflexivity|exact Hl0N|].
    destruct (In_own_keys _ _ Hk) as [q Hq]. apply (find_prop_own_some _ _ _ _ Hlf). congruence. }
  unfold bind at 1. rewrite check_new_flags_noplugins, <- Hspec.
  destruct (specs_okb (w_heap w) (VObj lf)); reflexivity.
Qed.

Lemma flags_okb_specs h nf : flags_okb h nf = true -> specs_okb h nf = true.
Proof.
  unfold flags_okb, specs_okb. intros H. apply andb_true_iff in H as [_ H].
  rewrite forallb_forall in H |- *. intros k Hk. specialize (H k Hk).
  destruct (read h nf k); try discriminate; reflexivity.
Qed.

(** [addFlags] for a command with no registration: it succeeds exactly
    when every flag's specification can be read. *)
Lemma addFlags_unregistered_spec db l w c p :
  handler_ok (w_heap w) db ->
  typeof (w_heap w) (VObj l) = "object" ->
  read (w_heap w) (VObj l) "command" = VStr c ->
  read (w_heap w) (VObj l) "plugin" = VStr p ->
  typeof (w_heap w) (read (w_heap w) (VObj l) "flags") = "object" ->
  verify_ok (w_heap w) (read (w_heap w) (VObj l) "verify") ->
  is_objb (w_heap w) (read (w_heap w) (VObj l) "flags") = true ->
  c <> "__proto__" -> p <> "__proto__" ->
  truthy (read (w_heap w) (VObj db) c) = false ->
  exists w0, keeps w w0 /\
    FlagHandler.checkFlagConflict db c p (read (w_heap w) (VObj l) "flags") w =
    (if specs_okb (w_heap w) (read (w_heap w) (VObj l) "flags") then inr tt else inl ETypeError, w0).
Proof.
  intros Hok Hty Hc Hp Hf Hv Hobj Hcp Hpp Hd.
  exact (checkFlagConflict_noplugins db c p _ w Hobj Hd).
Qed.

(** ** Writing an object without touching what is read *)

Section SameReads.
Variables (h : heap) (g : loc) (o o' : obj).
Hypothesis Hg : h !! g = Some o.
Hypothesis Hproto : o_proto o' = o_proto o.
Hypothesis Hcall : o_call o' = o_call o.

Lemma find_prop_insert_same n l k :
  alookup k (o_props o') = alookup k (o_props o) ->
  find_prop (<[g:=o']> h) n l k = find_prop h n l k.
Proof.
  intros Ha. revert l. induction n as [|n IH]; intros l; simpl; [reflexivity|].
  destruct (decide (l = g)) as [->|Hne].
  - rewrite lookup_insert_eq, Hg, Ha, Hproto.
    destruct (alookup k (o_props o)); [reflexivity|].
    destruct (o_proto o); [apply IH|reflexivity].
  - rewrite lookup_insert_ne by congruence.
    destruct (h !! l) as [o1|]; [|reflexivity].
    destruct (alookup k (o_props o1)); [reflexivity|].
    destruct (o_proto o1); [apply IH|reflexivity].
Qed.

Lemma read_insert_same v k :
  alookup k (o_props o') = alookup k (o_props o) ->
  read (<[g:=o']> h) v k = read h v k.
Proof.
  intros Ha. destruct v as [| | | | |l]; try reflexivity.
  unfold read, get_from, fuel.
  change (map_size (<[g:=o']> h)) with (size (<[g:=o']> h)).
  rewrite map_size_insert_Some by (exists o; exact Hg).
  change (size h) with (map_size h).
  rewrite (find_prop_insert_same _ _ _ Ha).
  destruct (find_prop h (S (map_size h)) l k) as [[l' [v' wr en|]]|]; try reflexivity.
  unfold proto_val. destruct (decide (l = g)) as [->|Hne].
  - rewrite lookup_insert_eq, Hg, Hproto. reflexivity.
  - rewrite lookup_insert_ne by congruence. reflexivity.
Qed.

Lemma is_objb_insert_same v : is_objb (<[g:=o']> h) v = is_objb h v.
Proof.
  destruct v as [| | | | |l]; try reflexivity. simpl.
  destruct (decide (l = g)) as [->|Hne].
  - rewrite lookup_insert_eq, Hg. reflexivity.
  - rewrite lookup_insert_ne by congruence. reflexivity.
Qed.

Lemma fn_of_insert_same v : fn_of (<[g:=o']> h) v = fn_of h v.
Proof.
  destruct v as [| | | | |l]; try reflexivity. simpl.
  destruct (decide (l = g)) as [->|Hne].
  - rewrite lookup_insert_eq, Hg, Hcall. reflexivity.
  - rewrite lookup_insert_ne by congruence. reflexivity.
Qed.

End SameReads.

Lemma alookup_mark_props k ps : k <> "seen" -> alookup k (Scenarios.mark_props ps) = alookup k ps.
Proof.
  intros Hk. unfold Scenarios.mark_props. destruct (alookup "seen" ps).
  - apply alookup_aupdate_ne; exact Hk.
  - apply alookup_app_ne; exact Hk.
Qed.

(** Setting [seen] on an object leaves the entries of a plugin table as
    [verifyFlags] reads them, for every plugin name other than [seen]. *)
Lemma entry_view_mark f a h plugins q :
  q <> "seen" -> entry_view (Scenarios.mark_100 f a h).2 plugins q = entry_view h plugins q.
Proof.
  intros Hq. unfold Scenarios.mark_100. cbn [snd].
  destruct a as [| | | | |g]; try reflexivity.
  destruct (h !! g) as [o|] eqn:Hg; [|reflexivity].
  remember (mkObj (Scenarios.mark_props (o_props o)) (o_proto o) (o_call o) (o_ext o)
                   (o_immut_proto o)) as o' eqn:Eo'.
  assert (Hp : o_proto o' = o_proto o) by (subst o'; reflexivity).
  assert (Hc : o_call o' = o_call o) by (subst o'; reflexivity).
  assert (Ha : forall k, k <> "seen" -> alookup k (o_props o') = alookup k (o_props o))
    by (intros k Hk; subst o'; apply alookup_mark_props; exact Hk).
  unfold entry_view, verify_fn.
  rewrite (read_insert_same h g o o' Hg Hp plugins q (Ha q Hq)).
  rewrite (read_insert_same h g o o' Hg Hp _ "verify" (Ha "verify" ltac:(discriminate))).
  rewrite (is_objb_insert_same h g o o' Hg), (fn_of_insert_same h g o o' Hg Hc).
  reflexivity.
Qed.

End Facts.

(* ------------------------------------------------------------------ *)
(** * The claims *)
(* ------------------------------------------------------------------ *)

Module Claims.
Import JS Props Facts Scenarios.

(** C2: a call of [addFlags] that throws, for whatever reason, leaves every
    object that existed before the call exactly as it was, the database
    and the plugin tables under it included, and calls no function.  This
    holds for every database of the shape the constructor creates and the
    handler's own writes keep. *)
Theorem addFlags_atomic db arg w e w' :
  handler_ok (w_heap w) db ->
  FlagHandler.addFlags db arg w = (inl e, w') -> keeps w w'.
Proof. intros Hok H. exact (addFlags_fail db arg w e w' Hok H). Qed.



(** C6: the conflict check compares the new flags only with the flags of
    the plugins already registered for the command.  When the entry passes
    the argument checks and its flags mapping holds objects, and either
    nothing is registered for the command (its slot is [undefined] or
    another falsy value) or the plugin is not yet registered, no new flag
    name is [in] a registered plugin's flags and no non-empty alias of a
    new flag is the alias of a registered plugin's flag, [addFlags] goes on
    to store the entry, whatever aliases the new flags share among
    themselves.  Before storing, only a fresh empty object may have been
    allocated, and only when nothing was registered. *)
Theorem addFlags_no_outside_clash db l w c p :
  typeof (w_heap w) (VObj l) = "object" ->
  read (w_heap w) (VObj l) "command" = VStr c ->
  read (w_heap w) (VObj l) "plugin" = VStr p ->
  typeof (w_heap w) (read (w_heap w) (VObj l) "flags") = "object" ->
  verify_ok (w_heap w) (read (w_heap w) (VObj l) "verify") ->
  flags_okb (w_heap w) (read (w_heap w) (VObj l) "flags") = true ->
  truthy (read (w_heap w) (VObj db) c) = false \/
  (table_okb (w_heap w) (read (w_heap w) (VObj db) c) = true /\
   ~ In p (keys_of (w_heap w) (read (w_heap w) (VObj db) c)) /\
   (forall k q, In k (keys_of (w_heap w) (read (w_heap w) (VObj l) "flags")) ->
      In q (keys_of (w_heap w) (read (w_heap w) (VObj db) c)) ->
      has_propb (w_heap w) (plugin_flags (w_heap w) (read (w_heap w) (VObj db) c) q) k = false) /\
   (forall k q fk s, In k (keys_of (w_heap w) (read (w_heap w) (VObj l) "flags")) ->
      In q (keys_of (w_heap w) (read (w_heap w) (VObj db) c)) ->
      char_of (w_heap w) (read (w_heap w) (read (w_heap w) (VObj l) "flags") k) = Some s ->
      s <> "" ->
      In fk (keys_of (w_heap w) (plugin_flags (w_heap w) (read (w_heap w) (VObj db) c) q)) ->
      char_of (w_heap w)
        (read (w_heap w) (plugin_flags (w_heap w) (read (w_heap w) (VObj db) c) q) fk) <> Some s)) ->
  exists w0, keeps w w0 /\
    (truthy (read (w_heap w) (VObj db) c) = true -> w0 = w) /\
    FlagHandler.addFlags db (VObj l) w =
    FlagHandler.store_flags db c p (read (w_heap w) (VObj l) "flags")
      (new_verify (read (w_heap w) (VObj l) "verify")) w0.
Proof.
  intros Hty Hc Hp Hf Hv Hfl Hcase.
  rewrite (addFlags_pass db l w c p Hty Hc Hp Hf Hv).
  destruct Hcase as [Hd|(Ht & Hnp & Hin & Hal)].
  - assert (Hobj : is_objb (w_heap w) (read (w_heap w) (VObj l) "flags") = true)
      by (unfold flags_okb in Hfl; apply andb_true_iff in Hfl; exact (proj1 Hfl)).
    destruct (checkFlagConflict_noplugins db c p _ w Hobj Hd) as (w0 & Hk & E).
    rewrite (flags_okb_specs _ _ Hfl) in E.
    exists w0. split; [exact Hk|split].
    + rewrite Hd. discriminate.
    + exact (bind_step _ _ _ _ _ E).
  - exists w. split; [apply keeps_refl|split; [reflexivity|]].
    exact (bind_step _ _ _ _ _ (checkFlagConflict_clean db c p _ w Ht Hnp Hfl Hin Hal)).
Qed.

(** Two new flags sharing an alias: next to a registered plugin whose
    flags have neither their names nor that alias, and on a fresh
    handler. *)
Lemma addFlags_no_outside_clash_witness :
  (exists w0, keeps (setup_world shared_alias_setup) w0 /\
     (truthy (read (w_heap (setup_world shared_alias_setup))
                (VObj (setup_db shared_alias_setup)) "run") = true ->
      w0 = setup_world shared_alias_setup) /\
     FlagHandler.addFlags (setup_db shared_alias_setup) (VObj (setup_obj shared_alias_setup))
       (setup_world shared_alias_setup) =
     FlagHandler.store_flags (setup_db shared_alias_setup) "run" "b"
       (read (w_heap (setup_world shared_alias_setup)) (VObj (setup_obj shared_alias_setup)) "flags")
       (new_verify (read (w_heap (setup_world shared_alias_setup))
                      (VObj (setup_obj shared_alias_setup)) "verify")) w0) /\
  (exists w0, keeps (setup_world same_alias_setup) w0 /\
     (truthy (read (w_heap (setup_world same_alias_setup))
                (VObj (setup_db same_alias_setup)) "run") = true ->
      w0 = setup_world same_alias_setup) /\
     FlagHandler.addFlags (setup_db same_alias_setup) (VObj (setup_obj same_alias_setup))
       (setup_world same_alias_setup) =
     FlagHandler.store_flags (setup_db same_alias_setup) "run" "a"
       (read (w_heap (setup_world same_alias_setup)) (VObj (setup_obj same_alias_setup)) "flags")
       (new_verify (read (w_heap (setup_world same_alias_setup))
                      (VObj (setup_obj same_alias_setup)) "verify")) w0).
Proof.
  split.
  - apply (addFlags_no_outside_clash (setup_db shared_alias_setup) (setup_obj shared_alias_setup)
             (setup_world shared_alias_setup) "run" "b");
      [vm_compute; reflexivity ..| | |].
    + right. left. vm_compute. reflexivity.
    + vm_compute. reflexivity.
    + right. split; [vm_compute; reflexivity|split; [|split]].
      * vm_compute. intros [H|[]]. discriminate.
      * intros k q Hk Hq. vm_compute in Hk, Hq.
        destruct Hq as [<-|[]]. destruct Hk as [<-|[<-|[]]]; vm_compute; reflexivity.
      * intros k q fk s Hk Hq Hs Hne Hfk. vm_compute in Hk, Hq.
        destruct Hq as [<-|[]]. vm_compute in Hfk. destruct Hfk as [<-|[]].
        destruct Hk as [<-|[<-|[]]]; vm_compute in Hs; injection Hs as <-; vm_compute;
          discriminate.
  - apply (addFlags_no_outside_clash (setup_db same_alias_setup) (setup_obj same_alias_setup)
             (setup_world same_alias_setup) "run" "a");
      [vm_compute; reflexivity ..| | |].
    + right. left. vm_compute. reflexivity.
    + vm_compute. reflexivity.
    + left. vm_compute. reflexivity.
Defined.

(** C5: for a query whose command is a string and whose flags value has
    type object, and a command whose plugin table holds objects,
    [verifyFlags] calls the verify functions of the plugins in the order
    [Object.keys] lists the plugin table (integer-like names ascending
    first, then the others in insertion order), each once with the query's
    flags, skipping entries without one, and stops at the first that
    throws.  It then throws that value, or returns.  The called functions
    may change any object: each runs in the store the previous one left,
    and the store [verifyFlags] leaves is the one the last call leaves.
    This holds for verify functions that keep the entries of the table as
    the loop reads them (each entry an object, with the same verify
    function). *)
Theorem verifyFlags_calls call_fn db lq w c :
  typeof (w_heap w) (VObj lq) = "object" ->
  read (w_heap w) (VObj lq) "command" = VStr c ->
  typeof (w_heap w) (read (w_heap w) (VObj lq) "flags") = "object" ->
  entries_okb (w_heap w) (read (w_heap w) (VObj db) c) = true ->
  keeps_entries call_fn (w_heap w) (read (w_heap w) (VObj db) c)
    (keys_of (w_heap w) (read (w_heap w) (VObj db) c)) ->
  FlagHandler.verifyFlags call_fn db (VObj lq) w =
  let '(cs, r, h') :=
    calls_until call_fn
      (callbacks (w_heap w) (read (w_heap w) (VObj db) c)
         (keys_of (w_heap w) (read (w_heap w) (VObj db) c)))
      (read (w_heap w) (VObj lq) "flags") (w_heap w) in
  (outcome r,
   mkWorld h' (w_trace w ++ map (fun f => (f, read (w_heap w) (VObj lq) "flags")) cs)).
Proof.
  intros Hty Hc Hf Hok Hk.
  unfold entries_okb in Hok. apply andb_true_iff in Hok as [Hpo Hall].
  destruct (is_objb_inv _ _ Hpo) as (lp & op & Ep & Hlp).
  rewrite Ep in Hall, Hk |- *. rewrite (keys_of_obj _ _ _ Hlp) in Hall, Hk |- *.
  unfold FlagHandler.verifyFlags.
  rewrite (bind_step _ _ _ _ _ (default_obj_step lq w)).
  rewrite (bind_step _ _ _ _ _ (get_heap_step w)).
  rewrite Hty, eqb_object. cbn [negb].
  rewrite (bind_step _ _ _ _ _ (js_get_read _ lq "command" w eq_refl)). rewrite Hc.
  rewrite (bind_step _ _ _ _ _ (js_get_read _ lq "flags" w eq_refl)).
  cbv beta iota.
  rewrite (bind_step _ _ _ _ _ (get_heap_step w)).
  rewrite Hf, eqb_object. cbn [negb].
  rewrite (bind_step _ _ _ _ _ (js_get_read _ db c w eq_refl)). rewrite Ep.
  rewrite (bind_step _ _ _ _ _ (or_empty_obj lp w)).
  rewrite (bind_step _ _ _ _ _ (js_keys_obj _ lp op w eq_refl Hlp)).
  apply (run_verify_spec call_fn lp _ (own_keys op)); [exact Hk|reflexivity| |auto].
  intros q Hq. rewrite forallb_forall in Hall. auto.
Qed.

(** With verify functions that write [seen] on the flags object, ["1"]'s
    function 101 returns and ["b"]'s function 100 throws. *)
Lemma verifyFlags_calls_witness :
  FlagHandler.verifyFlags mark_100 (setup_db verify_setup) (VObj (setup_obj verify_setup))
    (setup_world verify_setup) =
  let '(cs, r, h') :=
    calls_until mark_100
      (callbacks (w_heap (setup_world verify_setup))
         (read (w_heap (setup_world verify_setup)) (VObj (setup_db verify_setup)) "run")
         (keys_of (w_heap (setup_world verify_setup))
            (read (w_heap (setup_world verify_setup)) (VObj (setup_db verify_setup)) "run")))
      (read (w_heap (setup_world verify_setup)) (VObj (setup_obj verify_setup)) "flags")
      (w_heap (setup_world verify_setup)) in
  (outcome r,
   mkWorld h' (w_trace (setup_world verify_setup) ++
               map (fun f => (f, read (w_heap (setup_world verify_setup))
                                   (VObj (setup_obj verify_setup)) "flags")) cs)).
Proof.
  apply (verifyFlags_calls mark_100 (setup_db verify_setup) (setup_obj verify_setup)
           (setup_world verify_setup) "run"); try (vm_compute; reflexivity).
  intros f a h Hv q Hq. rewrite entry_view_mark; [apply Hv; exact Hq|].
  vm_compute in Hq. intros ->. vm_compute in Hq.
  destruct Hq as [Hq|[Hq|[]]]; discriminate.
Defined.

(** C8: [Object.assign(newFlags, {})] returns [newFlags] itself, so a
    successful [addFlags] stores the caller's flags object, not a copy:
    afterwards [database[command][plugin].flags] is the very object the
    entry's [flags] referred to, and any later change the caller makes to
    it is seen through the registry.  This holds for a database of the
    constructor's shape, names other than ["__proto__"], and a command
    whose slot is empty or holds a plain plugin table. *)
Theorem addFlags_stores_caller_flags db l w w' c p :
  handler_ok (w_heap w) db ->
  typeof (w_heap w) (VObj l) = "object" ->
  read (w_heap w) (VObj l) "command" = VStr c ->
  read (w_heap w) (VObj l) "plugin" = VStr p ->
  typeof (w_heap w) (read (w_heap w) (VObj l) "flags") = "object" ->
  verify_ok (w_heap w) (read (w_heap w) (VObj l) "verify") ->
  c <> "__proto__" -> p <> "__proto__" ->
  plain_table (w_heap w) (read (w_heap w) (VObj db) c) db ->
  FlagHandler.addFlags db (VObj l) w = (inr tt, w') ->
  exists lf, read (w_heap w) (VObj l) "flags" = VObj lf /\
    plugin_flags (w_heap w') (read (w_heap w') (VObj db) c) p = VObj lf.
Proof.
  intros Hok Hty Hc Hp Hf Hv Hcp Hpp Htab H.
  rewrite (addFlags_pass db l w c p Hty Hc Hp Hf Hv) in H.
  apply bind_inv in H as [[e [_ E]]|[u [w1 [H1 H2]]]]; [discriminate|].
  pose proof (Pres_checkFlagConflict db c p (read (w_heap w) (VObj l) "flags") w _ w1 H1)
    as Hk1.
  apply (store_flags_stores db c p (read (w_heap w) (VObj l) "flags")
           (new_verify (read (w_heap w) (VObj l) "verify")) w1 w'
           (handler_ok_keeps _ _ _ Hk1 Hok) Hcp Hpp); [|exact H2].
  rewrite (read_db_keeps (w_heap w) (w_heap w1) db c Hok (proj1 Hk1)).
  exact (plain_table_keeps _ _ _ _ (proj1 Hk1) Htab).
Qed.

Lemma addFlags_stores_caller_flags_witness :
  exists lf,
    read (w_heap (setup_world second_plugin_setup))
      (VObj (setup_obj second_plugin_setup)) "flags" = VObj lf /\
    plugin_flags
      (w_heap (FlagHandler.addFlags (setup_db second_plugin_setup)
                 (VObj (setup_obj second_plugin_setup)) (setup_world second_plugin_setup)).2)
      (read (w_heap (FlagHandler.addFlags (setup_db second_plugin_setup)
                       (VObj (setup_obj second_plugin_setup))
                       (setup_world second_plugin_setup)).2)
         (VObj (setup_db second_plugin_setup)) "run") "b" = VObj lf.
Proof.
  apply (addFlags_stores_caller_flags (setup_db second_plugin_setup)
           (setup_obj second_plugin_setup) (setup_world second_plugin_setup)
           (FlagHandler.addFlags (setup_db second_plugin_setup)
              (VObj (setup_obj second_plugin_setup)) (setup_world second_plugin_setup)).2
           "run" "b").
  - apply handler_okb_sound. vm_compute. reflexivity.
  - vm_compute. reflexivity.
  - vm_compute. reflexivity.
  - vm_compute. reflexivity.
  - vm_compute. reflexivity.
  - right. left. vm_compute. reflexivity.
  - discriminate.
  - discriminate.
  - vm_compute. split; [discriminate|]. split; [discriminate|].
    eexists; split; [reflexivity|]. split; [reflexivity|].
    intros k q Hin. destruct Hin as [E|[]]. inversion E; subst. eexists _, _; reflexivity.
  - vm_compute. reflexivity.
Defined.

Lemma addFlags_atomic_witness :
  handler_ok (w_heap dup_world) dup_db /\
  keeps dup_world (FlagHandler.addFlags dup_db dup_entry dup_world).2.
Proof.
  split; [apply handler_okb_sound; vm_compute; reflexivity|].
  apply (addFlags_atomic dup_db dup_entry dup_world (EError (FlagHandler.msg_duplicate "a")));
    [apply handler_okb_sound; vm_compute; reflexivity|vm_compute; reflexivity].
Defined.

(** C7: [addFlags] checks its argument's fields in the order [command],
    [plugin], [flags], [verify], each with its own message and before any
    change; it only checks their types ([typeof]), so any string, the
    empty one included, passes as a command or plugin name and the call
    goes on to the conflict check and the store step. *)
Theorem addFlags_checks db l w :
  typeof (w_heap w) (VObj l) = "object" ->
  ((~ is_str (read (w_heap w) (VObj l) "command")) ->
     FlagHandler.addFlags db (VObj l) w =
     (inl (EError "FlagHandler addFlags: 'newEntry.command' is not a 'string'."), w)) /\
  (forall c, read (w_heap w) (VObj l) "command" = VStr c ->
     ~ is_str (read (w_heap w) (VObj l) "plugin") ->
     FlagHandler.addFlags db (VObj l) w =
     (inl (EError "FlagHandler addFlags: 'newEntry.plugin' is not a 'string'."), w)) /\
  (forall c p, read (w_heap w) (VObj l) "command" = VStr c ->
     read (w_heap w) (VObj l) "plugin" = VStr p ->
     typeof (w_heap w) (read (w_heap w) (VObj l) "flags") <> "object" ->
     FlagHandler.addFlags db (VObj l) w =
     (inl (EError "FlagHandler addFlags: 'newEntry.flags' is not an 'object'."), w)) /\
  (forall c p, read (w_heap w) (VObj l) "command" = VStr c ->
     read (w_heap w) (VObj l) "plugin" = VStr p ->
     typeof (w_heap w) (read (w_heap w) (VObj l) "flags") = "object" ->
     ~ verify_ok (w_heap w) (read (w_heap w) (VObj l) "verify") ->
     FlagHandler.addFlags db (VObj l) w =
     (inl (EError "FlagHandler addFlags: 'newEntry.verify' is not a 'function'."), w)) /\
  (forall c p, read (w_heap w) (VObj l) "command" = VStr c ->
     read (w_heap w) (VObj l) "plugin" = VStr p ->
     typeof (w_heap w) (read (w_heap w) (VObj l) "flags") = "object" ->
     verify_ok (w_heap w) (read (w_heap w) (VObj l) "verify") ->
     FlagHandler.addFlags db (VObj l) w =
     bind (FlagHandler.checkFlagConflict db c p (read (w_heap w) (VObj l) "flags"))
          (fun _ => FlagHandler.store_flags db c p (read (w_heap w) (VObj l) "flags")
                      (new_verify (read (w_heap w) (VObj l) "verify"))) w).
Proof.
  intros Hty.
  unfold FlagHandler.addFlags.
  rewrite (bind_step _ _ _ _ _ (default_obj_step l w)).
  rewrite (bind_step _ _ _ _ _ (get_heap_step w)), Hty, eqb_object. cbn [negb].
  rewrite (bind_step _ _ _ _ _ (js_get_read _ l "command" w eq_refl)).
  split; [|split; [|split; [|split]]].
  - intros Hc. destruct (read (w_heap w) (VObj l) "command"); try reflexivity.
    exfalso. apply Hc. eexists; reflexivity.
  - intros c -> Hp. rewrite (bind_step _ _ _ _ _ (js_get_read _ l "plugin" w eq_refl)).
    destruct (read (w_heap w) (VObj l) "plugin"); try reflexivity.
    exfalso. apply Hp. eexists; reflexivity.
  - intros c p -> Hp Hf. rewrite (bind_step _ _ _ _ _ (js_get_read _ l "plugin" w eq_refl)), Hp.
    rewrite (bind_step _ _ _ _ _ (js_get_read _ l "flags" w eq_refl)).
    rewrite (bind_step _ _ _ _ _ (get_heap_step w)).
    destruct (String.eqb_spec (typeof (w_heap w) (read (w_heap w) (VObj l) "flags")) "object")
      as [E|_]; [contradiction|reflexivity].
  - intros c p -> Hp Hf Hv. rewrite (bind_step _ _ _ _ _ (js_get_read _ l "plugin" w eq_refl)), Hp.
    rewrite (bind_step _ _ _ _ _ (js_get_read _ l "flags" w eq_refl)).
    rewrite (bind_step _ _ _ _ _ (get_heap_step w)), Hf, eqb_object. cbn [negb].
    rewrite (bind_step _ _ _ _ _ (js_get_read _ l "verify" w eq_refl)).
    rewrite (bind_fail _ _ _ _ _ (check_verify_bad _ _ w eq_refl Hv)). reflexivity.
  - intros c p Hc Hp Hf Hv. rewrite <- (addFlags_pass db l w c p Hty Hc Hp Hf Hv).
    unfold FlagHandler.addFlags.
    rewrite (bind_step _ _ _ _ _ (default_obj_step l w)).
    rewrite (bind_step _ _ _ _ _ (get_heap_step w)), Hty, eqb_object. cbn [negb].
    rewrite (bind_step _ _ _ _ _ (js_get_read _ l "command" w eq_refl)). reflexivity.
Qed.

(** C9: a query object whose [command] is not a string makes [getFlags]
    and [verifyFlags] throw their [commandName] errors, and a string
    command with a [flags] field whose [typeof] is not ["object"] makes
    [verifyFlags] throw its [flags] error.  In these cases the world, the
    registry included, is returned unchanged and no function is called.
    [typeof null] is ["object"], so a [null] [flags] with a string command
    is accepted: [verifyFlags] goes on to the plugins' verify functions,
    passing them [null]. *)
Theorem query_checks db l w :
  typeof (w_heap w) (VObj l) = "object" ->
  ((~ is_str (read (w_heap w) (VObj l) "command")) ->
     FlagHandler.getFlags db (VObj l) w =
       (inl (EError "FlagHandler getFlags: 'commandName' is not a 'string'."), w) /\
     forall call_fn, FlagHandler.verifyFlags call_fn db (VObj l) w =
       (inl (EError "FlagHandler verifyFlags: 'commandName' is not a 'string'."), w)) /\
  (forall c, read (w_heap w) (VObj l) "command" = VStr c ->
     typeof (w_heap w) (read (w_heap w) (VObj l) "flags") <> "object" ->
     forall call_fn, FlagHandler.verifyFlags call_fn db (VObj l) w =
       (inl (EError "FlagHandler verifyFlags: 'flags' is not an 'object'."), w)) /\
  (forall c, read (w_heap w) (VObj l) "command" = VStr c ->
     read (w_heap w) (VObj l) "flags" = VNull ->
     forall call_fn, FlagHandler.verifyFlags call_fn db (VObj l) w =
       bind (FlagHandler.or_empty (read (w_heap w) (VObj db) c))
         (fun plugins => bind (js_keys plugins)
            (fun pluginNames => FlagHandler.run_verify call_fn plugins VNull pluginNames)) w).
Proof.
  intros Hty. split; [|split].
  - intros Hc. split.
    + unfold FlagHandler.getFlags.
      rewrite (bind_step _ _ _ _ _ (default_obj_step l w)).
      rewrite (bind_step _ _ _ _ _ (get_heap_step w)), Hty, eqb_object. cbn [negb].
      rewrite (bind_step _ _ _ _ _ (js_get_read _ l "command" w eq_refl)).
      destruct (read (w_heap w) (VObj l) "command"); try reflexivity.
      exfalso. apply Hc. eexists; reflexivity.
    + intros call_fn. unfold FlagHandler.verifyFlags.
      rewrite (bind_step _ _ _ _ _ (default_obj_step l w)).
      rewrite (bind_step _ _ _ _ _ (get_heap_step w)), Hty, eqb_object. cbn [negb].
      rewrite (bind_step _ _ _ _ _ (js_get_read _ l "command" w eq_refl)).
      rewrite (bind_step _ _ _ _ _ (js_get_read _ l "flags" w eq_refl)).
      destruct (read (w_heap w) (VObj l) "command"); try reflexivity.
      exfalso. apply Hc. eexists; reflexivity.
  - intros c Hc Hf call_fn. unfold FlagHandler.verifyFlags.
    rewrite (bind_step _ _ _ _ _ (default_obj_step l w)).
    rewrite (bind_step _ _ _ _ _ (get_heap_step w)), Hty, eqb_object. cbn [negb].
    rewrite (bind_step _ _ _ _ _ (js_get_read _ l "command" w eq_refl)).
    rewrite (bind_step _ _ _ _ _ (js_get_read _ l "flags" w eq_refl)), Hc.
    rewrite (bind_step _ _ _ _ _ (get_heap_step w)).
    destruct (String.eqb_spec (typeof (w_heap w) (read (w_heap w) (VObj l) "flags")) "object")
      as [E|_]; [contradiction|reflexivity].
  - intros c Hc Hn call_fn. unfold FlagHandler.verifyFlags.
    rewrite (bind_step _ _ _ _ _ (default_obj_step l w)).
    rewrite (bind_step _ _ _ _ _ (get_heap_step w)), Hty, eqb_object. cbn [negb].
    rewrite (bind_step _ _ _ _ _ (js_get_read _ l "command" w eq_refl)).
    rewrite (bind_step _ _ _ _ _ (js_get_read _ l "flags" w eq_refl)), Hc, Hn.
    rewrite (bind_step _ _ _ _ _ (get_heap_step w)).
    cbn [typeof]. rewrite eqb_object. cbn [negb].
    rewrite (bind_step _ _ _ _ _ (js_get_read _ db c w eq_refl)). reflexivity.
Qed.

Lemma addFlags_checks_witness :
  typeof (w_heap (setup_world numeric_command)) (VObj (setup_obj numeric_command)) = "object" /\
  FlagHandler.addFlags (setup_db numeric_command) (VObj (setup_obj numeric_command))
    (setup_world numeric_command) =
  (inl (EError "FlagHandler addFlags: 'newEntry.command' is not a 'string'."),
   setup_world numeric_command).
Proof.
  split; [vm_compute; reflexivity|].
  apply (addFlags_checks (setup_db numeric_command) (setup_obj numeric_command)
           (setup_world numeric_command)); [vm_compute; reflexivity|].
  intros [s Hs]. vm_compute in Hs. discriminate.
Defined.

Lemma query_checks_witness :
  typeof (w_heap (setup_world numeric_query)) (VObj (setup_obj numeric_query)) = "object" /\
  FlagHandler.getFlags (setup_db numeric_query) (VObj (setup_obj numeric_query))
    (setup_world numeric_query) =
  (inl (EError "FlagHandler getFlags: 'commandName' is not a 'string'."),
   setup_world numeric_query).
Proof.
  split; [vm_compute; reflexivity|].
  apply (query_checks (setup_db numeric_query) (setup_obj numeric_query)
           (setup_world numeric_query)); [vm_compute; reflexivity|].
  intros [s Hs]. vm_compute in Hs. discriminate.
Defined.


(** C3: registering flag ["x"] for ["run"] under the plugin name
    ["__proto__"] succeeds, but [getFlags({command: "run"})] then returns
    an object without keys: [plugins["__proto__"] = ...] set the
    prototype of the plugin table instead of adding a key to it. *)
Theorem proto_plugin_lost :
  (run proto_plugin_flags).1 = inr [].
Proof. vm_compute. reflexivity. Qed.

(** C4: the pair ([run], [__proto__]) can be registered twice: the second
    call succeeds instead of failing with the duplicate-plugin error,
    because [Object.keys] of the plugin table never lists ["__proto__"]. *)
Theorem proto_plugin_registered_twice :
  (run proto_plugin_twice).1 = inr tt.
Proof. vm_compute. reflexivity. Qed.

(** C5, counterexample: plugins ["b"] and then ["1"] register verify
    functions 100 and 101 for ["run"]; [verifyFlags] calls 101 first,
    since [Object.keys] lists the array index ["1"] before ["b"]. *)
Lemma verify_order_keys :
  (run verify_order).1 = inr tt /\
  map fst (w_trace (run verify_order).2) = [101%positive; 100%positive].
Proof. split; vm_compute; reflexivity. Qed.

(** C6, counterexample: a fresh handler accepts one call whose flags
    ["a"] and ["b"] both have the alias ["x"]. *)
Lemma same_call_alias_accepted :
  (run same_call_alias).1 = inr tt.
Proof. vm_compute. reflexivity. Qed.

(** C7, counterexample: the command name [""] is accepted and its flag
    is returned by [getFlags({command: ""})]. *)
Lemma empty_command_accepted :
  (run empty_command).1 = inr ["x"].
Proof. vm_compute. reflexivity. Qed.

(** C8, counterexample: after registering [{ x: ... }], the caller adds
    ["z"] to its own flags object and [getFlags] returns both ["x"] and
    ["z"]: the registry holds the caller's object, not a copy. *)
Lemma mutate_after_visible :
  (run mutate_after).1 = inr ["x"; "z"].
Proof. vm_compute. reflexivity. Qed.

(** C9, counterexample: [verifyFlags({command: "run", flags: null})]
    returns normally. *)
Lemma verify_null_flags_accepted :
  (run verify_null_flags).1 = inr tt.
Proof. vm_compute. reflexivity. Qed.

(** C10: registering plugin ["build"] under the command ["__proto__"]
    adds ["build"] to [Object.prototype]: the database's ["build"] entry,
    undefined before the call, is an object after it, and
    [getFlags({command: "build"})] then throws a [TypeError]. *)
Theorem proto_command_pollutes :
  (exists l, (run proto_command).1 = inr (VUndef, VObj l)) /\
  (run proto_command_get).1 = inl ETypeError.
Proof. split; [eexists; vm_compute; reflexivity|vm_compute; reflexivity]. Qed.

End Claims.


(* ------------------------------------------------------------------ *)
(** * Further properties of the handler *)
(* ------------------------------------------------------------------ *)

Module Extras.
Import JS Props Facts Scenarios.

(** [getFlags] only reads the database: whatever the query, and whether it
    returns or throws, every object that existed before the call is left
    as it was and no function is called.  Its writes go to the fresh
    [allFlags] object it allocates. *)
Theorem getFlags_keeps db arg w :
  keeps w (FlagHandler.getFlags db arg w).2.
Proof.
  destruct (FlagHandler.getFlags db arg w) as [r w'] eqn:E. exact (Pres_getFlags _ _ _ _ _ E).
Qed.


(** For a valid query whose command nothing registered (its slot in the
    database is [undefined] or another falsy value), [verifyFlags] calls
    no function, changes no existing object and returns normally. *)
Theorem verifyFlags_unregistered call_fn db lq w c :
  typeof (w_heap w) (VObj lq) = "object" ->
  read (w_heap w) (VObj lq) "command" = VStr c ->
  typeof (w_heap w) (read (w_heap w) (VObj lq) "flags") = "object" ->
  truthy (read (w_heap w) (VObj db) c) = false ->
  exists w', FlagHandler.verifyFlags call_fn db (VObj lq) w = (inr tt, w') /\ keeps w w'.
Proof.
  intros Hty Hc Hf Hd.
  unfold FlagHandler.verifyFlags.
  rewrite (bind_step _ _ _ _ _ (default_obj_step lq w)).
  rewrite (bind_step _ _ _ _ _ (get_heap_step w)).
  rewrite Hty, eqb_object. cbn [negb].
  rewrite (bind_step _ _ _ _ _ (js_get_read _ lq "command" w eq_refl)). rewrite Hc.
  rewrite (bind_step _ _ _ _ _ (js_get_read _ lq "flags" w eq_refl)).
  cbv beta iota.
  rewrite (bind_step _ _ _ _ _ (get_heap_step w)).
  rewrite Hf, eqb_object. cbn [negb].
  rewrite (bind_step _ _ _ _ _ (js_get_read _ db c w eq_refl)).
  unfold FlagHandler.or_empty. rewrite Hd.
  destruct (alloc_literal [] w) as [r1 w1] eqn:Ea.
  apply alloc_literal_spec in Ea as Ea'. destruct Ea' as (l & -> & Hfresh & Hh & Ht).
  rewrite (bind_step _ _ _ _ _ Ea).
  assert (Hl : w_heap w1 !! l = Some (literal [])) by (rewrite Hh; apply lookup_insert_eq).
  rewrite (bind_step _ _ _ _ _ (js_keys_obj _ l _ w1 eq_refl Hl)).
  exists w1. split; [reflexivity|]. split; [|exact Ht].
  intros l' o Ho. rewrite Hh, lookup_insert_ne; [exact Ho|intros ->; congruence].
Qed.

Lemma verifyFlags_unregistered_witness :
  exists w', FlagHandler.verifyFlags throw_101 (setup_db unregistered_setup)
               (VObj (setup_obj unregistered_setup)) (setup_world unregistered_setup) =
             (inr tt, w') /\ keeps (setup_world unregistered_setup) w'.
Proof.
  apply (verifyFlags_unregistered throw_101 (setup_db unregistered_setup)
           (setup_obj unregistered_setup) (setup_world unregistered_setup) "build");
    vm_compute; reflexivity.
Defined.

(** A second registration of a plugin for a command is refused: when the
    entry passes the field checks and the command's plugin table already
    has the plugin's name as a key, [addFlags] throws the duplicate
    message and changes nothing, before it looks at any flag. *)
Theorem addFlags_duplicate db l w c p :
  typeof (w_heap w) (VObj l) = "object" ->
  read (w_heap w) (VObj l) "command" = VStr c ->
  read (w_heap w) (VObj l) "plugin" = VStr p ->
  typeof (w_heap w) (read (w_heap w) (VObj l) "flags") = "object" ->
  verify_ok (w_heap w) (read (w_heap w) (VObj l) "verify") ->
  is_objb (w_heap w) (read (w_heap w) (VObj db) c) = true ->
  In p (keys_of (w_heap w) (read (w_heap w) (VObj db) c)) ->
  FlagHandler.addFlags db (VObj l) w = (inl (EError (FlagHandler.msg_duplicate p)), w).
Proof.
  intros Hty Hc Hp Hf Hv Hpo Hin.
  rewrite (addFlags_pass db l w c p Hty Hc Hp Hf Hv).
  apply bind_fail.
  destruct (is_objb_inv _ _ Hpo) as (lp & op & Ep & Hlp).
  rewrite Ep, (keys_of_obj _ _ _ Hlp) in Hin.
  unfold FlagHandler.checkFlagConflict.
  rewrite (bind_step _ _ _ _ _ (js_get_read _ db c w eq_refl)). rewrite Ep.
  rewrite (bind_step _ _ _ _ _ (or_empty_obj lp w)).
  rewrite (bind_step _ _ _ _ _ (js_keys_obj _ lp op w eq_refl Hlp)).
  rewrite (existsb_eqb_true _ _ Hin). reflexivity.
Qed.

Lemma addFlags_duplicate_witness :
  FlagHandler.addFlags dup_db dup_entry dup_world =
  (inl (EError (FlagHandler.msg_duplicate "a")), dup_world).
Proof.
  change dup_entry with (VObj (loc_of dup_entry)).
  apply (addFlags_duplicate dup_db (loc_of dup_entry) dup_world "run" "a");
    [vm_compute; reflexivity ..| |vm_compute; reflexivity|vm_compute; left; reflexivity].
  right. left. vm_compute. reflexivity.
Defined.

(** For a valid query on a handler of the constructor's shape, whose
    command's plugin table is an object or falsy and whose registered
    flags are objects with no flag named ["__proto__"], [getFlags] returns
    a new object (it did not exist before the call), changes no existing
    object, and the keys of that object are exactly the flag names of the
    command's registered plugins. *)
Theorem getFlags_keys db lq w c :
  handler_ok (w_heap w) db ->
  typeof (w_heap w) (VObj lq) = "object" ->
  read (w_heap w) (VObj lq) "command" = VStr c ->
  flag_tables_okb (w_heap w) (read (w_heap w) (VObj db) c) = true ->
  exists r w', FlagHandler.getFlags db (VObj lq) w = (inr (VObj r), w') /\
    w_heap w !! r = None /\ keeps w w' /\
    forall k, In k (keys_of (w_heap w') (VObj r)) <->
      exists q, In q (keys_of (w_heap w) (read (w_heap w) (VObj db) c)) /\
        In k (keys_of (w_heap w) (plugin_flags (w_heap w) (read (w_heap w) (VObj db) c) q)).
Proof.
  intros Hh Hty Hc Hok.
  destruct (getFlags_result db lq w c Hh Hty Hc Hok)
    as (r & w' & E & Hr & Hk & ps & Hps & Hp & Hal).
  exists r, w'. split; [exact E|]. split; [exact Hr|]. split; [exact Hk|].
  intros k. rewrite (keys_of_obj _ _ _ Hps), (own_keys_target _ _ Hp), Hal, <- last_owner_some.
  destruct (last_owner _ _ _ k); split; congruence.
Qed.

Lemma getFlags_keys_witness :
  exists r w',
    FlagHandler.getFlags (setup_db verify_setup) (VObj (setup_obj verify_setup))
      (setup_world verify_setup) = (inr (VObj r), w') /\
    w_heap (setup_world verify_setup) !! r = None /\ keeps (setup_world verify_setup) w' /\
    forall k, In k (keys_of (w_heap w') (VObj r)) <->
      exists q, In q (keys_of (w_heap (setup_world verify_setup))
                        (read (w_heap (setup_world verify_setup))
                           (VObj (setup_db verify_setup)) "run")) /\
        In k (keys_of (w_heap (setup_world verify_setup))
                (plugin_flags (w_heap (setup_world verify_setup))
                   (read (w_heap (setup_world verify_setup))
                      (VObj (setup_db verify_setup)) "run") q)).
Proof.
  apply (getFlags_keys (setup_db verify_setup) (setup_obj verify_setup)
           (setup_world verify_setup) "run");
    [apply handler_okb_sound|..]; vm_compute; reflexivity.
Defined.

(** Under the same conditions, each key of the object [getFlags] returns
    holds the value that key has in the flags of the last plugin, in
    [Object.keys] order of the plugin table, whose flags have it: a later
    plugin's flag overwrites an earlier one of the same name. *)
Theorem getFlags_last_wins db lq w c :
  handler_ok (w_heap w) db ->
  typeof (w_heap w) (VObj lq) = "object" ->
  read (w_heap w) (VObj lq) "command" = VStr c ->
  flag_tables_okb (w_heap w) (read (w_heap w) (VObj db) c) = true ->
  exists r w', FlagHandler.getFlags db (VObj lq) w = (inr (VObj r), w') /\
    forall k q,
      last_owner (w_heap w) (read (w_heap w) (VObj db) c)
        (keys_of (w_heap w) (read (w_heap w) (VObj db) c)) k = Some q ->
      read (w_heap w') (VObj r) k =
      read (w_heap w) (plugin_flags (w_heap w) (read (w_heap w) (VObj db) c) q) k.
Proof.
  intros Hh Hty Hc Hok.
  destruct (getFlags_result db lq w c Hh Hty Hc Hok)
    as (r & w' & E & Hr & Hk & ps & Hps & Hp & Hal).
  exists r, w'. split; [exact E|].
  intros k q Hq. specialize (Hal k). rewrite Hq in Hal.
  exact (read_own _ _ _ _ _ _ _ Hps Hal).
Qed.

Lemma getFlags_last_wins_witness :
  exists r w',
    FlagHandler.getFlags (setup_db verify_setup) (VObj (setup_obj verify_setup))
      (setup_world verify_setup) = (inr (VObj r), w') /\
    forall k q,
      last_owner (w_heap (setup_world verify_setup))
        (read (w_heap (setup_world verify_setup)) (VObj (setup_db verify_setup)) "run")
        (keys_of (w_heap (setup_world verify_setup))
           (read (w_heap (setup_world verify_setup)) (VObj (setup_db verify_setup)) "run")) k =
        Some q ->
      read (w_heap w') (VObj r) k =
      read (w_heap (setup_world verify_setup))
        (plugin_flags (w_heap (setup_world verify_setup))
           (read (w_heap (setup_world verify_setup)) (VObj (setup_db verify_setup)) "run") q) k.
Proof.
  apply (getFlags_last_wins (setup_db verify_setup) (setup_obj verify_setup)
           (setup_world verify_setup) "run");
    [apply handler_okb_sound|..]; vm_compute; reflexivity.
Defined.

(** A successful [addFlags], on a handler of the constructor's shape and
    names other than ["__proto__"], fills the plugin's slot of the
    command's table with a new object [{ flags, verify }] (lines 79-86):
    [flags] is the entry's [flags] value and [verify] the entry's
    [verify], or [null] when the entry had none. *)
Theorem addFlags_stores_record db l w w' c p :
  handler_ok (w_heap w) db ->
  typeof (w_heap w) (VObj l) = "object" ->
  read (w_heap w) (VObj l) "command" = VStr c ->
  read (w_heap w) (VObj l) "plugin" = VStr p ->
  typeof (w_heap w) (read (w_heap w) (VObj l) "flags") = "object" ->
  verify_ok (w_heap w) (read (w_heap w) (VObj l) "verify") ->
  c <> "__proto__" -> p <> "__proto__" ->
  plain_table (w_heap w) (read (w_heap w) (VObj db) c) db ->
  FlagHandler.addFlags db (VObj l) w = (inr tt, w') ->
  exists lc, w_heap w !! lc = None /\
    read (w_heap w') (read (w_heap w') (VObj db) c) p = VObj lc /\
    w_heap w' !! lc =
      Some (literal [("flags", read (w_heap w) (VObj l) "flags");
                     ("verify", new_verify (read (w_heap w) (VObj l) "verify"))]).
Proof.
  intros Hok Hty Hc Hp Hf Hv Hcp Hpp Htab H.
  rewrite (addFlags_pass db l w c p Hty Hc Hp Hf Hv) in H.
  apply bind_inv in H as [[e [_ E]]|[u [w1 [H1 H2]]]]; [discriminate|].
  pose proof (Pres_checkFlagConflict db c p (read (w_heap w) (VObj l) "flags") w _ w1 H1)
    as Hk1.
  assert (Hr1 : read (w_heap w1) (VObj db) c = read (w_heap w) (VObj db) c)
    by exact (read_db_keeps (w_heap w) (w_heap w1) db c Hok (proj1 Hk1)).
  destruct (store_flags_effect db c p (read (w_heap w) (VObj l) "flags")
              (new_verify (read (w_heap w) (VObj l) "verify")) w1 w'
              (handler_ok_keeps _ _ _ Hk1 Hok) Hcp Hpp
              ltac:(rewrite Hr1; exact (plain_table_keeps _ _ _ _ (proj1 Hk1) Htab)) H2)
    as (_ & Ht & Hfr & Hcs & lp & Elp & Hqs & lc & Hlc & Eslot & Hslot).
  exists lc. split; [destruct (w_heap w !! lc) as [o|] eqn:Ew; [|reflexivity]|].
  { rewrite (proj1 Hk1 _ _ Ew) in Hlc. discriminate. }
  rewrite Elp. split; [exact Eslot|exact Hslot].
Qed.

Lemma addFlags_stores_record_witness :
  exists lc, w_heap (setup_world second_plugin_setup) !! lc = None /\
    read (w_heap (FlagHandler.addFlags (setup_db second_plugin_setup) (VObj (setup_obj second_plugin_setup))
                 (setup_world second_plugin_setup)).2)
      (read (w_heap (FlagHandler.addFlags (setup_db second_plugin_setup) (VObj (setup_obj second_plugin_setup))
                 (setup_world second_plugin_setup)).2)
         (VObj (setup_db second_plugin_setup)) "run") "b" = VObj lc /\
    w_heap (FlagHandler.addFlags (setup_db second_plugin_setup) (VObj (setup_obj second_plugin_setup))
                 (setup_world second_plugin_setup)).2 !! lc =
      Some (literal [("flags", read (w_heap (setup_world second_plugin_setup)) (VObj (setup_obj second_plugin_setup)) "flags");
                     ("verify", new_verify (read (w_heap (setup_world second_plugin_setup))
                                              (VObj (setup_obj second_plugin_setup)) "verify"))]).
Proof.
  apply (addFlags_stores_record (setup_db second_plugin_setup)
           (setup_obj second_plugin_setup) (setup_world second_plugin_setup)
           (FlagHandler.addFlags (setup_db second_plugin_setup)
              (VObj (setup_obj second_plugin_setup)) (setup_world second_plugin_setup)).2
           "run" "b").
  - apply handler_okb_sound. vm_compute. reflexivity.
  - vm_compute. reflexivity.
  - vm_compute. reflexivity.
  - vm_compute. reflexivity.
  - vm_compute. reflexivity.
  - right. left. vm_compute. reflexivity.
  - discriminate.
  - discriminate.
  - vm_compute. split; [discriminate|]. split; [discriminate|].
    eexists; split; [reflexivity|]. split; [reflexivity|].
    intros k q Hin. destruct Hin as [E|[]]. inversion E; subst. eexists _, _; reflexivity.
  - vm_compute. reflexivity.
Defined.

(** A successful [addFlags], under the same conditions, calls no function
    and writes to two objects only, the database and the command's plugin
    table: every other object that existed keeps its value (the entry and
    its flags object among them), every other command's slot of the
    database reads as before, and, when the command already had a table,
    every other plugin's slot of it reads as before. *)
Theorem addFlags_frame db l w w' c p :
  handler_ok (w_heap w) db ->
  typeof (w_heap w) (VObj l) = "object" ->
  read (w_heap w) (VObj l) "command" = VStr c ->
  read (w_heap w) (VObj l) "plugin" = VStr p ->
  typeof (w_heap w) (read (w_heap w) (VObj l) "flags") = "object" ->
  verify_ok (w_heap w) (read (w_heap w) (VObj l) "verify") ->
  c <> "__proto__" -> p <> "__proto__" ->
  plain_table (w_heap w) (read (w_heap w) (VObj db) c) db ->
  FlagHandler.addFlags db (VObj l) w = (inr tt, w') ->
  w_trace w' = w_trace w /\
  (forall l' o, l' <> db -> read (w_heap w) (VObj db) c <> VObj l' ->
     w_heap w !! l' = Some o -> w_heap w' !! l' = Some o) /\
  (forall c', c' <> c -> read (w_heap w') (VObj db) c' = read (w_heap w) (VObj db) c') /\
  (forall lp q, read (w_heap w) (VObj db) c = VObj lp -> q <> p ->
     read (w_heap w') (VObj lp) q = read (w_heap w) (VObj lp) q).
Proof.
  intros Hok Hty Hc Hp Hf Hv Hcp Hpp Htab H.
  rewrite (addFlags_pass db l w c p Hty Hc Hp Hf Hv) in H.
  apply bind_inv in H as [[e [_ E]]|[u [w1 [H1 H2]]]]; [discriminate|].
  pose proof (Pres_checkFlagConflict db c p (read (w_heap w) (VObj l) "flags") w _ w1 H1)
    as Hk1.
  assert (Hr1 : read (w_heap w1) (VObj db) c = read (w_heap w) (VObj db) c)
    by exact (read_db_keeps (w_heap w) (w_heap w1) db c Hok (proj1 Hk1)).
  destruct (store_flags_effect db c p (read (w_heap w) (VObj l) "flags")
              (new_verify (read (w_heap w) (VObj l) "verify")) w1 w'
              (handler_ok_keeps _ _ _ Hk1 Hok) Hcp Hpp
              ltac:(rewrite Hr1; exact (plain_table_keeps _ _ _ _ (proj1 Hk1) Htab)) H2)
    as (_ & Ht & Hfr & Hcs & lp & Elp & Hqs & lc & Hlc & Eslot & Hslot).
  split; [rewrite Ht; exact (proj2 Hk1)|].
  split; [intros l' o H1' H2' H3'; apply Hfr; [exact H1'|rewrite Hr1; exact H2'|exact (proj1 Hk1 _ _ H3')]|].
  split; [intros c' Hc'; rewrite (Hcs c' Hc'); exact (read_db_keeps _ _ db c' Hok (proj1 Hk1))|].
  intros lp' q Eold Hq. rewrite <- Hr1 in Eold. destruct (Hqs lp' Eold) as [-> Hq'].
  rewrite (Hq' q Hq). rewrite Hr1 in Eold. rewrite Eold in Htab.
  destruct Htab as (_ & Hlpop & olp & Hlp & Hplp & _).
  destruct Hok as (_ & _ & op & Hop & Hopp & _).
  apply (read_chain2_same _ _ lp olp olp op q Hlp (proj1 Hk1 _ _ Hlp) Hplp Hplp eq_refl Hop
           (proj1 Hk1 _ _ Hop) Hopp).
Qed.

Lemma addFlags_frame_witness :
  w_trace (FlagHandler.addFlags (setup_db second_plugin_setup) (VObj (setup_obj second_plugin_setup))
                 (setup_world second_plugin_setup)).2 = w_trace (setup_world second_plugin_setup) /\
  (forall l' o, l' <> setup_db second_plugin_setup ->
     read (w_heap (setup_world second_plugin_setup)) (VObj (setup_db second_plugin_setup)) "run" <> VObj l' ->
     w_heap (setup_world second_plugin_setup) !! l' = Some o -> w_heap (FlagHandler.addFlags (setup_db second_plugin_setup) (VObj (setup_obj second_plugin_setup))
                 (setup_world second_plugin_setup)).2 !! l' = Some o) /\
  (forall c', c' <> "run" ->
     read (w_heap (FlagHandler.addFlags (setup_db second_plugin_setup) (VObj (setup_obj second_plugin_setup))
                 (setup_world second_plugin_setup)).2) (VObj (setup_db second_plugin_setup)) c' =
     read (w_heap (setup_world second_plugin_setup)) (VObj (setup_db second_plugin_setup)) c') /\
  (forall lp q, read (w_heap (setup_world second_plugin_setup)) (VObj (setup_db second_plugin_setup)) "run" = VObj lp ->
     q <> "b" ->
     read (w_heap (FlagHandler.addFlags (setup_db second_plugin_setup) (VObj (setup_obj second_plugin_setup))
                 (setup_world second_plugin_setup)).2) (VObj lp) q = read (w_heap (setup_world second_plugin_setup)) (VObj lp) q).
Proof.
  apply (addFlags_frame (setup_db second_plugin_setup)
           (setup_obj second_plugin_setup) (setup_world second_plugin_setup)
           (FlagHandler.addFlags (setup_db second_plugin_setup)
              (VObj (setup_obj second_plugin_setup)) (setup_world second_plugin_setup)).2
           "run" "b").
  - apply handler_okb_sound. vm_compute. reflexivity.
  - vm_compute. reflexivity.
  - vm_compute. reflexivity.
  - vm_compute. reflexivity.
  - vm_compute. reflexivity.
  - right. left. vm_compute. reflexivity.
  - discriminate.
  - discriminate.
  - vm_compute. split; [discriminate|]. split; [discriminate|].
    eexists; split; [reflexivity|]. split; [reflexivity|].
    intros k q Hin. destruct Hin as [E|[]]. inversion E; subst. eexists _, _; reflexivity.
  - vm_compute. reflexivity.
Defined.

(** For a command nothing registered yet, on a handler of the
    constructor's shape, an entry that passes the field checks, whose
    [flags] is an object and whose names are not ["__proto__"], is
    accepted exactly when every flag's specification is neither [null]
    nor [undefined]: with no other plugin there is no conflict, but the
    conflict check still reads each flag's [char] (line 123), which
    throws a [TypeError] on [null] or [undefined]; that failure leaves
    every existing object as it was. *)
Theorem addFlags_unregistered db l w c p :
  handler_ok (w_heap w) db ->
  typeof (w_heap w) (VObj l) = "object" ->
  read (w_heap w) (VObj l) "command" = VStr c ->
  read (w_heap w) (VObj l) "plugin" = VStr p ->
  typeof (w_heap w) (read (w_heap w) (VObj l) "flags") = "object" ->
  verify_ok (w_heap w) (read (w_heap w) (VObj l) "verify") ->
  is_objb (w_heap w) (read (w_heap w) (VObj l) "flags") = true ->
  c <> "__proto__" -> p <> "__proto__" ->
  truthy (read (w_heap w) (VObj db) c) = false ->
  (specs_okb (w_heap w) (read (w_heap w) (VObj l) "flags") = true ->
   exists w', FlagHandler.addFlags db (VObj l) w = (inr tt, w')) /\
  (specs_okb (w_heap w) (read (w_heap w) (VObj l) "flags") = false ->
   exists w', FlagHandler.addFlags db (VObj l) w = (inl ETypeError, w') /\ keeps w w').
Proof.
  intros Hok Hty Hc Hp Hf Hv Hobj Hcp Hpp Hd.
  rewrite (addFlags_pass db l w c p Hty Hc Hp Hf Hv).
  destruct (addFlags_unregistered_spec db l w c p Hok Hty Hc Hp Hf Hv Hobj Hcp Hpp Hd)
    as (w0 & Hk0 & Ecf).
  split; intros Hs; rewrite Hs in Ecf.
  - rewrite (bind_step _ _ _ _ _ Ecf).
    destruct (is_objb_inv _ _ Hobj) as (lf & ofl & Ef & Hlf). rewrite Ef.
    apply (store_flags_new_ok db c p lf _ w0 (handler_ok_keeps _ _ _ Hk0 Hok) Hcp Hpp).
    rewrite (read_db_keeps (w_heap w) (w_heap w0) db c Hok (proj1 Hk0)). exact Hd.
  - rewrite (bind_fail _ _ _ _ _ Ecf). exists w0. split; [reflexivity|exact Hk0].
Qed.

Lemma addFlags_unregistered_witness :
  (exists w', FlagHandler.addFlags (setup_db first_entry_setup)
                (VObj (setup_obj first_entry_setup)) (setup_world first_entry_setup) = (inr tt, w')) /\
  (exists w', FlagHandler.addFlags (setup_db undefined_spec_setup)
                (VObj (setup_obj undefined_spec_setup)) (setup_world undefined_spec_setup) =
              (inl ETypeError, w') /\ keeps (setup_world undefined_spec_setup) w').
Proof.
  split.
  - apply (addFlags_unregistered (setup_db first_entry_setup) (setup_obj first_entry_setup)
             (setup_world first_entry_setup) "run" "a");
      [apply handler_okb_sound; vm_compute; reflexivity|vm_compute; reflexivity
      |vm_compute; reflexivity|vm_compute; reflexivity|vm_compute; reflexivity
      |right; left; vm_compute; reflexivity|vm_compute; reflexivity
      |discriminate|discriminate|vm_compute; reflexivity|vm_compute; reflexivity].
  - apply (addFlags_unregistered (setup_db undefined_spec_setup) (setup_obj undefined_spec_setup)
             (setup_world undefined_spec_setup) "run" "a");
      [apply handler_okb_sound; vm_compute; reflexivity|vm_compute; reflexivity
      |vm_compute; reflexivity|vm_compute; reflexivity|vm_compute; reflexivity
      |right; left; vm_compute; reflexivity|vm_compute; reflexivity
      |discriminate|discriminate|vm_compute; reflexivity|vm_compute; reflexivity].
Defined.

(** The constructor, run where [Object.prototype] has its standard shape,
    creates an empty database object in the shape every method relies on
    (see [handler_ok]), and changes no existing object. *)
Theorem construct_shape w op db w' :
  w_heap w !! objproto = Some op -> o_proto op = None -> proto_like op ->
  FlagHandler.construct w = (inr db, w') ->
  handler_ok (w_heap w') db /\ keeps w w' /\ keys_of (w_heap w') (VObj db) = [].
Proof.
  intros Hop Hopp Hopl H. unfold FlagHandler.construct in H.
  destruct (alloc_spec _ _ _ _ H) as (l & El & Hfresh & Hh & Ht). injection El as <-.
  assert (Hne : db <> objproto) by (intros ->; congruence).
  assert (Hk : keeps w w').
  { split; [|exact Ht]. intros l o Hl. rewrite Hh, lookup_insert_ne; [exact Hl|congruence]. }
  split; [|split; [exact Hk|cbn [keys_of]; rewrite Hh, lookup_insert_eq; reflexivity]].
  split; [exact Hne|]. split.
  - exists (literal []). rewrite Hh, lookup_insert_eq.
    repeat split; try reflexivity. apply literal_data_like.
  - exists op. split; [exact (proj1 Hk _ _ Hop)|]. split; [exact Hopp|exact Hopl].
Qed.

Lemma construct_shape_witness :
  handler_ok (w_heap (FlagHandler.construct Builtins.init_world).2)
    (fresh (dom (w_heap Builtins.init_world))) /\
  keeps Builtins.init_world (FlagHandler.construct Builtins.init_world).2 /\
  keys_of (w_heap (FlagHandler.construct Builtins.init_world).2)
    (VObj (fresh (dom (w_heap Builtins.init_world)))) = [].
Proof.
  apply (construct_shape Builtins.init_world Builtins.objproto_obj).
  - vm_compute. reflexivity.
  - reflexivity.
  - apply proto_likeb_sound. vm_compute. reflexivity.
  - reflexivity.
Defined.

(** [addFlags] keeps the database in shape: for an entry that passes the
    argument checks, with command and plugin names other than
    ["__proto__"] and a plain table (or none) under the command, the world
    after the call, whether it returns or throws, still satisfies
    [handler_ok]. *)
Theorem addFlags_keeps_shape db l w r w' c p :
  handler_ok (w_heap w) db ->
  typeof (w_heap w) (VObj l) = "object" ->
  read (w_heap w) (VObj l) "command" = VStr c ->
  read (w_heap w) (VObj l) "plugin" = VStr p ->
  typeof (w_heap w) (read (w_heap w) (VObj l) "flags") = "object" ->
  verify_ok (w_heap w) (read (w_heap w) (VObj l) "verify") ->
  c <> "__proto__" -> p <> "__proto__" ->
  plain_table (w_heap w) (read (w_heap w) (VObj db) c) db ->
  FlagHandler.addFlags db (VObj l) w = (r, w') ->
  handler_ok (w_heap w') db.
Proof.
  intros Hok Hty Hc Hp Hf Hv Hcp Hpp Htab H.
  destruct r as [e|[]].
  - exact (handler_ok_keeps _ _ _ (addFlags_fail db (VObj l) w e w' Hok H) Hok).
  - rewrite (addFlags_pass db l w c p Hty Hc Hp Hf Hv) in H.
    apply bind_inv in H as [[e [_ E]]|[u [w1 [H1 H2]]]]; [discriminate|].
    pose proof (Pres_checkFlagConflict db c p (read (w_heap w) (VObj l) "flags") w _ w1 H1)
      as Hk1.
    assert (Hr1 : read (w_heap w1) (VObj db) c = read (w_heap w) (VObj db) c)
      by exact (read_db_keeps (w_heap w) (w_heap w1) db c Hok (proj1 Hk1)).
    exact (proj1 (store_flags_effect db c p (read (w_heap w) (VObj l) "flags")
              (new_verify (read (w_heap w) (VObj l) "verify")) w1 w'
              (handler_ok_keeps _ _ _ Hk1 Hok) Hcp Hpp
              ltac:(rewrite Hr1; exact (plain_table_keeps _ _ _ _ (proj1 Hk1) Htab)) H2)).
Qed.

Lemma addFlags_keeps_shape_witness :
  handler_ok (w_heap (FlagHandler.addFlags (setup_db second_plugin_setup)
                       (VObj (setup_obj second_plugin_setup)) (setup_world second_plugin_setup)).2)
    (setup_db second_plugin_setup).
Proof.
  apply (addFlags_keeps_shape (setup_db second_plugin_setup)
           (setup_obj second_plugin_setup) (setup_world second_plugin_setup)
           (FlagHandler.addFlags (setup_db second_plugin_setup)
              (VObj (setup_obj second_plugin_setup)) (setup_world second_plugin_setup)).1
           _ "run" "b").
  - apply handler_okb_sound. vm_compute. reflexivity.
  - vm_compute. reflexivity.
  - vm_compute. reflexivity.
  - vm_compute. reflexivity.
  - vm_compute. reflexivity.
  - right. left. vm_compute. reflexivity.
  - discriminate.
  - discriminate.
  - vm_compute. split; [discriminate|]. split; [discriminate|].
    eexists; split; [reflexivity|]. split; [reflexivity|].
    intros k q Hin. destruct Hin as [E|[]]. inversion E; subst. eexists _, _; reflexivity.
  - apply surjective_pairing.
Defined.

End Extras.
